(** * Jenkins dashboard: URL resolver, report fetcher, batch aggregator and
      metrics derivers

    A shallow embedding of the aggregation core of the dashboard:

    - [JenkinsApiService] (services/jenkinsApi.ts): [parseBuildUrl],
      [getAllureSummary], [getAllureResults], [getAllureReportData],
      [getAllureReportsForBuilds], [getAllureReportUrl];
    - the three derivers of components/Analysis.tsx:
      [generateHistoricalTrendData], [generateFlakyTestsData],
      [generateEnvironmentMatrixData];
    - the other methods of the service and the shared instance
      [jenkinsService]; the handlers of components/Configuration.tsx; the
      report filter and the date cards of components/Dashboard.tsx and
      components/FilterPanel.tsx; the recent builds and the claims of
      components/LinksHub.tsx.

    Conventions of the embedding.

    - JavaScript strings are Rocq [string]s (byte strings, UTF-8).
    - Counters and time stamps are JavaScript numbers holding integers; they
      are modelled by [Z].  A success rate is the rational number that the
      binary64 result of the source is: every operation of lines 142-151 is
      rounded by [binary64].  A failure rate is held as the exact ratio.
    - A thrown exception is a value of [JsError]; a [try]/[catch] block is
      [try_catch].  A settled promise is a value of [Promise].
    - A JavaScript object used as a dictionary is the list of its own
      properties in creation order ([JsObject]); property reads also see what
      an object literal inherits from [Object.prototype] ([Realm]).
    - What the platform supplies ([new URL], date-fns [format],
      [String.prototype.localeCompare], the HTTP client, the clock) is a
      parameter of the definitions that use it. *)

From Stdlib Require Import ZArith QArith Qround Qpower Bool List Ascii String.
From Stdlib Require Import Lia Lqa.
From Stdlib Require Import Permutation Sorted DecimalString.
From Stdlib Require PrimFloat FloatOps SpecFloat Uint63 DecimalPos.
Import ListNotations.

Open Scope string_scope.
Open Scope Z_scope.

(** ** JavaScript primitives used by the source *)

(** [s.split(sep)] for a one-character separator: the pieces between the
    separators, empty pieces included. *)
Fixpoint split (sep : ascii) (s : string) : list string :=
  match s with
  | EmptyString => [EmptyString]
  | String c rest =>
      if Ascii.eqb c sep then EmptyString :: split sep rest
      else match split sep rest with
           | [] => [String c EmptyString]
           | piece :: pieces => String c piece :: pieces
           end
  end.

(** [Boolean(s)] on a string: the empty string is the only falsy one. *)
Definition Boolean (s : string) : bool :=
  match s with
  | EmptyString => false
  | String _ _ => true
  end.

(** [xs.indexOf(x)] on an array of strings: the first position holding [x];
    [None] stands for -1. *)
Fixpoint indexOf (x : string) (xs : list string) : option nat :=
  match xs with
  | [] => None
  | y :: ys =>
      if String.eqb y x then Some O
      else option_map S (indexOf x ys)
  end.

(** White space that [parseInt] skips, as far as one byte can hold it
    (TAB, LF, VT, FF, CR, SP). *)
Definition is_white_space (c : ascii) : bool :=
  let n := nat_of_ascii c in
  (Nat.leb 9 n && Nat.leb n 13) || Nat.eqb n 32.

Fixpoint trimStart (s : string) : string :=
  match s with
  | String c rest => if is_white_space c then trimStart rest else s
  | EmptyString => EmptyString
  end.

(** The value of a digit in the given radix. *)
Definition digit_value (radix : Z) (c : ascii) : option Z :=
  let n := Z.of_nat (nat_of_ascii c) in
  let v :=
    if (48 <=? n) && (n <=? 57) then Some (n - 48)
    else if (97 <=? n) && (n <=? 122) then Some (n - 97 + 10)
    else if (65 <=? n) && (n <=? 90) then Some (n - 65 + 10)
    else None in
  match v with
  | Some d => if d <? radix then Some d else None
  | None => None
  end.

(** The longest prefix of [s] made of digits of the radix, read as a number;
    [acc] is [None] until a digit has been read. *)
Fixpoint parse_digits (radix : Z) (acc : option Z) (s : string) : option Z :=
  match s with
  | EmptyString => acc
  | String c rest =>
      match digit_value radix c with
      | Some d =>
          parse_digits radix
            (Some (match acc with Some a => a * radix + d | None => d end))
            rest
      | None => acc
      end
  end.

(** [parseInt(s)] with no radix argument.  [None] is NaN.  Leading white
    space is skipped, one sign is read, a [0x]/[0X] prefix selects radix 16,
    and whatever follows the digits is ignored.  The result is the exact
    integer that the digits denote; the source's number is the binary64
    nearest to it, which is the same number below 2^53.  Longer digit
    strings are outside the embedding. *)
Definition parseInt (s : string) : option Z :=
  let s1 := trimStart s in
  let '(sign, s2) :=
    match s1 with
    | String "-" r => (-1, r)
    | String "+" r => (1, r)
    | _ => (1, s1)
    end in
  let '(radix, s3) :=
    match s2 with
    | String "0" (String "x" r) => (16, r)
    | String "0" (String "X" r) => (16, r)
    | _ => (10, s2)
    end in
  option_map (Z.mul sign) (parse_digits radix None s3).

(** [String(n)] for a number that holds a safe integer (below 2^53 in
    magnitude): its decimal digits, with a minus sign when it is negative.
    Beyond that range the source prints the shortest digits that read back
    to the same binary64, and exponent notation from 10^21 on; the embedding
    is used on safe integers only. *)
Definition Number_toString (n : Z) : string :=
  NilZero.string_of_int (Z.to_int n).

Definition hex_digit (n : nat) : ascii :=
  if Nat.ltb n 10 then ascii_of_nat (48 + n) else ascii_of_nat (55 + n).

(** Characters that [encodeURIComponent] leaves alone:
    [A-Z a-z 0-9 - _ . ! ~ * ' ( )]. *)
Definition uri_unreserved (c : ascii) : bool :=
  let n := nat_of_ascii c in
  (Nat.leb 65 n && Nat.leb n 90) || (Nat.leb 97 n && Nat.leb n 122)
  || (Nat.leb 48 n && Nat.leb n 57)
  || existsb (Nat.eqb n) [45; 95; 46; 33; 126; 42; 39; 40; 41]%nat.

(** [encodeURIComponent(s)]: every other byte of the UTF-8 form becomes
    [%XX] with upper-case hexadecimal digits. *)
Fixpoint encodeURIComponent (s : string) : string :=
  match s with
  | EmptyString => EmptyString
  | String c rest =>
      if uri_unreserved c then String c (encodeURIComponent rest)
      else
        let n := nat_of_ascii c in
        String "%" (String (hex_digit (n / 16)) (String (hex_digit (n mod 16))
          (encodeURIComponent rest)))
  end.

(** ** Exceptions and promises *)

(** A thrown value: an [Error] object with its message, or anything else. *)
Inductive JsError : Type :=
  | ErrorObject (message : string)
  | NonError.

(** The outcome of evaluating a block that may throw. *)
Inductive Exc (A : Type) : Type :=
  | Returns (a : A)
  | Throws (e : JsError).
Arguments Returns {A} a.
Arguments Throws {A} e.

Definition bind {A B : Type} (m : Exc A) (k : A -> Exc B) : Exc B :=
  match m with
  | Returns a => k a
  | Throws e => Throws e
  end.

Notation "x <- m ;; k" := (bind m (fun x => k))
  (at level 61, m at next level, right associativity).

(** [try { body } catch (error) { handler }]. *)
Definition try_catch {A : Type} (body : Exc A) (handler : JsError -> A) : A :=
  match body with
  | Returns a => a
  | Throws e => handler e
  end.

(** A settled promise. *)
Inductive Promise (A : Type) : Type :=
  | Fulfilled (a : A)
  | Rejected (e : JsError).
Arguments Fulfilled {A} a.
Arguments Rejected {A} e.

(** [await p] inside a block that may throw. *)
Definition await {A : Type} (p : Promise A) : Exc A :=
  match p with
  | Fulfilled a => Returns a
  | Rejected e => Throws e
  end.

(** [Promise.all(ps)]: fulfilled with all the values, in the order of [ps],
    when every promise is fulfilled; rejected when one of them is (with the
    reason of the first such promise of [ps]). *)
Fixpoint Promise_all {A : Type} (ps : list (Promise A)) : Promise (list A) :=
  match ps with
  | [] => Fulfilled []
  | Fulfilled a :: rest =>
      match Promise_all rest with
      | Fulfilled vs => Fulfilled (a :: vs)
      | Rejected e => Rejected e
      end
  | Rejected e :: _ => Rejected e
  end.

(** ** Data model (types/index.ts) *)

Inductive TestStatus : Type := passed | failed | broken | skipped.

Definition TestStatus_eqb (a b : TestStatus) : bool :=
  match a, b with
  | passed, passed | failed, failed | broken, broken | skipped, skipped => true
  | _, _ => false
  end.

(** The fields of [AllureResult] that the dashboard reads. *)
Record AllureResult : Type := {
  res_uuid : string;
  res_name : string;
  res_fullName : string;
  res_status : TestStatus;
  res_start : Z;
  res_stop : Z;
  res_duration : Z
}.

Record AllureSummary : Type := {
  total : Z;
  passed_count : Z;
  failed_count : Z;
  broken_count : Z;
  skipped_count : Z;
  duration : Z;
  startTime : Z;
  endTime : Z
}.

Record JenkinsBuildConfig : Type := {
  name : string;
  buildUrl : string;
  jobName : string;
  buildNumber : Z;
  description : option string;
  environment : option string;
  tags : option (list string)
}.

Inductive ReportStatus : Type := success | error | loading.

(** [lastUpdated] is a [Date], held as its time value in milliseconds. *)
Record AllureReportData : Type := {
  buildConfig : JenkinsBuildConfig;
  summary : option AllureSummary;
  results : list AllureResult;
  reportUrl : string;
  lastUpdated : Z;
  status : ReportStatus;
  errorMessage : option string
}.

(** ** The Jenkins API service (services/jenkinsApi.ts) *)

(** The HTTP client.  [axiosInstance.get(path)] is typed [any]; the two call
    sites read [response.data] as [AllureSummary | null] and as
    [AllureResult[]] (possibly null), so the client is held as the two typed
    views.  [Throws] is a rejected request: time-out, status outside 2xx,
    network error. *)
Record AxiosInstance : Type := {
  get_summary_json : string -> Exc (option AllureSummary);
  get_testresult_json : string -> Exc (option (list AllureResult))
}.

Record JenkinsApiService : Type := {
  baseURL : string;
  axiosInstance : AxiosInstance
}.

(** What [parseBuildUrl] returns when it does not return null. *)
Record BuildInfo : Type := {
  bi_jobName : string;
  bi_buildNumber : Z
}.

(** The template literals of lines 268 and 288. *)
Definition summary_json_path (buildInfo : BuildInfo) : string :=
  "/job/" ++ encodeURIComponent (bi_jobName buildInfo) ++ "/"
    ++ Number_toString (bi_buildNumber buildInfo)
    ++ "/allure-results/api/rs/allure2/export/summary.json".

Definition testresult_json_path (buildInfo : BuildInfo) : string :=
  "/job/" ++ encodeURIComponent (bi_jobName buildInfo) ++ "/"
    ++ Number_toString (bi_buildNumber buildInfo)
    ++ "/allure-results/api/rs/allure2/export/testresult.json".

Section Service.

(** [new URL(s).pathname]: [None] when the constructor throws a TypeError,
    otherwise the path of the parsed URL. *)
Variable URL_pathname : string -> option string.

Definition new_URL_pathname (s : string) : Exc string :=
  match URL_pathname s with
  | Some p => Returns p
  | None => Throws (ErrorObject "Invalid URL")
  end.

(** lines 235-256 *)
Definition parseBuildUrl (buildUrl : string) : option BuildInfo :=
  try_catch
    (pathname <- new_URL_pathname buildUrl ;;
     let pathParts := filter Boolean (split "/" pathname) in
     Returns
       match indexOf "job" pathParts with
       | Some jobIndex =>
           if Nat.ltb (jobIndex + 2) (List.length pathParts) then
             let jobName := nth (jobIndex + 1) pathParts "" in
             match parseInt (nth (jobIndex + 2) pathParts "") with
             | Some buildNumber =>
                 Some {| bi_jobName := jobName; bi_buildNumber := buildNumber |}
             | None => None
             end
           else None
       | None => None
       end)
    (fun _ => None).

Variable this : JenkinsApiService.

(** lines 259-276 *)
Definition getAllureSummary (buildUrl : string) : Promise (option AllureSummary) :=
  Fulfilled
    (try_catch
       (buildInfo <-
          match parseBuildUrl buildUrl with
          | None => Throws (ErrorObject "Invalid build URL format")
          | Some bi => Returns bi
          end ;;
        get_summary_json (axiosInstance this) (summary_json_path buildInfo))
       (fun _ => None)).

(** lines 279-296; [response.data || []] *)
Definition getAllureResults (buildUrl : string) : Promise (list AllureResult) :=
  Fulfilled
    (try_catch
       (buildInfo <-
          match parseBuildUrl buildUrl with
          | None => Throws (ErrorObject "Invalid build URL format")
          | Some bi => Returns bi
          end ;;
        data <- get_testresult_json (axiosInstance this)
                  (testresult_json_path buildInfo) ;;
        Returns match data with Some rs => rs | None => [] end)
       (fun _ => [])).

(** lines 338-346 *)
Definition getAllureReportUrl (buildUrl : string) : string :=
  match parseBuildUrl buildUrl with
  | None => buildUrl
  | Some buildInfo =>
      baseURL this ++ "/job/" ++ encodeURIComponent (bi_jobName buildInfo)
        ++ "/" ++ Number_toString (bi_buildNumber buildInfo) ++ "/allure/"
  end.

(** [Promise.all([p, q])] on a pair of promises of different types. *)
Definition Promise_all2 {A B : Type} (p : Promise A) (q : Promise B)
  : Promise (A * B) :=
  match p, q with
  | Fulfilled a, Fulfilled b => Fulfilled (a, b)
  | Rejected e, _ => Rejected e
  | Fulfilled _, Rejected e => Rejected e
  end.

(** lines 299-329.  [now] is what [new Date()] reads when the record is
    built. *)
Definition getAllureReportData (now : Z) (config : JenkinsBuildConfig)
  : Promise AllureReportData :=
  Fulfilled
    (try_catch
       (sr <- await (Promise_all2 (getAllureSummary (buildUrl config))
                                  (getAllureResults (buildUrl config))) ;;
        let '(summary, results) := sr in
        let reportUrl := getAllureReportUrl (buildUrl config) in
        Returns {| buildConfig := config;
                   summary := summary;
                   results := results;
                   reportUrl := reportUrl;
                   lastUpdated := now;
                   status := success;
                   errorMessage := None |})
       (fun thrown =>
          {| buildConfig := config;
             summary := None;
             results := [];
             reportUrl := getAllureReportUrl (buildUrl config);
             lastUpdated := now;
             status := error;
             errorMessage :=
               Some match thrown with
                    | ErrorObject message => message
                    | NonError => "Unknown error"
                    end |})).

(** [xs.map((x, i) => f i x)], the index starting at [i]. *)
Fixpoint mapi {A B : Type} (f : nat -> A -> B) (i : nat) (xs : list A) : list B :=
  match xs with
  | [] => []
  | x :: rest => f i x :: mapi f (S i) rest
  end.

(** lines 332-335.  [clock i] is what [new Date()] reads in the fetch of
    the configuration at position [i]. *)
Definition getAllureReportsForBuilds (clock : nat -> Z)
    (buildConfigs : list JenkinsBuildConfig) : Promise (list AllureReportData) :=
  let promises := mapi (fun i config => getAllureReportData (clock i) config)
                       O buildConfigs in
  Promise_all promises.

End Service.

(** ** Arrays *)

(** [xs.sort(compareFn)].  The language fixes the result for a consistent
    comparator: the elements in ascending order of [compareFn], elements that
    compare equal keeping their relative order.  It is computed here by
    insertion from the right. *)
Fixpoint Array_insert {A : Type} (compareFn : A -> A -> Q) (x : A) (xs : list A)
  : list A :=
  match xs with
  | [] => [x]
  | y :: ys =>
      if Qle_bool (compareFn x y) 0%Q then x :: y :: ys
      else y :: Array_insert compareFn x ys
  end.

Fixpoint Array_sort {A : Type} (compareFn : A -> A -> Q) (xs : list A) : list A :=
  match xs with
  | [] => []
  | x :: rest => Array_insert compareFn x (Array_sort compareFn rest)
  end.

(** [a] may stand before [b] in the sorted array: [compareFn(a, b) <= 0]. *)
Definition comes_first {A : Type} (compareFn : A -> A -> Q) (a b : A) : Prop :=
  Qle_bool (compareFn a b) 0%Q = true.

(** [xs.slice(0, n)]. *)
Definition slice0 {A : Type} (n : nat) (xs : list A) : list A := firstn n xs.

(** [Math.round(x)]: the nearest integer, halves going up. *)
Definition Math_round (x : Q) : Z := Qfloor (x + (1 # 2))%Q.

(** ** Binary64 arithmetic *)

(** The integer nearest to [y], a tie going to the even one. *)
Definition round_half_even (y : Q) : Z :=
  let f := Qfloor y in
  match Qcompare (y - inject_Z f) (1 # 2) with
  | Lt => f
  | Gt => f + 1
  | Eq => if Z.even f then f else f + 1
  end.

(** The exponent of a positive rational [x]: the [k] with
    [2^k <= x < 2^(k+1)].  The difference of the two logarithms is [k] or
    [k + 1]. *)
Definition Qlog2 (x : Q) : Z :=
  let k := Z.log2 (Qnum x) - Z.log2 (Zpos (Qden x)) in
  if Qle_bool (2 ^ k) x then k else k - 1.

(** The binary64 number nearest to a positive [x], a tie going to the even
    significand: [x] is scaled so that it lies between [2^52] and [2^53],
    rounded to an integer and scaled back.  The result is in lowest
    terms. *)
Definition binary64_positive (x : Q) : Q :=
  let e := Qlog2 x - 52 in
  Qred (inject_Z (round_half_even (x / 2 ^ e)) * 2 ^ e).

(** What a JavaScript operation whose exact result is [x] returns: round to
    nearest, ties to even, with 53 significant bits.  The exponent is not
    bounded: results of magnitude [2^1024] and more (Infinity in the source)
    or below [2^-1022] (subnormal numbers) are outside the embedding; rates
    computed from counts below [2^53] are far from both. *)
Definition binary64 (x : Q) : Q :=
  match Qcompare x 0 with
  | Eq => 0%Q
  | Gt => binary64_positive x
  | Lt => (- binary64_positive (- x))%Q
  end.

(** One part in [2^53]: the unit round-off of binary64. *)
Definition unit_roundoff : Q := 1 # 9007199254740992.

(** ** Objects used as dictionaries *)

(** The own string-keyed properties of an object created by [{}], in the
    order in which they were created. *)
Definition JsObject (V : Type) : Type := list (string * V).

Fixpoint own_get {V : Type} (k : string) (o : JsObject V) : option V :=
  match o with
  | [] => None
  | (k', v) :: rest => if String.eqb k' k then Some v else own_get k rest
  end.

(** [o[k] = v] for an own property: an existing one keeps its place, a new
    one goes last. *)
Fixpoint own_set {V : Type} (k : string) (v : V) (o : JsObject V) : JsObject V :=
  match o with
  | [] => [(k, v)]
  | (k', v') :: rest =>
      if String.eqb k' k then (k', v) :: rest
      else (k', v') :: own_set k v rest
  end.

Fixpoint all_digits (s : string) : bool :=
  match s with
  | EmptyString => true
  | String c rest =>
      match digit_value 10 c with
      | Some _ => all_digits rest
      | None => false
      end
  end.

(** A property key is an array index when it is the canonical decimal form
    of an integer between 0 and 2^32 - 2. *)
Definition array_index (k : string) : option Z :=
  match k with
  | EmptyString => None
  | String c rest =>
      if all_digits k
         && (negb (Ascii.eqb c "0") || String.eqb rest EmptyString) then
        match parse_digits 10 None k with
        | Some n => if n <=? 4294967294 then Some n else None
        | None => None
        end
      else None
  end.

Definition is_array_index (k : string) : bool :=
  match array_index k with Some _ => true | None => false end.

Definition index_of_key (k : string) : Z :=
  match array_index k with Some n => n | None => 0 end.

(** [Object.entries(o)]: array-index keys first, in ascending numeric order,
    then the other keys in creation order. *)
Definition Object_entries {V : Type} (o : JsObject V) : list (string * V) :=
  Array_sort (fun a b => inject_Z (index_of_key (fst a) - index_of_key (fst b)))
             (filter (fun kv => is_array_index (fst kv)) o)
  ++ filter (fun kv => negb (is_array_index (fst kv))) o.

Definition Object_values {V : Type} (o : JsObject V) : list V :=
  map snd (Object_entries o).

(** The properties that every object inherits from [Object.prototype]. *)
Definition Object_prototype_builtins : list string :=
  [ "constructor"; "__defineGetter__"; "__defineSetter__"; "hasOwnProperty";
    "__lookupGetter__"; "__lookupSetter__"; "isPrototypeOf";
    "propertyIsEnumerable"; "toString"; "valueOf"; "__proto__";
    "toLocaleString" ].

(** The part of the global state that the reads of the derivers can reach:
    the properties that assignments through [acc["__proto__"]] have added to
    [Object.prototype].  [totalRuns] and [failures] can only hold NaN there;
    [lastFailure] holds a date.  Assignments that land on an inherited
    function or on a date add properties to that object; no read of the
    derivers reaches them and [Realm] does not hold them:
    [assignment_target] tells which object a step writes to. *)
Record Realm : Type := {
  proto_totalRuns : bool;
  proto_failures : bool;
  proto_lastFailure : option Z
}.

(** The state of a freshly loaded page. *)
Definition pristine : Realm :=
  {| proto_totalRuns := false; proto_failures := false;
     proto_lastFailure := None |}.

(** The keys under which a read on an object literal can find something
    truthy that the object does not own. *)
Definition shadowable (k : string) : bool :=
  existsb (String.eqb k) Object_prototype_builtins || String.eqb k "lastFailure".

(** What the read [o[k]] yields on a dictionary object [o]. *)
Inductive PropertyValue (V : Type) : Type :=
  | Own (v : V)
  | TheObjectPrototype
  | BuiltinFunction
  | InheritedDate (d : Z)
  | InheritedNaN
  | Undefined.
Arguments Own {V} v.
Arguments TheObjectPrototype {V}.
Arguments BuiltinFunction {V}.
Arguments InheritedDate {V} d.
Arguments InheritedNaN {V}.
Arguments Undefined {V}.

(** What an object literal that does not own [k] finds under [k] on its
    prototype chain. *)
Definition inherited {V : Type} (realm : Realm) (k : string) : PropertyValue V :=
  if String.eqb k "__proto__" then TheObjectPrototype
  else if existsb (String.eqb k) Object_prototype_builtins then BuiltinFunction
  else if String.eqb k "lastFailure" then
    match proto_lastFailure realm with
    | Some d => InheritedDate d
    | None => Undefined
    end
  else if String.eqb k "totalRuns" && proto_totalRuns realm then InheritedNaN
  else if String.eqb k "failures" && proto_failures realm then InheritedNaN
  else Undefined.

Definition js_get {V : Type} (realm : Realm) (o : JsObject V) (k : string)
  : PropertyValue V :=
  match own_get k o with
  | Some v => Own v
  | None => inherited realm k
  end.

(** The read [o[k]] is truthy although [o] does not own [k]. *)
Definition shadowed (realm : Realm) (k : string) : bool :=
  match @inherited unit realm k with
  | TheObjectPrototype | BuiltinFunction | InheritedDate _ => true
  | Own _ | InheritedNaN | Undefined => false
  end.

(** ** The derived views (types/index.ts) *)

Record HistoricalTrend : Type := {
  date : string;
  totalTests : Z;
  passedTests : Z;
  failedTests : Z;
  successRate : Q
}.

Record FlakyTest : Type := {
  testName : string;
  flaky_jobName : string;
  failureRate : Q;
  totalRuns : Z;
  lastFailure : Z
}.

Record EnvironmentMatrix : Type := {
  env_environment : string;
  env_totalTests : Z;
  env_passedTests : Z;
  env_failedTests : Z;
  env_successRate : Q
}.

(** ** The metrics derivers (components/Analysis.tsx) *)

(** The accumulator [{ total: 0, passed: 0, failed: 0 }]. *)
Record Aggregated : Type := {
  agg_total : Z;
  agg_passed : Z;
  agg_failed : Z
}.

(** lines 130-140 and 219-229: the inner [reports.reduce]. *)
Definition aggregate (reports : list AllureReportData) : Aggregated :=
  fold_left
    (fun acc report =>
       match summary report with
       | Some s =>
           {| agg_total := agg_total acc + total s;
              agg_passed := agg_passed acc + passed_count s;
              agg_failed := agg_failed acc + failed_count s |}
       | None => acc
       end)
    reports
    {| agg_total := 0; agg_passed := 0; agg_failed := 0 |}.

(** lines 142-144 and 151 (also 231-233 and 240):
    [Math.round(successRate * 100) / 100] with
    [successRate = total > 0 ? (passed / total) * 100 : 0], in the arithmetic
    of the source: the division, the two multiplications and the final
    division are each rounded to binary64; [Math.round] is exact.  The counts
    are integers that binary64 holds exactly (below 2^53). *)
Definition roundedSuccessRate (aggregatedResults : Aggregated) : Q :=
  let successRate : Q :=
    if agg_total aggregatedResults >? 0
    then binary64
           (binary64 (inject_Z (agg_passed aggregatedResults)
                        / inject_Z (agg_total aggregatedResults)) * 100)%Q
    else 0%Q in
  binary64 (inject_Z (Math_round (binary64 (successRate * 100)%Q)) / 100)%Q.

(** The same lines evaluated on the primitive binary64 numbers of Rocq, as a
    check of [binary64].  [Number_of_Z] is exact below 2^53.
    [Math_round_binary64] is exact: a finite binary64 is [m * 2^e], and the
    nearest integer, halves going up, is the floor of
    [(2 * m * 2^e + 1) / 2].  [None] stands for a result that is not
    finite. *)
Definition Number_of_Z (n : Z) : PrimFloat.float :=
  if n <? 0 then PrimFloat.opp (PrimFloat.of_uint63 (Uint63.of_Z (- n)))
  else PrimFloat.of_uint63 (Uint63.of_Z n).

Definition Math_round_binary64 (x : PrimFloat.float) : option Z :=
  match FloatOps.Prim2SF x with
  | SpecFloat.S754_zero _ => Some 0
  | SpecFloat.S754_finite s m e =>
      let sm := if s then Z.neg m else Z.pos m in
      Some (if 0 <=? e then sm * 2 ^ e
            else (2 * sm + 2 ^ (- e)) / 2 ^ (- e + 1))
  | SpecFloat.S754_infinity _ | SpecFloat.S754_nan => None
  end.

Definition roundedSuccessRate_binary64 (aggregatedResults : Aggregated)
  : option PrimFloat.float :=
  let successRate :=
    if agg_total aggregatedResults >? 0
    then PrimFloat.mul
           (PrimFloat.div (Number_of_Z (agg_passed aggregatedResults))
                          (Number_of_Z (agg_total aggregatedResults)))
           (Number_of_Z 100)
    else Number_of_Z 0 in
  option_map (fun n => PrimFloat.div (Number_of_Z n) (Number_of_Z 100))
             (Math_round_binary64 (PrimFloat.mul successRate (Number_of_Z 100))).

(** The rational number that a finite primitive binary64 number is. *)
Definition Q_of_binary64 (x : PrimFloat.float) : option Q :=
  match FloatOps.Prim2SF x with
  | SpecFloat.S754_zero _ => Some 0%Q
  | SpecFloat.S754_finite s m e =>
      Some (Qred (inject_Z (if s then Z.neg m else Z.pos m) * 2 ^ e))
  | SpecFloat.S754_infinity _ | SpecFloat.S754_nan => None
  end.

(** The two evaluations give the same rate for every day with [total]
    tests of which at most all passed. *)
Definition rates_agree_on (total : nat) : bool :=
  forallb
    (fun passed =>
       let aggregatedResults :=
         {| agg_total := Z.of_nat total; agg_passed := Z.of_nat passed;
            agg_failed := Z.of_nat (total - passed) |} in
       match option_map Q_of_binary64
               (roundedSuccessRate_binary64 aggregatedResults) with
       | Some (Some q) => Qeq_bool q (roundedSuccessRate aggregatedResults)
       | _ => false
       end)
    (seq 0 (S total)).

(** The same for every day with at most [n] tests. *)
Definition rates_agree_upto (n : nat) : bool :=
  forallb rates_agree_on (seq 0 (S n)).

(** The element type of [testResults] (lines 160-167). *)
Record TestRun : Type := {
  run_testName : string;
  run_jobName : string;
  run_status : TestStatus;
  run_timestamp : Z
}.

(** The values of [testStats] (lines 172-178). *)
Record TestStat : Type := {
  stat_testName : string;
  stat_jobName : string;
  stat_totalRuns : Z;
  stat_failures : Z;
  stat_lastFailure : option Z
}.

Definition is_failure (s : TestStatus) : bool :=
  TestStatus_eqb s failed || TestStatus_eqb s broken.

(** lines 181-187 on an entry of [testStats]. *)
Definition count_run (test : TestRun) (st : TestStat) : TestStat :=
  let st1 :=
    {| stat_testName := stat_testName st;
       stat_jobName := stat_jobName st;
       stat_totalRuns := stat_totalRuns st + 1;
       stat_failures := stat_failures st;
       stat_lastFailure := stat_lastFailure st |} in
  if is_failure (run_status test) then
    {| stat_testName := stat_testName st1;
       stat_jobName := stat_jobName st1;
       stat_totalRuns := stat_totalRuns st1;
       stat_failures := stat_failures st1 + 1;
       stat_lastFailure :=
         match stat_lastFailure st1 with
         | None => Some (run_timestamp test)
         | Some d =>
             if run_timestamp test >? d then Some (run_timestamp test)
             else Some d
         end |}
  else st1.

(** lines 181-187 when [acc[test.testName]] is [Object.prototype] itself:
    the three assignments land on [Object.prototype]. *)
Definition count_run_on_prototype (test : TestRun) (realm : Realm) : Realm :=
  if is_failure (run_status test) then
    {| proto_totalRuns := true;
       proto_failures := true;
       proto_lastFailure :=
         match proto_lastFailure realm with
         | None => Some (run_timestamp test)
         | Some d =>
             if run_timestamp test >? d then Some (run_timestamp test)
             else Some d
         end |}
  else
    {| proto_totalRuns := true;
       proto_failures := proto_failures realm;
       proto_lastFailure := proto_lastFailure realm |}.

(** lines 170-190: one step of the reduce that builds [testStats], on the
    dictionary and on [Object.prototype].  When the read
    [acc[test.testName]] finds an inherited function or date, the
    assignments land on that object ([assignment_target]); the dictionary
    and [Object.prototype] are left as they are. *)
Definition testStats_step (st : JsObject TestStat * Realm) (test : TestRun)
  : JsObject TestStat * Realm :=
  let '(acc, realm) := st in
  let fresh :=
    {| stat_testName := run_testName test;
       stat_jobName := run_jobName test;
       stat_totalRuns := 0;
       stat_failures := 0;
       stat_lastFailure := None |} in
  match js_get realm acc (run_testName test) with
  | Own entry => (own_set (run_testName test) (count_run test entry) acc, realm)
  | Undefined | InheritedNaN =>
      (own_set (run_testName test) (count_run test fresh) acc, realm)
  | TheObjectPrototype => (acc, count_run_on_prototype test realm)
  | BuiltinFunction | InheritedDate _ => (acc, realm)
  end.

(** lines 160-167 *)
Definition testResults (allureReports : list AllureReportData) : list TestRun :=
  flat_map
    (fun report =>
       map (fun result =>
              {| run_testName := res_name result;
                 run_jobName := jobName (buildConfig report);
                 run_status := res_status result;
                 run_timestamp := lastUpdated report |})
           (results report))
    allureReports.

(** lines 194-200 *)
Definition toFlakyTest (now : Z) (test : TestStat) : FlakyTest :=
  {| testName := stat_testName test;
     flaky_jobName := stat_jobName test;
     failureRate :=
       ((inject_Z (stat_failures test) / inject_Z (stat_totalRuns test)) * 100)%Q;
     totalRuns := stat_totalRuns test;
     lastFailure :=
       match stat_lastFailure test with
       | Some d => d
       | None => now
       end |}.

(** lines 170-190: [testStats], with the state of [Object.prototype] that
    building it leaves behind. *)
Definition testStats (realm : Realm) (allureReports : list AllureReportData)
  : JsObject TestStat * Realm :=
  fold_left testStats_step (testResults allureReports) ([], realm).

(** lines 192-200: [Object.values(testStats).filter(...).map(...)]. *)
Definition flaky_candidates (now : Z) (stats : JsObject TestStat) : list FlakyTest :=
  map (toFlakyTest now)
      (filter (fun test => stat_failures test >? 0) (Object_values stats)).

(** line 201: [.sort((a, b) => b.failureRate - a.failureRate)]. *)
Definition flaky_ranked (candidates : list FlakyTest) : list FlakyTest :=
  Array_sort (fun a b => (failureRate b - failureRate a)%Q) candidates.

(** lines 157-203.  [realm] is the state of [Object.prototype] when the
    function is entered and [now] what [new Date()] would read; the result
    comes with the state of [Object.prototype] that the call leaves
    behind. *)
Definition generateFlakyTestsData (realm : Realm) (now : Z)
    (allureReports : list AllureReportData) : list FlakyTest * Realm :=
  if Nat.eqb (List.length allureReports) 0 then ([], realm)
  else
    let '(stats, realm') := testStats realm allureReports in
    (slice0 10 (flaky_ranked (flaky_candidates now stats)), realm').

Section Derivers.

(** date-fns [format(d, 'yyyy-MM-dd')] in the time zone of the browser. *)
Variable format_yyyy_MM_dd : Z -> string.

(** [a.localeCompare(b)] in the locale of the browser. *)
Variable localeCompare : string -> string -> Z.

(** [if (!acc[k]) { acc[k] = []; } acc[k].push(report);] (lines 119-122 and
    211-214).  An inherited function, date or [Object.prototype] is truthy
    and has no [push]: the call throws a TypeError. *)
Definition push_under (realm : Realm) (acc : JsObject (list AllureReportData))
    (k : string) (report : AllureReportData)
  : Exc (JsObject (list AllureReportData)) :=
  match js_get realm acc k with
  | Own reports => Returns (own_set k (reports ++ [report])%list acc)
  | Undefined | InheritedNaN => Returns (own_set k [report] acc)
  | TheObjectPrototype | BuiltinFunction | InheritedDate _ =>
      Throws (ErrorObject "acc[k].push is not a function")
  end.

(** [xs.reduce(step, init)] with a step that may throw. *)
Fixpoint reduce {A B : Type} (step : B -> A -> Exc B) (xs : list A) (init : B)
  : Exc B :=
  match xs with
  | [] => Returns init
  | x :: rest => acc <- step init x ;; reduce step rest acc
  end.

(** lines 116-125: the callback of the reduce that builds [reportsByDate]. *)
Definition reportsByDate_step (realm : Realm)
    (acc : JsObject (list AllureReportData)) (report : AllureReportData)
  : Exc (JsObject (list AllureReportData)) :=
  match summary report with
  | Some _ => push_under realm acc (format_yyyy_MM_dd (lastUpdated report)) report
  | None => Returns acc
  end.

(** lines 129-153: the callback of the map over the sorted entries. *)
Definition trend_point (entry : string * list AllureReportData) : HistoricalTrend :=
  let '(date, reports) := entry in
  let aggregatedResults := aggregate reports in
  {| date := date;
     totalTests := agg_total aggregatedResults;
     passedTests := agg_passed aggregatedResults;
     failedTests := agg_failed aggregatedResults;
     successRate := roundedSuccessRate aggregatedResults |}.

(** lines 113-154 *)
Definition generateHistoricalTrendData (realm : Realm)
    (allureReports : list AllureReportData) : Exc (list HistoricalTrend) :=
  if Nat.eqb (List.length allureReports) 0 then Returns []
  else
    reportsByDate <- reduce (reportsByDate_step realm) allureReports [] ;;
    Returns
      (map trend_point
         (Array_sort (fun a b => inject_Z (localeCompare (fst a) (fst b)))
            (Object_entries reportsByDate))).

(** [report.buildConfig.environment || 'default'] *)
Definition environment_or_default (report : AllureReportData) : string :=
  match environment (buildConfig report) with
  | Some env => if Boolean env then env else "default"
  | None => "default"
  end.

(** lines 206-243 *)
Definition generateEnvironmentMatrixData (realm : Realm)
    (allureReports : list AllureReportData) : Exc (list EnvironmentMatrix) :=
  if Nat.eqb (List.length allureReports) 0 then Returns []
  else
    reportsByEnvironment <-
      reduce
        (fun acc report =>
           push_under realm acc (environment_or_default report) report)
        allureReports [] ;;
    Returns
      (map
         (fun '(environment, reports) =>
            let aggregatedResults := aggregate reports in
            {| env_environment := environment;
               env_totalTests := agg_total aggregatedResults;
               env_passedTests := agg_passed aggregatedResults;
               env_failedTests := agg_failed aggregatedResults;
               env_successRate := roundedSuccessRate aggregatedResults |})
         (Object_entries reportsByEnvironment)).

(** The three derivers, as the component calls them on every render
    (lines 245-247). *)
Inductive Deriver : Type := Trend | Flakiness | EnvironmentRollup.

Inductive DerivedView : Type :=
  | TrendView (points : Exc (list HistoricalTrend))
  | FlakinessView (entries : list FlakyTest)
  | EnvironmentView (rows : Exc (list EnvironmentMatrix)).

Definition run_deriver (d : Deriver) (realm : Realm) (now : Z)
    (allureReports : list AllureReportData) : DerivedView * Realm :=
  match d with
  | Trend => (TrendView (generateHistoricalTrendData realm allureReports), realm)
  | Flakiness =>
      let '(entries, realm') := generateFlakyTestsData realm now allureReports in
      (FlakinessView entries, realm')
  | EnvironmentRollup =>
      (EnvironmentView (generateEnvironmentMatrixData realm allureReports), realm)
  end.

End Derivers.

(** ** Reference instances of the platform *)

(** [new URL(s).pathname] on absolute URLs [scheme://authority/path?query#fragment]
    with a non-empty authority and a path that the URL parser leaves as it is
    (no dot segments, no characters that it would escape).  Every other
    string is refused; the instance is used on such URLs only. *)
Definition is_scheme_char (c : ascii) : bool :=
  let n := nat_of_ascii c in
  (Nat.leb 65 n && Nat.leb n 90) || (Nat.leb 97 n && Nat.leb n 122)
  || (Nat.leb 48 n && Nat.leb n 57) || existsb (Nat.eqb n) [43; 45; 46]%nat.

Fixpoint after_scheme (s : string) : option string :=
  match s with
  | String ":" (String "/" (String "/" rest)) => Some rest
  | String c rest => if is_scheme_char c then after_scheme rest else None
  | EmptyString => None
  end.

Fixpoint drop_until (stop : ascii -> bool) (s : string) : string :=
  match s with
  | String c rest => if stop c then s else drop_until stop rest
  | EmptyString => EmptyString
  end.

Fixpoint take_until (stop : ascii -> bool) (s : string) : string :=
  match s with
  | String c rest => if stop c then EmptyString else String c (take_until stop rest)
  | EmptyString => EmptyString
  end.

Definition ends_authority (c : ascii) : bool :=
  Ascii.eqb c "/" || Ascii.eqb c "?" || Ascii.eqb c "#".

Definition ends_path (c : ascii) : bool :=
  Ascii.eqb c "?" || Ascii.eqb c "#".

Definition simple_URL_pathname (s : string) : option string :=
  match s with
  | String c _ =>
      if is_scheme_char c then
        match after_scheme s with
        | Some rest =>
            if Boolean (take_until ends_authority rest) then
              Some match take_until ends_path (drop_until ends_authority rest) with
                   | EmptyString => "/"
                   | p => p
                   end
            else None
        | None => None
        end
      else None
  | EmptyString => None
  end.

(** The proleptic Gregorian calendar day of a number of days since
    1970-01-01, as (year, month, day). *)
Definition civil_from_days (days : Z) : Z * Z * Z :=
  let z := days + 719468 in
  let era := z / 146097 in
  let doe := z - era * 146097 in
  let yoe := (doe - doe / 1460 + doe / 36524 - doe / 146096) / 365 in
  let doy := doe - (365 * yoe + yoe / 4 - yoe / 100) in
  let mp := (5 * doy + 2) / 153 in
  let d := doy - (153 * mp + 2) / 5 + 1 in
  let m := if mp <? 10 then mp + 3 else mp - 9 in
  let y := yoe + era * 400 + (if m <=? 2 then 1 else 0) in
  (y, m, d).

Definition pad2 (n : Z) : string :=
  if (0 <=? n) && (n <? 10) then "0" ++ Number_toString n else Number_toString n.

Definition pad4 (n : Z) : string :=
  if (0 <=? n) && (n <? 10) then "000" ++ Number_toString n
  else if (0 <=? n) && (n <? 100) then "00" ++ Number_toString n
  else if (0 <=? n) && (n <? 1000) then "0" ++ Number_toString n
  else Number_toString n.

(** [format(d, 'yyyy-MM-dd')] for a browser whose time zone is UTC. *)
Definition utc_yyyy_MM_dd (millis : Z) : string :=
  let '(y, m, d) := civil_from_days (millis / 86400000) in
  pad4 y ++ "-" ++ pad2 m ++ "-" ++ pad2 d.

(** [a.localeCompare(b)] for a collation that orders strings by their
    bytes. *)
Definition bytewise_localeCompare (a b : string) : Z :=
  match String.compare a b with
  | Lt => -1
  | Eq => 0
  | Gt => 1
  end.

(** An HTTP client none of whose requests succeeds, and one that serves a
    summary but times out on the detailed results. *)
Definition offline_axios : AxiosInstance :=
  {| get_summary_json := fun _ => Throws (ErrorObject "Network Error");
     get_testresult_json := fun _ => Throws (ErrorObject "Network Error") |}.

Definition ui_tests_summary : AllureSummary :=
  {| total := 10; passed_count := 8; failed_count := 2; broken_count := 0;
     skipped_count := 0; duration := 0; startTime := 0; endTime := 0 |}.

Definition summary_only_axios : AxiosInstance :=
  {| get_summary_json := fun _ => Returns (Some ui_tests_summary);
     get_testresult_json :=
       fun _ => Throws (ErrorObject "timeout of 30000ms exceeded") |}.

Definition offline_service : JenkinsApiService :=
  {| baseURL := "http://jenkins"; axiosInstance := offline_axios |}.

Definition summary_only_service : JenkinsApiService :=
  {| baseURL := "http://jenkins"; axiosInstance := summary_only_axios |}.

Definition config_of_url (url : string) : JenkinsBuildConfig :=
  {| name := "nightly"; buildUrl := url; jobName := "ui-tests";
     buildNumber := 42; description := None; environment := None;
     tags := None |}.

(** ** Vocabulary of the statements *)

(** The runs of the test named [k] among [tests], and the failing ones. *)
Definition runs_of (k : string) (tests : list TestRun) : list TestRun :=
  filter (fun t => String.eqb (run_testName t) k) tests.

Definition failing (tests : list TestRun) : list TestRun :=
  filter (fun t => is_failure (run_status t)) tests.

Definition count {A : Type} (xs : list A) : Z := Z.of_nat (List.length xs).

(** The entry [st] of [testStats] sums up the runs [rs] of the test [k]. *)
Definition describes (k : string) (rs : list TestRun) (st : TestStat) : Prop :=
  stat_testName st = k
  /\ stat_totalRuns st = count rs
  /\ stat_failures st = count (failing rs)
  /\ option_map run_jobName (hd_error rs) = Some (stat_jobName st)
  /\ (stat_lastFailure st = None <-> failing rs = []).

(** What holds of [testStats] after the runs [tests] have been counted. *)
Definition stats_invariant (tests : list TestRun) (acc : JsObject TestStat)
    (realm : Realm) : Prop :=
  NoDup (map fst acc)
  /\ (forall k st, own_get k acc = Some st -> describes k (runs_of k tests) st)
  /\ (forall k, own_get k acc = None ->
                runs_of k tests = [] \/ shadowed realm k = true).

(** The job of the first record, in input order, that holds an outcome of
    the test named [k]. *)
Definition first_job_with (k : string) (allureReports : list AllureReportData)
  : option string :=
  option_map (fun report => jobName (buildConfig report))
    (find (fun report =>
             existsb (fun result => String.eqb (res_name result) k) (results report))
          allureReports).

(** The records with a summary whose day is [d], in input order, and the sum
    of a count over the summaries of some records. *)
Definition has_summary (report : AllureReportData) : bool :=
  match summary report with Some _ => true | None => false end.

Definition summarised_on (format_yyyy_MM_dd : Z -> string) (d : string)
    (allureReports : list AllureReportData) : list AllureReportData :=
  filter (fun report =>
            has_summary report
            && String.eqb (format_yyyy_MM_dd (lastUpdated report)) d)
         allureReports.

Definition sum_summaries (f : AllureSummary -> Z)
    (allureReports : list AllureReportData) : Z :=
  fold_right Z.add 0
    (map (fun report => match summary report with Some s => f s | None => 0 end)
         allureReports).

(** What holds of [reportsByDate] after the records [seen] have been
    grouped. *)
Definition groups_invariant (format_yyyy_MM_dd : Z -> string)
    (seen : list AllureReportData) (acc : JsObject (list AllureReportData)) : Prop :=
  NoDup (map fst acc)
  /\ forall k,
       own_get k acc
       = match summarised_on format_yyyy_MM_dd k seen with
         | [] => None
         | group => Some group
         end.




(** The character [c] occurs in [s]. *)
Fixpoint contains_char (c : ascii) (s : string) : bool :=
  match s with
  | EmptyString => false
  | String c' rest => Ascii.eqb c' c || contains_char c rest
  end.

(** ** Example inputs *)

Definition example_result (n : string) (s : TestStatus) : AllureResult :=
  {| res_uuid := ""; res_name := n; res_fullName := n; res_status := s;
     res_start := 0; res_stop := 0; res_duration := 0 |}.

Definition example_summary (t p f : Z) : AllureSummary :=
  {| total := t; passed_count := p; failed_count := f; broken_count := 0;
     skipped_count := 0; duration := 0; startTime := 0; endTime := 0 |}.

Definition example_report (job : string) (fetched : Z)
    (s : option AllureSummary) (rs : list AllureResult) : AllureReportData :=
  {| buildConfig :=
       {| name := job; buildUrl := "http://jenkins/job/" ++ job ++ "/1/";
          jobName := job; buildNumber := 1; description := None;
          environment := None; tags := None |};
     summary := s; results := rs;
     reportUrl := "http://jenkins/job/" ++ job ++ "/1/allure/";
     lastUpdated := fetched; status := success; errorMessage := None |}.

(** Test [A]: 3 runs, 1 failed.  Test [B]: 5 runs, 3 failed (one of them
    broken).  Test [C]: 2 runs, none failed.  The runs are spread over two
    jobs. *)
Definition abc_reports : list AllureReportData :=
  [ example_report "ui-tests" 1000 None
      [ example_result "A" passed; example_result "B" failed;
        example_result "C" passed; example_result "A" failed;
        example_result "B" broken ];
    example_report "api-tests" 2000 None
      [ example_result "A" passed; example_result "B" failed;
        example_result "C" passed; example_result "B" passed;
        example_result "B" passed ] ].




(** Two records fetched on 1970-01-02 with 3 + 4 tests of which 2 + 3 passed,
    one record fetched the day before, and one without a summary. *)
Definition rounding_reports : list AllureReportData :=
  [ example_report "ui-tests" 86400000 (Some (example_summary 3 2 1)) [];
    example_report "api-tests" 1000 (Some (example_summary 4 3 1)) [];
    example_report "e2e-tests" 86400001 (Some (example_summary 4 3 1)) [];
    example_report "perf-tests" 200000000 None [] ].

(** One record of a day with 160 tests of which 23 passed: 14.375 per cent. *)
Definition half_hundredth_reports : list AllureReportData :=
  [ example_report "ui-tests" 1000 (Some (example_summary 160 23 137)) [] ].

(** A test named [lastFailure] that fails, followed by a test named
    [__proto__] that fails. *)
Definition pollution_reports : list AllureReportData :=
  [ example_report "ui-tests" 1000 None
      [ example_result "lastFailure" failed; example_result "__proto__" failed ] ].

(** ** The wording of the specification, for comparison *)




(** "The URL's path must contain the literal segment job followed by at
    least two more segments; the segment immediately after job is jobName;
    the segment after that must parse as a non-negative integer
    buildNumber." *)
Definition spec_resolves (URL_pathname : string -> option string)
    (s : string) (j : string) (n : Z) : Prop :=
  exists pathname before third rest,
    URL_pathname s = Some pathname
    /\ filter Boolean (split "/" pathname)
       = (before ++ "job" :: j :: third :: rest)%list
    /\ parseInt third = Some n
    /\ 0 <= n.

(** "successRatePercent (passed/total x 100, rounded to 2 decimals; defined
    as 0 when total=0)": the nearest whole number of hundredths, a half
    going up, in exact arithmetic. *)
Definition spec_successRatePercent (passed total : Z) : Q :=
  if total =? 0 then 0%Q
  else (inject_Z (Math_round (inject_Z passed / inject_Z total * 100 * 100))
        / 100)%Q.

(** "{base}/job/{job}/{n}/allure/" *)
Definition spec_reportUrl (base : string) (buildInfo : BuildInfo) : string :=
  base ++ "/job/" ++ bi_jobName buildInfo ++ "/"
    ++ Number_toString (bi_buildNumber buildInfo) ++ "/allure/".

(** A read has failed when the request it issues is rejected. *)
Definition read_failed {A : Type} (r : Exc A) : Prop := exists e, r = Throws e.

Definition read_succeeded {A : Type} (r : Exc A) : Prop := exists a, r = Returns a.

(** * Further code of the repository *)

(** ** The other methods of the service (services/jenkinsApi.ts) *)

Section ServiceLinks.

Variable URL_pathname : string -> option string.
Variable this : JenkinsApiService.

(** lines 349-357 *)
Definition getBuildConsoleUrl (buildUrl : string) : string :=
  match parseBuildUrl URL_pathname buildUrl with
  | None => buildUrl
  | Some buildInfo =>
      baseURL this ++ "/job/" ++ encodeURIComponent (bi_jobName buildInfo)
        ++ "/" ++ Number_toString (bi_buildNumber buildInfo) ++ "/console"
  end.

(** lines 360-368 *)
Definition getBuildWorkspaceUrl (buildUrl : string) : string :=
  match parseBuildUrl URL_pathname buildUrl with
  | None => buildUrl
  | Some buildInfo =>
      baseURL this ++ "/job/" ++ encodeURIComponent (bi_jobName buildInfo)
        ++ "/" ++ Number_toString (bi_buildNumber buildInfo) ++ "/ws/"
  end.

(** What [this.axiosInstance.get('/api/json?tree=jobs[name]')] does: the
    probe request is rejected or answered. *)
Variable get_api_json : AxiosInstance -> Exc unit.

(** lines 371-379 *)
Definition testAuthentication : Promise bool :=
  Fulfilled
    (try_catch
       (_ <- get_api_json (axiosInstance this) ;; Returns true)
       (fun _ => false)).

(** The values of [response.data] of the metadata request, which the source
    types [any]; [json_null] is [null]. *)
Variable Json : Type.
Variable json_null : Json.

(** What [this.axiosInstance.get(path)] does on a metadata path. *)
Variable get_build_json : AxiosInstance -> string -> Exc Json.

(** The template literal of line 391. *)
Definition build_info_path (buildInfo : BuildInfo) : string :=
  "/job/" ++ encodeURIComponent (bi_jobName buildInfo) ++ "/"
    ++ Number_toString (bi_buildNumber buildInfo)
    ++ "/api/json?tree=number,url,timestamp,duration,result,building,description,displayName,fullDisplayName,id,builtOn,changeSet,culprits,actions,artifacts,gitBranch,gitCommit,gitRepo".

(** lines 382-399 *)
Definition getBuildInfo (buildUrl : string) : Promise Json :=
  Fulfilled
    (try_catch
       (buildInfo <-
          match parseBuildUrl URL_pathname buildUrl with
          | None => Throws (ErrorObject "Invalid build URL format")
          | Some bi => Returns bi
          end ;;
        get_build_json (axiosInstance this) (build_info_path buildInfo))
       (fun _ => json_null)).

End ServiceLinks.

(** ** The process-wide service instance (lines 402-463) *)

Record AuthenticationConfig : Type := {
  jsessionId : string;
  jenkinsBaseUrl : string
}.

(** [jenkinsServiceInstance]: null until [initialize] has been called. *)
Definition ServiceInstance : Type := option JenkinsApiService.

Section ServiceSingleton.

Variable URL_pathname : string -> option string.

(** [axios.create({ baseURL, timeout, headers })] for a configuration: the
    client that talks to that server with that session cookie. *)
Variable axios_create : AuthenticationConfig -> AxiosInstance.

Variable get_api_json : AxiosInstance -> Exc unit.

Variable Json : Type.
Variable json_null : Json.
Variable get_build_json : AxiosInstance -> string -> Exc Json.

(** lines 199-213: the constructor. *)
Definition new_JenkinsApiService (config : AuthenticationConfig) : JenkinsApiService :=
  {| baseURL := jenkinsBaseUrl config; axiosInstance := axios_create config |}.

(** lines 228-232: the method [updateAuth] sets the same fields again. *)
Definition JenkinsApiService_updateAuth (config : AuthenticationConfig)
    (this : JenkinsApiService) : JenkinsApiService :=
  {| baseURL := jenkinsBaseUrl config; axiosInstance := axios_create config |}.

(** lines 407-410 *)
Definition initialize (config : AuthenticationConfig) (instance : ServiceInstance)
  : JenkinsApiService * ServiceInstance :=
  (new_JenkinsApiService config, Some (new_JenkinsApiService config)).

(** lines 413-418 *)
Definition getInstance (instance : ServiceInstance) : Exc JenkinsApiService :=
  match instance with
  | Some service => Returns service
  | None =>
      Throws (ErrorObject "Jenkins service not initialized. Call initialize() first.")
  end.

(** lines 421-425 *)
Definition jenkinsService_updateAuth (config : AuthenticationConfig)
    (instance : ServiceInstance) : ServiceInstance :=
  match instance with
  | Some service => Some (JenkinsApiService_updateAuth config service)
  | None => None
  end.

(** An [async] method whose body starts with [this.getInstance()]: a throw
    of [getInstance] rejects the promise. *)
Definition delegate_async {A : Type} (instance : ServiceInstance)
    (method : JenkinsApiService -> Promise A) : Promise A :=
  match getInstance instance with
  | Returns service => method service
  | Throws e => Rejected e
  end.

(** lines 428-434 *)
Definition jenkinsService_getAllureSummary (instance : ServiceInstance)
    (buildUrl : string) : Promise (option AllureSummary) :=
  delegate_async instance
    (fun service => getAllureSummary URL_pathname service buildUrl).

Definition jenkinsService_getAllureResults (instance : ServiceInstance)
    (buildUrl : string) : Promise (list AllureResult) :=
  delegate_async instance
    (fun service => getAllureResults URL_pathname service buildUrl).

(** lines 436-442 *)
Definition jenkinsService_getAllureReportData (instance : ServiceInstance)
    (now : Z) (buildConfig : JenkinsBuildConfig) : Promise AllureReportData :=
  delegate_async instance
    (fun service => getAllureReportData URL_pathname service now buildConfig).

Definition jenkinsService_getAllureReportsForBuilds (instance : ServiceInstance)
    (clock : nat -> Z) (buildConfigs : list JenkinsBuildConfig)
  : Promise (list AllureReportData) :=
  delegate_async instance
    (fun service => getAllureReportsForBuilds URL_pathname service clock buildConfigs).

(** lines 444-446 *)
Definition jenkinsService_testAuthentication (instance : ServiceInstance)
  : Promise bool :=
  delegate_async instance (fun service => testAuthentication service get_api_json).

(** lines 448-450 *)
Definition jenkinsService_getBuildInfo (instance : ServiceInstance)
    (buildUrl : string) : Promise Json :=
  delegate_async instance
    (fun service =>
       getBuildInfo URL_pathname service Json json_null get_build_json buildUrl).

(** lines 452-462: the three link builders are not [async]; a throw of
    [getInstance] reaches the caller. *)
Definition jenkinsService_getAllureReportUrl (instance : ServiceInstance)
    (buildUrl : string) : Exc string :=
  service <- getInstance instance ;;
  Returns (getAllureReportUrl URL_pathname service buildUrl).

Definition jenkinsService_getBuildConsoleUrl (instance : ServiceInstance)
    (buildUrl : string) : Exc string :=
  service <- getInstance instance ;;
  Returns (getBuildConsoleUrl URL_pathname service buildUrl).

Definition jenkinsService_getBuildWorkspaceUrl (instance : ServiceInstance)
    (buildUrl : string) : Exc string :=
  service <- getInstance instance ;;
  Returns (getBuildWorkspaceUrl URL_pathname service buildUrl).

(** ** The connection test of the configuration page
       (components/Configuration.tsx, lines 85-116) *)

Inductive TestResult : Type := test_success | test_error.

(** The state variables [testResult], [testMessage] and [isTesting]. *)
Record ConnectionTest : Type := {
  testResult : option TestResult;
  testMessage : string;
  isTesting : bool
}.

(** [shown] is the state when the handler is called; the result is the
    state once its promise has settled, with the service instance it
    leaves. *)
Definition handleTestConnection (authConfig : AuthenticationConfig)
    (shown : ConnectionTest) (instance : ServiceInstance)
  : ConnectionTest * ServiceInstance :=
  if negb (Boolean (jsessionId authConfig)) || negb (Boolean (jenkinsBaseUrl authConfig))
  then
    ({| testResult := Some test_error;
        testMessage := "Please provide both JSESSION ID and Jenkins base URL";
        isTesting := isTesting shown |},
     instance)
  else
    let instance' := snd (initialize authConfig instance) in
    (try_catch
       (isAuthenticated <- await (jenkinsService_testAuthentication instance') ;;
        Returns
          (if isAuthenticated : bool then
             {| testResult := Some test_success;
                testMessage :=
                  "Authentication successful! You can now add build configurations.";
                isTesting := false |}
           else
             {| testResult := Some test_error;
                testMessage :=
                  "Authentication failed. Please check your JSESSION ID and Jenkins URL.";
                isTesting := false |}))
       (fun thrown =>
          {| testResult := Some test_error;
             testMessage :=
               "Connection error: "
               ++ match thrown with
                  | ErrorObject message => message
                  | NonError => "Unknown error"
                  end;
             isTesting := false |}),
     instance').

End ServiceSingleton.

(** ** The build configurations of the configuration page
       (components/Configuration.tsx, lines 118-215) *)

(** [Partial<JenkinsBuildConfig>]: the content of the dialog. *)
Record PartialBuildConfig : Type := {
  partial_name : option string;
  partial_buildUrl : option string;
  partial_jobName : option string;
  partial_buildNumber : option Z;
  partial_description : option string;
  partial_environment : option string;
  partial_tags : option (list string)
}.

(** [{}] *)
Definition empty_partial : PartialBuildConfig :=
  {| partial_name := None; partial_buildUrl := None; partial_jobName := None;
     partial_buildNumber := None; partial_description := None;
     partial_environment := None; partial_tags := None |}.

(** A complete configuration seen as a partial one. *)
Definition partial_of (config : JenkinsBuildConfig) : PartialBuildConfig :=
  {| partial_name := Some (name config);
     partial_buildUrl := Some (buildUrl config);
     partial_jobName := Some (jobName config);
     partial_buildNumber := Some (buildNumber config);
     partial_description := description config;
     partial_environment := environment config;
     partial_tags := tags config |}.

(** The state of the component that the handlers read and write. *)
Record ConfigurationState : Type := {
  buildConfigs : list JenkinsBuildConfig;
  newBuildConfig : PartialBuildConfig;
  isAddDialogOpen : bool;
  editingIndex : option nat
}.

(** [s || fallback] on an optional string. *)
Definition string_or (s : option string) (fallback : string) : string :=
  match s with
  | Some v => if Boolean v then v else fallback
  | None => fallback
  end.

(** The three messages that the handlers pass to [alert]. *)
Definition alert_no_build_number : string :=
  "Invalid build URL format. Could not extract build number.".

Definition alert_no_pattern : string :=
  "Invalid build URL format. Expected pattern: /job/{jobName}/{buildNumber}/".

Definition alert_no_url : string :=
  "Invalid URL format. Please provide a valid Jenkins build URL.".

Section ConfigurationHandlers.

Variable URL_pathname : string -> option string.

(** lines 124-155 and 169-204: the body of the [try] block, common to both
    handlers.  It yields the configuration to store, or the message to
    raise. *)
Definition config_from_dialog (dialog : PartialBuildConfig) (dialog_name : string)
    (dialog_buildUrl : string) : JenkinsBuildConfig + string :=
  try_catch
    (pathname <- new_URL_pathname URL_pathname dialog_buildUrl ;;
     let pathParts := filter Boolean (split "/" pathname) in
     Returns
       match indexOf "job" pathParts with
       | Some jobIndex =>
           if Nat.ltb (jobIndex + 2) (List.length pathParts) then
             let jobName := nth (jobIndex + 1) pathParts "" in
             match parseInt (nth (jobIndex + 2) pathParts "") with
             | Some buildNumber =>
                 inl {| name := dialog_name;
                        buildUrl := dialog_buildUrl;
                        jobName := jobName;
                        buildNumber := buildNumber;
                        description := Some (string_or (partial_description dialog) "");
                        environment :=
                          Some (string_or (partial_environment dialog) "default");
                        tags := Some match partial_tags dialog with
                                     | Some ts => ts
                                     | None => []
                                     end |}
             | None => inr alert_no_build_number
             end
           else inr alert_no_pattern
       | None => inr alert_no_pattern
       end)
    (fun _ => inr alert_no_url).

(** [newBuildConfig.name] and [newBuildConfig.buildUrl] when both are
    truthy. *)
Definition dialog_name_and_url (dialog : PartialBuildConfig)
  : option (string * string) :=
  match partial_name dialog, partial_buildUrl dialog with
  | Some n, Some u => if Boolean n && Boolean u then Some (n, u) else None
  | _, _ => None
  end.

(** lines 118-156.  The result is the new state and the alerts raised. *)
Definition handleAddBuildConfig (st : ConfigurationState)
  : ConfigurationState * list string :=
  match dialog_name_and_url (newBuildConfig st) with
  | None => (st, [])
  | Some (n, u) =>
      match config_from_dialog (newBuildConfig st) n u with
      | inl config =>
          ({| buildConfigs := (buildConfigs st ++ [config])%list;
              newBuildConfig := empty_partial;
              isAddDialogOpen := false;
              editingIndex := editingIndex st |}, [])
      | inr message => (st, [message])
      end
  end.

(** lines 158-162.  [None] when [index] is outside the list: the dialog
    content becomes [undefined] and rendering the dialog throws. *)
Definition handleEditBuildConfig (index : nat) (st : ConfigurationState)
  : option ConfigurationState :=
  match nth_error (buildConfigs st) index with
  | Some config =>
      Some {| buildConfigs := buildConfigs st;
              newBuildConfig := partial_of config;
              isAddDialogOpen := true;
              editingIndex := Some index |}
  | None => None
  end.

(** [prev.map((config, i) => i === index ? updated : config)] *)
Definition replace_at (index : nat) (updated : JenkinsBuildConfig)
    (prev : list JenkinsBuildConfig) : list JenkinsBuildConfig :=
  mapi (fun i config => if Nat.eqb i index then updated else config) O prev.

(** lines 164-205 *)
Definition handleUpdateBuildConfig (st : ConfigurationState)
  : ConfigurationState * list string :=
  match editingIndex st, dialog_name_and_url (newBuildConfig st) with
  | Some index, Some (n, u) =>
      match config_from_dialog (newBuildConfig st) n u with
      | inl updatedConfig =>
          ({| buildConfigs := replace_at index updatedConfig (buildConfigs st);
              newBuildConfig := empty_partial;
              isAddDialogOpen := false;
              editingIndex := None |}, [])
      | inr message => (st, [message])
      end
  | _, _ => (st, [])
  end.

(** [prev.filter((_, i) => i !== index)] *)
Fixpoint remove_at {A : Type} (index : nat) (prev : list A) : list A :=
  match prev with
  | [] => []
  | x :: rest =>
      match index with
      | O => rest
      | S index' => x :: remove_at index' rest
      end
  end.

(** lines 207-209 *)
Definition handleDeleteBuildConfig (index : nat) (st : ConfigurationState)
  : ConfigurationState :=
  {| buildConfigs := remove_at index (buildConfigs st);
     newBuildConfig := newBuildConfig st;
     isAddDialogOpen := isAddDialogOpen st;
     editingIndex := editingIndex st |}.

(** lines 211-215 *)
Definition handleCancel (st : ConfigurationState) : ConfigurationState :=
  {| buildConfigs := buildConfigs st;
     newBuildConfig := empty_partial;
     isAddDialogOpen := false;
     editingIndex := None |}.

End ConfigurationHandlers.

(** ** The report filter of the dashboard
       (components/Dashboard.tsx, lines 79-105; components/FilterPanel.tsx,
       lines 31-43) *)

(** The fields of [DashboardFilters] that the filter panel sets. *)
Record DashboardFilters : Type := {
  filter_jobName : option string;
  filter_status : option string;
  filter_environment : option string;
  filter_tag : option string
}.

(** [{}] *)
Definition no_filters : DashboardFilters :=
  {| filter_jobName := None; filter_status := None;
     filter_environment := None; filter_tag := None |}.

Inductive FilterField : Type :=
  | field_jobName | field_status | field_environment | field_tag.

(** FilterPanel, lines 31-35: [{ ...localFilters, [field]: value }]. *)
Definition handleFilterChange (field : FilterField) (value : string)
    (localFilters : DashboardFilters) : DashboardFilters :=
  match field with
  | field_jobName =>
      {| filter_jobName := Some value;
         filter_status := filter_status localFilters;
         filter_environment := filter_environment localFilters;
         filter_tag := filter_tag localFilters |}
  | field_status =>
      {| filter_jobName := filter_jobName localFilters;
         filter_status := Some value;
         filter_environment := filter_environment localFilters;
         filter_tag := filter_tag localFilters |}
  | field_environment =>
      {| filter_jobName := filter_jobName localFilters;
         filter_status := filter_status localFilters;
         filter_environment := Some value;
         filter_tag := filter_tag localFilters |}
  | field_tag =>
      {| filter_jobName := filter_jobName localFilters;
         filter_status := filter_status localFilters;
         filter_environment := filter_environment localFilters;
         filter_tag := Some value |}
  end.

(** FilterPanel, lines 37-41 *)
Definition handleClearFilters (localFilters : DashboardFilters) : DashboardFilters :=
  no_filters.

(** [value !== undefined && value !== ''] *)
Definition is_set (value : option string) : bool :=
  match value with
  | Some v => Boolean v
  | None => false
  end.

(** FilterPanel, line 43 *)
Definition hasActiveFilters (filters : DashboardFilters) : bool :=
  existsb is_set
    [ filter_jobName filters; filter_status filters;
      filter_environment filters; filter_tag filters ].

(** The string that a [status] is. *)
Definition status_string (s : ReportStatus) : string :=
  match s with
  | success => "success"
  | error => "error"
  | loading => "loading"
  end.

(** [s.includes(sub)]: [sub] occurs in [s]. *)
Fixpoint includes (s sub : string) : bool :=
  String.prefix sub s
  || match s with
     | EmptyString => false
     | String _ rest => includes rest sub
     end.

Section DashboardFilter.

(** [String.prototype.toLowerCase] *)
Variable toLowerCase : string -> string.

(** Dashboard, lines 80-89: the callback of the filter. *)
Definition passes_filters (filters : DashboardFilters) (report : AllureReportData)
  : bool :=
  if match filter_jobName filters with
     | Some f =>
         Boolean f
         && negb (includes (toLowerCase (jobName (buildConfig report)))
                           (toLowerCase f))
     | None => false
     end
  then false
  else if match filter_status filters with
          | Some f => Boolean f && negb (String.eqb (status_string (status report)) f)
          | None => false
          end
  then false
  else if match filter_environment filters with
          | Some f =>
              Boolean f
              && negb match environment (buildConfig report) with
                      | Some env => String.eqb env f
                      | None => false
                      end
          | None => false
          end
  then false
  else true.

(** Dashboard, lines 79-90 *)
Definition filteredReports (filters : DashboardFilters)
    (allureReports : list AllureReportData) : list AllureReportData :=
  filter (passes_filters filters) allureReports.

End DashboardFilter.

(** Dashboard, line 105 *)
Definition errorReports (allureReports : list AllureReportData)
  : list AllureReportData :=
  filter (fun report => String.eqb (status_string (status report)) "error")
         allureReports.

(** ** The recent builds and the claims of the links page
       (components/LinksHub.tsx, lines 98-147) *)

Record RecentBuild : Type := {
  recent_buildConfig : JenkinsBuildConfig;
  recent_reportData : AllureReportData;
  recent_lastUpdated : Z;
  recent_status : ReportStatus
}.

(** lines 139-147 *)
Definition recentBuilds (allureReports : list AllureReportData) : list RecentBuild :=
  slice0 20
    (Array_sort
       (fun a b => inject_Z (recent_lastUpdated b - recent_lastUpdated a))
       (map (fun report =>
               {| recent_buildConfig := buildConfig report;
                  recent_reportData := report;
                  recent_lastUpdated := lastUpdated report;
                  recent_status := status report |})
            allureReports)).

Record ClaimedBuild : Type := {
  claim_buildNumber : Z;
  claim_jobName : string;
  claim_claimedBy : string;
  claim_claimedAt : Z;
  claim_notes : option string
}.

(** The state that the claim handler reads and writes. *)
Record ClaimState : Type := {
  claimedBuilds : list ClaimedBuild;
  claimDialogOpen : bool;
  claimedBy : string;
  claimNotes : string
}.

(** What the handler shows through [toast]. *)
Inductive Toast : Type :=
  | toast_error (message : string)
  | toast_success (message : string).

(** lines 119-121: [claimedBuilds.find(...)], [None] for [undefined]. *)
Definition isBuildClaimed (claims : list ClaimedBuild) (job : string) (number : Z)
  : option ClaimedBuild :=
  find (fun claim =>
          String.eqb (claim_jobName claim) job && (claim_buildNumber claim =? number))
       claims.

Section Claims.

(** [String.prototype.trim] *)
Variable trim : string -> string.

(** lines 98-117.  [now] is what [new Date()] reads. *)
Definition handleClaimBuild (now : Z) (job : string) (number : Z) (st : ClaimState)
  : ClaimState * list Toast :=
  if negb (Boolean (trim (claimedBy st))) then
    (st, [toast_error "Please enter your name"])
  else
    let newClaim :=
      {| claim_buildNumber := number;
         claim_jobName := job;
         claim_claimedBy := trim (claimedBy st);
         claim_claimedAt := now;
         claim_notes :=
           if Boolean (trim (claimNotes st)) then Some (trim (claimNotes st))
           else None |} in
    ({| claimedBuilds := (claimedBuilds st ++ [newClaim])%list;
        claimDialogOpen := false;
        claimedBy := "";
        claimNotes := "" |},
     [toast_success
        ("Build #" ++ Number_toString number ++ " claimed by " ++ claimedBy st)]).

End Claims.

(** lines 123-127 *)
Definition getMavenCommand (buildConfig : JenkinsBuildConfig) : string :=
  "mvn clean test -Dtest=" ++ jobName buildConfig
    ++ " -Dspring.profiles.active=test".

(** ** The date cards of the dashboard
       (components/Dashboard.tsx, lines 93-103 and 314-346) *)

(** The accumulator of lines 326-338. *)
Record CardCounts : Type := {
  card_total : Z;
  card_passed : Z;
  card_failed : Z;
  card_broken : Z;
  card_skipped : Z
}.

(** lines 326-338 *)
Definition card_counts (dateReports : list AllureReportData) : CardCounts :=
  fold_left
    (fun acc report =>
       match summary report with
       | Some s =>
           {| card_total := card_total acc + total s;
              card_passed := card_passed acc + passed_count s;
              card_failed := card_failed acc + failed_count s;
              card_broken := card_broken acc + broken_count s;
              card_skipped := card_skipped acc + skipped_count s |}
       | None => acc
       end)
    dateReports
    {| card_total := 0; card_passed := 0; card_failed := 0; card_broken := 0;
       card_skipped := 0 |}.

(** lines 340-345: the slices of the pie chart. *)
Definition chartData (aggregatedResults : CardCounts) : list (string * Z) :=
  filter (fun item => snd item >? 0)
    [ ("Passed", card_passed aggregatedResults);
      ("Failed", card_failed aggregatedResults);
      ("Broken", card_broken aggregatedResults);
      ("Skipped", card_skipped aggregatedResults) ].

(** What one card shows: its date, its builds and its slices. *)
Record DateCard : Type := {
  card_date : string;
  card_reports : list AllureReportData;
  card_chartData : list (string * Z)
}.

Section DashboardCards.

Variable format_yyyy_MM_dd : Z -> string.
Variable localeCompare : string -> string -> Z.
Variable toLowerCase : string -> string.

(** lines 93-103 and 322-345: the groups of the filtered reports, sorted by
    [b.localeCompare(a)], one card each. *)
Definition date_cards (realm : Realm) (filters : DashboardFilters)
    (allureReports : list AllureReportData) : Exc (list DateCard) :=
  reportsByDate <-
    reduce (reportsByDate_step format_yyyy_MM_dd realm)
           (filteredReports toLowerCase filters allureReports) [] ;;
  Returns
    (map (fun entry : string * list AllureReportData =>
            {| card_date := fst entry;
               card_reports := snd entry;
               card_chartData := chartData (card_counts (snd entry)) |})
         (Array_sort (fun a b => inject_Z (localeCompare (fst b) (fst a)))
            (Object_entries reportsByDate))).

End DashboardCards.

(** ** Vocabulary of the further statements *)




(** [latest] is the time of the latest failing run among [rs]; [None] when
    no run of [rs] fails. *)
Definition latest_failure_is (rs : list TestRun) (latest : option Z) : Prop :=
  match latest with
  | None => failing rs = []
  | Some d =>
      (exists t, In t (failing rs) /\ run_timestamp t = d)
      /\ forall t, In t (failing rs) -> run_timestamp t <= d
  end.

(** The entries of [testStats] hold the time of the latest failing run. *)
Definition latest_invariant (tests : list TestRun) (acc : JsObject TestStat) : Prop :=
  forall k st,
    own_get k acc = Some st ->
    latest_failure_is (runs_of k tests) (stat_lastFailure st).

(** The counts of a summary are consistent: nothing is negative and the
    tests that passed are among the total. *)
Definition sane_summary (s : AllureSummary) : Prop :=
  0 <= passed_count s /\ passed_count s <= total s.

(** The value of a decimal number read digit by digit, most significant
    digit first, starting from [acc]. *)
Fixpoint decimal_value (d : Decimal.uint) (acc : Z) : Z :=
  match d with
  | Decimal.Nil => acc
  | Decimal.D0 l => decimal_value l (acc * 10 + 0)
  | Decimal.D1 l => decimal_value l (acc * 10 + 1)
  | Decimal.D2 l => decimal_value l (acc * 10 + 2)
  | Decimal.D3 l => decimal_value l (acc * 10 + 3)
  | Decimal.D4 l => decimal_value l (acc * 10 + 4)
  | Decimal.D5 l => decimal_value l (acc * 10 + 5)
  | Decimal.D6 l => decimal_value l (acc * 10 + 6)
  | Decimal.D7 l => decimal_value l (acc * 10 + 7)
  | Decimal.D8 l => decimal_value l (acc * 10 + 8)
  | Decimal.D9 l => decimal_value l (acc * 10 + 9)
  end.

(** An HTTP client that serves the summary and two test results. *)
Definition full_axios : AxiosInstance :=
  {| get_summary_json := fun _ => Returns (Some ui_tests_summary);
     get_testresult_json :=
       fun _ => Returns (Some [ example_result "login" passed;
                                example_result "logout" failed ]) |}.

Definition full_service : JenkinsApiService :=
  {| baseURL := "http://jenkins"; axiosInstance := full_axios |}.


(** The record [report] with the environment of its configuration
    replaced. *)
Definition in_env (env : option string) (report : AllureReportData)
  : AllureReportData :=
  {| buildConfig :=
       {| name := name (buildConfig report);
          buildUrl := buildUrl (buildConfig report);
          jobName := jobName (buildConfig report);
          buildNumber := buildNumber (buildConfig report);
          description := description (buildConfig report);
          environment := env;
          tags := tags (buildConfig report) |};
     summary := summary report;
     results := results report;
     reportUrl := reportUrl report;
     lastUpdated := lastUpdated report;
     status := status report;
     errorMessage := errorMessage report |}.


(** A record whose environment is called [constructor]. *)
Definition constructor_reports : list AllureReportData :=
  [ example_report "api-tests" 2000 (Some (example_summary 4 3 1)) [];
    in_env (Some "constructor")
      (example_report "ui-tests" 1000 (Some (example_summary 3 2 1)) []) ].

(** A configuration as the dialog of the configuration page stores it: name
    and URL are not empty, the cached job and build number are what the
    service resolves from the URL, and the optional fields are filled. *)
Definition stored_by_dialog (URL_pathname : string -> option string)
    (config : JenkinsBuildConfig) : Prop :=
  Boolean (name config) = true
  /\ Boolean (buildUrl config) = true
  /\ parseBuildUrl URL_pathname (buildUrl config)
     = Some {| bi_jobName := jobName config; bi_buildNumber := buildNumber config |}
  /\ (exists d, description config = Some d)
  /\ (exists e, environment config = Some e /\ Boolean e = true)
  /\ (exists ts, tags config = Some ts).

(** The dialog filled with a name and a URL only, over an empty list. *)
Definition dialog_state (n u : string) : ConfigurationState :=
  {| buildConfigs := [];
     newBuildConfig :=
       {| partial_name := Some n; partial_buildUrl := Some u;
          partial_jobName := None; partial_buildNumber := None;
          partial_description := None; partial_environment := None;
          partial_tags := None |};
     isAddDialogOpen := true;
     editingIndex := None |}.

(** The configuration that the dialog stores for
    [http://jenkins/job/ui-tests/42/] under the name [nightly]. *)
Definition nightly_config : JenkinsBuildConfig :=
  {| name := "nightly"; buildUrl := "http://jenkins/job/ui-tests/42/";
     jobName := "ui-tests"; buildNumber := 42; description := Some "";
     environment := Some "default"; tags := Some [] |}.

(** ** The object that a counting step writes to
       (components/Analysis.tsx, lines 171-187) *)

(** The object that [acc[test.testName]] denotes after lines 171-179, on
    which lines 181-187 assign [totalRuns], [failures] and [lastFailure]. *)
Inductive AssignmentTarget : Type :=
  | OwnEntry
      (* an entry of [testStats] *)
  | ObjectPrototype
      (* [Object.prototype] itself, read through [__proto__] *)
  | InheritedFunction (k : string)
      (* the built-in function [Object.prototype[k]] *)
  | InheritedDateObject (d : Z).
      (* the date that [Object.prototype.lastFailure] holds *)

Definition assignment_target (st : JsObject TestStat * Realm) (test : TestRun)
  : AssignmentTarget :=
  match js_get (snd st) (fst st) (run_testName test) with
  | Own _ | Undefined | InheritedNaN => OwnEntry
  | TheObjectPrototype => ObjectPrototype
  | BuiltinFunction => InheritedFunction (run_testName test)
  | InheritedDate d => InheritedDateObject d
  end.

(** The targets of the steps of the reduce over [tests], in order, from the
    state [st]. *)
Fixpoint assignment_targets (tests : list TestRun)
    (st : JsObject TestStat * Realm) : list AssignmentTarget :=
  match tests with
  | [] => []
  | test :: rest =>
      assignment_target st test :: assignment_targets rest (testStats_step st test)
  end.

(** A test named [constructor] that fails. *)
Definition constructor_test_reports : list AllureReportData :=
  [ example_report "ui-tests" 1000 None
      [ example_result "login" passed; example_result "constructor" failed ] ].
(** * Properties of the service *)

Section ServiceProperties.

Variable URL_pathname : string -> option string.
Variable this : JenkinsApiService.

Lemma getAllureSummary_resolved url bi :
  parseBuildUrl URL_pathname url = Some bi ->
  getAllureSummary URL_pathname this url
  = Fulfilled match get_summary_json (axiosInstance this) (summary_json_path bi) with
              | Returns data => data
              | Throws _ => None
              end.
Proof.
  intros Hp. unfold getAllureSummary. rewrite Hp. simpl.
  now destruct (get_summary_json _ _).
Qed.

Lemma getAllureSummary_unresolved url :
  parseBuildUrl URL_pathname url = None ->
  getAllureSummary URL_pathname this url = Fulfilled None.
Proof. intros Hp. unfold getAllureSummary. now rewrite Hp. Qed.

Lemma getAllureResults_resolved url bi :
  parseBuildUrl URL_pathname url = Some bi ->
  getAllureResults URL_pathname this url
  = Fulfilled
      match get_testresult_json (axiosInstance this) (testresult_json_path bi) with
      | Returns (Some rs) => rs
      | Returns None => []
      | Throws _ => []
      end.
Proof.
  intros Hp. unfold getAllureResults. rewrite Hp. simpl.
  now destruct (get_testresult_json _ _) as [[rs|]|].
Qed.

Lemma getAllureResults_unresolved url :
  parseBuildUrl URL_pathname url = None ->
  getAllureResults URL_pathname this url = Fulfilled [].
Proof. intros Hp. unfold getAllureResults. now rewrite Hp. Qed.

(** Neither read can reject, so the [catch] branch of [getAllureReportData]
    is never taken: whatever the two requests do, the record that comes back
    is the one of the [try] branch. *)
Lemma getAllureReportData_try_branch now config :
  exists s rs,
    getAllureSummary URL_pathname this (buildUrl config) = Fulfilled s
    /\ getAllureResults URL_pathname this (buildUrl config) = Fulfilled rs
    /\ getAllureReportData URL_pathname this now config
       = Fulfilled {| buildConfig := config;
                      summary := s;
                      results := rs;
                      reportUrl := getAllureReportUrl URL_pathname this (buildUrl config);
                      lastUpdated := now;
                      status := success;
                      errorMessage := None |}.
Proof.
  unfold getAllureReportData, getAllureSummary, getAllureResults.
  eexists; eexists; repeat split; reflexivity.
Qed.

Lemma getAllureReportData_fulfilled now config :
  exists r,
    getAllureReportData URL_pathname this now config = Fulfilled r
    /\ status r = success /\ errorMessage r = None /\ buildConfig r = config
    /\ lastUpdated r = now.
Proof.
  destruct (getAllureReportData_try_branch now config) as (s & rs & _ & _ & E).
  eexists. split; [exact E|]. simpl. auto.
Qed.

(** C1, as the code has it.  For a build configuration whose URL resolves
    the record is never marked [error]: whatever the two reads do, its status
    is [success] and it carries no error message.  The summary is absent when
    the summary read failed and the outcomes are empty when the detail read
    failed; a read that succeeded contributes what it returned.  When both
    reads fail, what comes back is the record without summary and without
    outcomes, marked [success]. *)
Theorem getAllureReportData_both_reads_fail :
  forall now config bi,
    parseBuildUrl URL_pathname (buildUrl config) = Some bi ->
    let summaryRead :=
      get_summary_json (axiosInstance this) (summary_json_path bi) in
    let detailRead :=
      get_testresult_json (axiosInstance this) (testresult_json_path bi) in
    exists r,
      getAllureReportData URL_pathname this now config = Fulfilled r
      /\ status r = success
      /\ errorMessage r = None
      /\ (read_failed summaryRead -> summary r = None)
      /\ (read_failed detailRead -> results r = [])
      /\ (forall data, summaryRead = Returns data -> summary r = data)
      /\ (forall rs, detailRead = Returns (Some rs) -> results r = rs)
      /\ (read_failed summaryRead -> read_failed detailRead ->
          r = {| buildConfig := config;
                 summary := None;
                 results := [];
                 reportUrl := getAllureReportUrl URL_pathname this (buildUrl config);
                 lastUpdated := now;
                 status := success;
                 errorMessage := None |}).
Proof.
  intros now config bi Hp summaryRead detailRead.
  destruct (getAllureReportData_try_branch now config) as (s & rs & Hs & Hr & E).
  rewrite (getAllureSummary_resolved _ _ Hp) in Hs.
  rewrite (getAllureResults_resolved _ _ Hp) in Hr.
  injection Hs as Hs. injection Hr as Hr.
  eexists. split; [exact E|]. cbn [status errorMessage summary results].
  fold summaryRead in Hs. fold detailRead in Hr.
  split; [reflexivity|]. split; [reflexivity|].
  split; [|split; [|split; [|split]]].
  - intros [e He]. rewrite He in Hs. now subst s.
  - intros [e He]. rewrite He in Hr. now subst rs.
  - intros data Hd. rewrite Hd in Hs. now subst s.
  - intros rs' Hd. rewrite Hd in Hr. now subst rs.
  - intros [e He] [e' He']. rewrite He in Hs. rewrite He' in Hr. now subst s rs.
Qed.

(** The report URL of lines 338-346 for a resolved and for an unresolved
    build URL. *)
Lemma getAllureReportUrl_resolved url bi :
  parseBuildUrl URL_pathname url = Some bi ->
  getAllureReportUrl URL_pathname this url
  = baseURL this ++ "/job/" ++ encodeURIComponent (bi_jobName bi) ++ "/"
      ++ Number_toString (bi_buildNumber bi) ++ "/allure/".
Proof. intros Hp. unfold getAllureReportUrl. now rewrite Hp. Qed.

Lemma getAllureReportUrl_unresolved url :
  parseBuildUrl URL_pathname url = None ->
  getAllureReportUrl URL_pathname this url = url.
Proof. intros Hp. unfold getAllureReportUrl. now rewrite Hp. Qed.

(** What the fetcher returns for a build URL that does not resolve: a record
    marked [success], with no error message. *)
Lemma getAllureReportData_unresolved now config :
  parseBuildUrl URL_pathname (buildUrl config) = None ->
  getAllureReportData URL_pathname this now config
  = Fulfilled {| buildConfig := config; summary := None; results := [];
                 reportUrl := buildUrl config; lastUpdated := now;
                 status := success; errorMessage := None |}.
Proof.
  intros Hp.
  destruct (getAllureReportData_try_branch now config) as (s & rs & Hs & Hr & E).
  rewrite (getAllureSummary_unresolved _ Hp) in Hs.
  rewrite (getAllureResults_unresolved _ Hp) in Hr.
  injection Hs as <-. injection Hr as <-.
  rewrite (getAllureReportUrl_unresolved _ Hp) in E. exact E.
Qed.

(** The report URL of the record is
    [{base}/job/{encodeURIComponent(job)}/{n}/allure/], built from the
    resolved job name, the resolved build number and the base URL alone: it
    is there, and the same, whatever the two reads do.  When the build URL
    does not resolve, the report URL is the build URL itself. *)
Lemma getAllureReportData_reportUrl_formula now config :
  exists r,
    getAllureReportData URL_pathname this now config = Fulfilled r
    /\ reportUrl r
       = match parseBuildUrl URL_pathname (buildUrl config) with
         | Some bi =>
             baseURL this ++ "/job/" ++ encodeURIComponent (bi_jobName bi)
               ++ "/" ++ Number_toString (bi_buildNumber bi) ++ "/allure/"
         | None => buildUrl config
         end.
Proof.
  destruct (getAllureReportData_try_branch now config) as (s & rs & _ & _ & E).
  eexists. split; [exact E|]. simpl.
  unfold getAllureReportUrl.
  now destruct (parseBuildUrl URL_pathname (buildUrl config)).
Qed.

Lemma string_length_app (a b : string) :
  String.length (a ++ b) = (String.length a + String.length b)%nat.
Proof. induction a as [|c a IH]; simpl; [reflexivity | now rewrite IH]. Qed.

(** Encoding never shortens a name, and a name with a per cent sign gets
    longer: the sign itself is escaped. *)
Lemma encodeURIComponent_length s :
  (String.length s <= String.length (encodeURIComponent s))%nat
  /\ (contains_char "%" s = true ->
      (String.length s < String.length (encodeURIComponent s))%nat).
Proof.
  induction s as [|c s [IH1 IH2]]; simpl; [split; [lia | discriminate]|].
  destruct (uri_unreserved c) eqn:Hc; simpl.
  - split; [lia|]. intros H. apply orb_true_iff in H. destruct H as [H|H].
    + apply Ascii.eqb_eq in H. subst c. discriminate Hc.
    + specialize (IH2 H). lia.
  - split; lia.
Qed.

(** C9, as the code has it.  The job name that the resolver returns is the
    path segment as the URL holds it, escapes included, and the report URL
    encodes it once more: for every build URL whose job segment holds a per
    cent sign the report URL of the record is not
    [{base}/job/{job}/{n}/allure/] with the resolved name but has every per
    cent sign of the name escaped again, whatever the two reads do.  The
    build number is a safe integer, which [String] writes with all its
    digits. *)
Theorem getAllureReportData_reportUrl_encoded_twice :
  forall now config bi,
    parseBuildUrl URL_pathname (buildUrl config) = Some bi ->
    contains_char "%" (bi_jobName bi) = true ->
    Z.abs (bi_buildNumber bi) < 2 ^ 53 ->
    exists r,
      getAllureReportData URL_pathname this now config = Fulfilled r
      /\ reportUrl r
         = baseURL this ++ "/job/" ++ encodeURIComponent (bi_jobName bi)
             ++ "/" ++ Number_toString (bi_buildNumber bi) ++ "/allure/"
      /\ (String.length (bi_jobName bi)
          < String.length (encodeURIComponent (bi_jobName bi)))%nat
      /\ reportUrl r <> spec_reportUrl (baseURL this) bi.
Proof.
  intros now config bi Hp Hpercent _.
  destruct (getAllureReportData_reportUrl_formula now config) as (r & Hr & Hurl).
  rewrite Hp in Hurl.
  pose proof (proj2 (encodeURIComponent_length (bi_jobName bi)) Hpercent) as Hlen.
  exists r. split; [exact Hr|]. split; [exact Hurl|]. split; [exact Hlen|].
  rewrite Hurl. unfold spec_reportUrl. intros E.
  apply (f_equal String.length) in E.
  rewrite !string_length_app in E. lia.
Qed.

Lemma Promise_all_of_fulfilled {A : Type} (ps : list (Promise A)) :
  (forall p, In p ps -> exists v, p = Fulfilled v) ->
  exists vs, Promise_all ps = Fulfilled vs /\ ps = map Fulfilled vs.
Proof.
  induction ps as [|p ps IH]; intros H.
  - now exists [].
  - destruct (H p (or_introl eq_refl)) as [v ->].
    destruct IH as (vs & E & ->); [intros q Hq; apply H; now right|].
    exists (v :: vs). simpl. now rewrite E.
Qed.

Lemma nth_error_mapi {A B : Type} (f : nat -> A -> B) xs :
  forall i k,
    nth_error (mapi f k xs) i = option_map (f (k + i)%nat) (nth_error xs i).
Proof.
  induction xs as [|x xs IH]; intros i k.
  - now destruct i.
  - destruct i as [|i]; simpl.
    + now rewrite Nat.add_0_r.
    + rewrite IH. now rewrite Nat.add_succ_r.
Qed.

Lemma length_mapi {A B : Type} (f : nat -> A -> B) xs :
  forall k, List.length (mapi f k xs) = List.length xs.
Proof.
  induction xs as [|x xs IH]; intros k; simpl; [|rewrite IH]; reflexivity.
Qed.

Lemma In_mapi {A B : Type} (f : nat -> A -> B) xs :
  forall k y, In y (mapi f k xs) -> exists i x, y = f i x.
Proof.
  induction xs as [|x xs IH]; intros k y; simpl; [tauto|].
  intros [<- | H]; [now exists k, x | eauto].
Qed.

(** C3.  For a sequence of N build configurations the batch is fulfilled
    with exactly N records; the record at position [i] is the one that the
    fetch of the configuration at position [i] is fulfilled with, and it
    refers to that configuration.  This holds for every behaviour of the
    HTTP client: no failed read of one build keeps the records of the others
    from being returned. *)
Theorem getAllureReportsForBuilds_one_record_per_config :
  forall clock configs,
    exists records,
      getAllureReportsForBuilds URL_pathname this clock configs = Fulfilled records
      /\ List.length records = List.length configs
      /\ forall i config,
           nth_error configs i = Some config ->
           exists r,
             nth_error records i = Some r
             /\ getAllureReportData URL_pathname this (clock i) config = Fulfilled r
             /\ buildConfig r = config.
Proof.
  intros clock configs. unfold getAllureReportsForBuilds.
  set (ps := mapi _ O configs).
  destruct (Promise_all_of_fulfilled ps) as (records & E & Hps).
  { intros p Hp. apply In_mapi in Hp. destruct Hp as (i & c & ->).
    destruct (getAllureReportData_fulfilled (clock i) c) as (r & Hr & _).
    now exists r. }
  exists records. split; [exact E|]. split.
  - rewrite <- (length_map Fulfilled records), <- Hps. apply length_mapi.
  - intros i config Hi.
    assert (Hn : nth_error ps i
                 = Some (getAllureReportData URL_pathname this (clock i) config)).
    { unfold ps. rewrite nth_error_mapi, Hi. reflexivity. }
    rewrite Hps, nth_error_map in Hn.
    destruct (nth_error records i) as [r|]; [|discriminate].
    simpl in Hn.
    assert (Hf : getAllureReportData URL_pathname this (clock i) config = Fulfilled r)
      by congruence.
    exists r. split; [reflexivity|]. split; [exact Hf|].
    destruct (getAllureReportData_fulfilled (clock i) config)
      as (r' & Hr' & _ & _ & Hc & _).
    congruence.
Qed.

End ServiceProperties.

(** C1 at the build [http://jenkins/job/ui-tests/42/] when the server cannot
    be reached: both reads fail and the record is marked [success]. *)
Lemma getAllureReportData_both_reads_fail_witness :
  parseBuildUrl simple_URL_pathname
    (buildUrl (config_of_url "http://jenkins/job/ui-tests/42/"))
  = Some {| bi_jobName := "ui-tests"; bi_buildNumber := 42 |}
  /\ read_failed
       (get_summary_json (axiosInstance offline_service)
          (summary_json_path {| bi_jobName := "ui-tests"; bi_buildNumber := 42 |}))
  /\ read_failed
       (get_testresult_json (axiosInstance offline_service)
          (testresult_json_path {| bi_jobName := "ui-tests"; bi_buildNumber := 42 |}))
  /\ getAllureReportData simple_URL_pathname offline_service 0
       (config_of_url "http://jenkins/job/ui-tests/42/")
     = Fulfilled
         {| buildConfig := config_of_url "http://jenkins/job/ui-tests/42/";
            summary := None;
            results := [];
            reportUrl := "http://jenkins/job/ui-tests/42/allure/";
            lastUpdated := 0;
            status := success;
            errorMessage := None |}.
Proof.
  split; [reflexivity|].
  assert (Hs : read_failed
                 (get_summary_json (axiosInstance offline_service)
                    (summary_json_path
                       {| bi_jobName := "ui-tests"; bi_buildNumber := 42 |})))
    by now exists (ErrorObject "Network Error").
  assert (Hd : read_failed
                 (get_testresult_json (axiosInstance offline_service)
                    (testresult_json_path
                       {| bi_jobName := "ui-tests"; bi_buildNumber := 42 |})))
    by now exists (ErrorObject "Network Error").
  split; [exact Hs|]. split; [exact Hd|].
  destruct (getAllureReportData_both_reads_fail simple_URL_pathname
              offline_service 0
              (config_of_url "http://jenkins/job/ui-tests/42/")
              {| bi_jobName := "ui-tests"; bi_buildNumber := 42 |} eq_refl)
    as (r & Hr & _ & _ & _ & _ & _ & _ & Hboth).
  rewrite Hr, (Hboth Hs Hd). reflexivity.
Defined.

(** ** The URL resolver *)

Lemma indexOf_app_first x before rest :
  ~ In x before ->
  indexOf x (before ++ x :: rest) = Some (List.length before).
Proof.
  induction before as [|y before IH]; intros Hn; simpl.
  - now rewrite String.eqb_refl.
  - destruct (String.eqb_spec y x) as [->|_].
    + exfalso. apply Hn. now left.
    + rewrite IH; [reflexivity|]. intros H. apply Hn. now right.
Qed.

Lemma indexOf_Some_split x xs i :
  indexOf x xs = Some i ->
  exists before rest,
    xs = (before ++ x :: rest)%list /\ ~ In x before /\ List.length before = i.
Proof.
  revert i. induction xs as [|y xs IH]; intros i; simpl; [discriminate|].
  destruct (String.eqb_spec y x) as [->|Hne].
  - intros [= <-]. exists [], xs. repeat split. intros [].
  - destruct (indexOf x xs) as [j|]; [|discriminate].
    intros [= <-]. destruct (IH j eq_refl) as (before & rest & -> & Hn & Hl).
    exists (y :: before), rest. repeat split.
    + intros [H|H]; [now apply Hne | now apply Hn].
    + simpl. now rewrite Hl.
Qed.

Lemma nth_after_prefix (before : list string) x rest k :
  nth (List.length before + k) (before ++ x :: rest) "" = nth k (x :: rest) "".
Proof.
  rewrite app_nth2 by lia. f_equal. lia.
Qed.

Section ResolverProperties.

Variable URL_pathname : string -> option string.

(** C4, as the code has it.  [parseBuildUrl] succeeds exactly when the URL
    constructor accepts the string and, among the non-empty segments of the
    path, the first segment [job] is followed by at least two more segments
    of which the second is accepted by [parseInt]; it then returns the
    segment after that [job] as it stands in the path and the number that
    [parseInt] reads.  On every other string it returns null. *)
Theorem parseBuildUrl_first_job_segment :
  forall s bi,
    parseBuildUrl URL_pathname s = Some bi
    <-> exists pathname before third rest,
          URL_pathname s = Some pathname
          /\ filter Boolean (split "/" pathname)
             = (before ++ "job" :: bi_jobName bi :: third :: rest)%list
          /\ ~ In "job" before
          /\ parseInt third = Some (bi_buildNumber bi).
Proof.
  intros s bi. unfold parseBuildUrl, new_URL_pathname. split.
  - destruct (URL_pathname s) as [pathname|]; simpl; [|discriminate].
    set (pathParts := filter Boolean (split "/" pathname)).
    destruct (indexOf "job" pathParts) as [i|] eqn:Hi; [|discriminate].
    destruct (Nat.ltb (i + 2) (List.length pathParts)) eqn:Hlt; [|discriminate].
    apply Nat.ltb_lt in Hlt.
    destruct (indexOf_Some_split _ _ _ Hi) as (before & after & Hsplit & Hn & Hl).
    rewrite Hsplit in Hlt |- *. rewrite length_app in Hlt. simpl in Hlt.
    destruct after as [|j [|third rest]]; simpl in Hlt; try lia.
    subst i.
    rewrite (nth_after_prefix before "job" (j :: third :: rest) 1).
    rewrite (nth_after_prefix before "job" (j :: third :: rest) 2). simpl.
    destruct (parseInt third) as [n|] eqn:Hp; [|discriminate].
    intros [= <-]. exists pathname, before, third, rest. simpl. auto.
  - intros (pathname & before & third & rest & Hu & Hsplit & Hn & Hp).
    rewrite Hu. simpl. rewrite Hsplit.
    rewrite (indexOf_app_first _ _ _ Hn).
    replace (Nat.ltb (List.length before + 2) _) with true.
    2:{ symmetry. apply Nat.ltb_lt. rewrite length_app. simpl. lia. }
    rewrite (nth_after_prefix before "job" (bi_jobName bi :: third :: rest) 1).
    rewrite (nth_after_prefix before "job" (bi_jobName bi :: third :: rest) 2).
    simpl. rewrite Hp. now destruct bi.
Qed.

End ResolverProperties.

(** C4 as the specification words it fails in both directions.  The build
    number [-5] is accepted although it is negative, and a job inside a
    folder, [/job/team/job/ui-tests/42/], is refused although its path holds
    a segment [job] followed by a name and a number. *)
Lemma parseBuildUrl_not_spec_resolves :
  (parseBuildUrl simple_URL_pathname "http://jenkins/job/ui-tests/-5/"
   = Some {| bi_jobName := "ui-tests"; bi_buildNumber := -5 |}
   /\ ~ exists j n,
          spec_resolves simple_URL_pathname "http://jenkins/job/ui-tests/-5/" j n)
  /\ (parseBuildUrl simple_URL_pathname "http://jenkins/job/team/job/ui-tests/42/"
      = None
      /\ spec_resolves simple_URL_pathname
           "http://jenkins/job/team/job/ui-tests/42/" "ui-tests" 42).
Proof.
  split; split.
  - reflexivity.
  - intros (j & n & pathname & before & third & rest & Hu & Hsplit & Hp & Hn).
    injection Hu as <-. cbn in Hsplit.
    destruct before as [|b0 [|b1 [|b2 before]]]; cbn in Hsplit.
    + inversion Hsplit; subst. cbn in Hp. injection Hp as <-. lia.
    + inversion Hsplit.
    + inversion Hsplit.
    + inversion Hsplit as [[H0 H1 H2 H3]]. now destruct before.
  - reflexivity.
  - exists "/job/team/job/ui-tests/42/", ["job"; "team"], "42", [].
    repeat split. cbn. lia.
Qed.

(** C2 at a build URL that does not resolve: the scheme is missing, the URL
    constructor throws, and the record that comes back is marked [success]
    and carries no error message. *)
Lemma getAllureReportData_unresolved_marked_success :
  parseBuildUrl simple_URL_pathname "jenkins/job/ui-tests/42" = None
  /\ getAllureReportData simple_URL_pathname offline_service 0
       (config_of_url "jenkins/job/ui-tests/42")
     = Fulfilled
         {| buildConfig := config_of_url "jenkins/job/ui-tests/42";
            summary := None;
            results := [];
            reportUrl := "jenkins/job/ui-tests/42";
            lastUpdated := 0;
            status := success;
            errorMessage := None |}.
Proof. split; reflexivity. Qed.

(** C9 at the build of the job [My Job], whose URL holds the name as
    [My%20Job]: the report URL of the record names the job [My%2520Job]. *)
Lemma getAllureReportData_reportUrl_encoded_twice_witness :
  parseBuildUrl simple_URL_pathname "http://jenkins/job/My%20Job/7/"
  = Some {| bi_jobName := "My%20Job"; bi_buildNumber := 7 |}
  /\ exists r,
       getAllureReportData simple_URL_pathname offline_service 0
         (config_of_url "http://jenkins/job/My%20Job/7/") = Fulfilled r
       /\ reportUrl r = "http://jenkins/job/My%2520Job/7/allure/"
       /\ spec_reportUrl (baseURL offline_service)
            {| bi_jobName := "My%20Job"; bi_buildNumber := 7 |}
          = "http://jenkins/job/My%20Job/7/allure/"
       /\ reportUrl r
          <> spec_reportUrl (baseURL offline_service)
               {| bi_jobName := "My%20Job"; bi_buildNumber := 7 |}.
Proof.
  split; [reflexivity|].
  destruct (getAllureReportData_reportUrl_encoded_twice simple_URL_pathname
              offline_service 0 (config_of_url "http://jenkins/job/My%20Job/7/")
              {| bi_jobName := "My%20Job"; bi_buildNumber := 7 |}
              eq_refl eq_refl eq_refl)
    as (r & Hr & Hurl & _ & Hne).
  exists r. split; [exact Hr|]. split; [exact Hurl|].
  split; [reflexivity | exact Hne].
Defined.

(** * Properties of the derivers *)

(** ** Sorting *)

Section ArraySort.

Context {A : Type}.
Variable compareFn : A -> A -> Q.

Lemma Array_insert_perm x xs :
  Permutation (Array_insert compareFn x xs) (x :: xs).
Proof.
  induction xs as [|y ys IH]; simpl; [reflexivity|].
  destruct (Qle_bool (compareFn x y) 0); [reflexivity|].
  rewrite IH. apply perm_swap.
Qed.

Lemma Array_sort_perm xs : Permutation (Array_sort compareFn xs) xs.
Proof.
  induction xs as [|x xs IH]; simpl; [reflexivity|].
  rewrite Array_insert_perm. now constructor.
Qed.

Lemma Array_sort_In x xs : In x (Array_sort compareFn xs) <-> In x xs.
Proof.
  split; apply Permutation_in; [|symmetry]; apply Array_sort_perm.
Qed.

Lemma Array_sort_length xs : List.length (Array_sort compareFn xs) = List.length xs.
Proof. apply Permutation_length, Array_sort_perm. Qed.



Hypothesis comes_first_total :
  forall a b, Qle_bool (compareFn a b) 0 = false -> comes_first compareFn b a.
Hypothesis comes_first_trans :
  forall a b c,
    comes_first compareFn a b -> comes_first compareFn b c ->
    comes_first compareFn a c.

Lemma Array_insert_sorted x xs :
  StronglySorted (comes_first compareFn) xs ->
  StronglySorted (comes_first compareFn) (Array_insert compareFn x xs).
Proof.
  induction 1 as [|y ys Hs IH Hall]; simpl.
  - constructor; constructor.
  - destruct (Qle_bool (compareFn x y) 0) eqn:Hle.
    + constructor; [now constructor|].
      constructor; [exact Hle|].
      eapply Forall_impl; [|exact Hall]. intros z. now apply comes_first_trans.
    + constructor; [exact IH|].
      rewrite Forall_forall. intros z Hz.
      apply (Permutation_in _ (Array_insert_perm x ys)) in Hz.
      destruct Hz as [<-|Hz]; [now apply comes_first_total|].
      rewrite Forall_forall in Hall. now apply Hall.
Qed.

Lemma Array_sort_sorted xs :
  StronglySorted (comes_first compareFn) (Array_sort compareFn xs).
Proof.
  induction xs as [|x xs IH]; simpl; [constructor | now apply Array_insert_sorted].
Qed.

End ArraySort.

(** ** Dictionaries *)

Section Dictionary.

Context {V : Type}.
Implicit Types (o : JsObject V) (k : string) (v : V).

Lemma own_get_set_same k v o : own_get k (own_set k v o) = Some v.
Proof.
  induction o as [|[k' v'] o IH]; simpl.
  - now rewrite String.eqb_refl.
  - destruct (String.eqb k' k) eqn:E; simpl; rewrite E; [reflexivity | exact IH].
Qed.

Lemma own_get_set_other k k' v o :
  k' <> k -> own_get k' (own_set k v o) = own_get k' o.
Proof.
  intros Hne. induction o as [|[k0 v0] o IH]; simpl.
  - destruct (String.eqb_spec k k') as [->|_]; [now elim Hne | reflexivity].
  - destruct (String.eqb_spec k0 k) as [->|Hk]; simpl.
    + destruct (String.eqb_spec k k') as [->|_]; [now elim Hne | reflexivity].
    + now rewrite IH.
Qed.

Lemma own_get_None k o : own_get k o = None <-> ~ In k (map fst o).
Proof.
  induction o as [|[k' v'] o IH]; simpl; [tauto|].
  destruct (String.eqb_spec k' k) as [->|Hk].
  - split; [discriminate | intros H; elim H; now left].
  - rewrite IH. tauto.
Qed.

Lemma own_get_Some_In k v o : own_get k o = Some v -> In (k, v) o.
Proof.
  induction o as [|[k' v'] o IH]; simpl; [discriminate|].
  destruct (String.eqb_spec k' k) as [->|Hk].
  - intros [= ->]. now left.
  - intros H. right. now apply IH.
Qed.

Lemma In_own_get k v o : NoDup (map fst o) -> In (k, v) o -> own_get k o = Some v.
Proof.
  induction o as [|[k' v'] o IH]; simpl; [tauto|].
  intros Hnd [[= -> ->]|Hin].
  - now rewrite String.eqb_refl.
  - inversion Hnd as [|? ? Hk' Hnd']; subst.
    destruct (String.eqb_spec k' k) as [->|_]; [|now apply IH].
    elim Hk'. apply (in_map fst) in Hin. exact Hin.
Qed.

Lemma own_set_present k v v0 o :
  own_get k o = Some v0 -> map fst (own_set k v o) = map fst o.
Proof.
  induction o as [|[k' v'] o IH]; simpl; [discriminate|].
  destruct (String.eqb_spec k' k) as [->|Hk]; simpl; [reflexivity|].
  intros H. now rewrite IH.
Qed.

Lemma own_set_absent k v o :
  own_get k o = None -> own_set k v o = (o ++ [(k, v)])%list.
Proof.
  induction o as [|[k' v'] o IH]; simpl; [reflexivity|].
  destruct (String.eqb_spec k' k) as [->|Hk]; [discriminate|].
  intros H. now rewrite IH.
Qed.

Lemma own_set_NoDup k v o :
  NoDup (map fst o) -> NoDup (map fst (own_set k v o)).
Proof.
  intros Hnd. destruct (own_get k o) as [v0|] eqn:E.
  - now rewrite (own_set_present _ _ _ _ E).
  - rewrite (own_set_absent _ _ _ E), map_app. simpl.
    apply NoDup_app; [exact Hnd | repeat constructor; intros [] |].
    intros x Hx [<-|[]]. now apply own_get_None in E.
Qed.

Lemma js_get_own realm k v o : own_get k o = Some v -> js_get realm o k = Own v.
Proof. intros H. unfold js_get. now rewrite H. Qed.

Lemma js_get_inherited realm k o :
  own_get k o = None -> js_get realm o k = inherited realm k.
Proof. intros H. unfold js_get. now rewrite H. Qed.

Lemma Object_entries_perm o : Permutation (Object_entries o) o.
Proof.
  unfold Object_entries. rewrite Array_sort_perm.
  induction o as [|kv o IH]; simpl; [reflexivity|].
  destruct (is_array_index (fst kv)); simpl.
  - now constructor.
  - rewrite <- Permutation_middle. now constructor.
Qed.

Lemma Object_entries_In kv o : In kv (Object_entries o) <-> In kv o.
Proof.
  split; apply Permutation_in; [|symmetry]; apply Object_entries_perm.
Qed.

End Dictionary.

Lemma shadowed_shadowable realm k : shadowed realm k = true -> shadowable k = true.
Proof.
  unfold shadowed, shadowable, inherited.
  destruct (String.eqb_spec k "__proto__") as [->|_]; [reflexivity|].
  destruct (existsb (String.eqb k) Object_prototype_builtins); [reflexivity|].
  simpl. destruct (String.eqb k "lastFailure"); [reflexivity|].
  destruct (String.eqb k "totalRuns" && proto_totalRuns realm);
    [discriminate|].
  destruct (String.eqb k "failures" && proto_failures realm); discriminate.
Qed.

Lemma inherited_shadowed {W : Type} realm k :
  match @inherited W realm k with
  | TheObjectPrototype | BuiltinFunction | InheritedDate _ => shadowed realm k = true
  | Own _ => False
  | InheritedNaN | Undefined => shadowed realm k = false
  end.
Proof.
  unfold shadowed, inherited.
  destruct (String.eqb k "__proto__"); [reflexivity|].
  destruct (existsb (String.eqb k) Object_prototype_builtins); [reflexivity|].
  destruct (String.eqb k "lastFailure").
  - now destruct (proto_lastFailure realm).
  - destruct (String.eqb k "totalRuns" && proto_totalRuns realm); [reflexivity|].
    now destruct (String.eqb k "failures" && proto_failures realm).
Qed.

(** Once a key is shadowed it stays so: nothing removes what has been added
    to [Object.prototype]. *)
Lemma shadowed_count_run_on_prototype test realm k :
  shadowed realm k = true ->
  shadowed (count_run_on_prototype test realm) k = true.
Proof.
  unfold shadowed, inherited.
  destruct (String.eqb k "__proto__"); [reflexivity|].
  destruct (existsb (String.eqb k) Object_prototype_builtins); [reflexivity|].
  destruct (String.eqb k "lastFailure").
  - unfold count_run_on_prototype.
    destruct (proto_lastFailure realm) as [d|] eqn:E; [|discriminate].
    intros _. destruct (is_failure (run_status test)); simpl; rewrite ?E;
      [|reflexivity].
    now destruct (run_timestamp test >? d).
  - destruct (String.eqb k "totalRuns" && proto_totalRuns realm); [discriminate|].
    destruct (String.eqb k "failures" && proto_failures realm); discriminate.
Qed.

(** ** The grouping of the runs by test name *)

Lemma runs_of_snoc_same k tests t :
  run_testName t = k -> runs_of k (tests ++ [t]) = (runs_of k tests ++ [t])%list.
Proof.
  intros <-. unfold runs_of. rewrite filter_app. simpl.
  now rewrite String.eqb_refl.
Qed.

Lemma runs_of_snoc_other k tests t :
  run_testName t <> k -> runs_of k (tests ++ [t]) = runs_of k tests.
Proof.
  intros Hne. unfold runs_of. rewrite filter_app. simpl.
  destruct (String.eqb_spec (run_testName t) k); [contradiction|].
  apply app_nil_r.
Qed.

Lemma failing_snoc rs t :
  failing (rs ++ [t])
  = (failing rs ++ if is_failure (run_status t) then [t] else [])%list.
Proof.
  unfold failing. rewrite filter_app. simpl.
  now destruct (is_failure (run_status t)).
Qed.

Lemma count_snoc {A : Type} (xs : list A) x : count (xs ++ [x]) = count xs + 1.
Proof. unfold count. rewrite length_app. simpl. lia. Qed.

Lemma describes_first_run t :
  describes (run_testName t) [t]
    (count_run t {| stat_testName := run_testName t;
                    stat_jobName := run_jobName t;
                    stat_totalRuns := 0;
                    stat_failures := 0;
                    stat_lastFailure := None |}).
Proof.
  unfold describes, count_run, failing. simpl.
  destruct (is_failure (run_status t)); simpl; repeat split;
    try reflexivity; try discriminate.
Qed.

Lemma describes_next_run k rs st t :
  describes k rs st -> describes k (rs ++ [t]) (count_run t st).
Proof.
  intros (Hn & Ht & Hf & Hj & Hl). unfold describes.
  rewrite failing_snoc, count_snoc. unfold count_run.
  assert (Hhd : hd_error (rs ++ [t]) = hd_error rs).
  { destruct rs; [discriminate | reflexivity]. }
  rewrite Hhd.
  destruct (is_failure (run_status t)); simpl.
  - rewrite count_snoc. repeat split; try congruence; try lia.
    + destruct (stat_lastFailure st) as [d|];
        [destruct (run_timestamp t >? d)|]; discriminate.
    + intros H. now destruct (failing rs).
  - rewrite app_nil_r. repeat split; try congruence; try lia; apply Hl.
Qed.

Lemma testStats_step_invariant tests acc realm t :
  stats_invariant tests acc realm ->
  stats_invariant (tests ++ [t]) (fst (testStats_step (acc, realm) t))
                  (snd (testStats_step (acc, realm) t)).
Proof.
  intros (Hnd & Hown & Hnone). unfold testStats_step.
  set (k := run_testName t).
  destruct (own_get k acc) as [entry|] eqn:Hk.
  - rewrite (js_get_own realm _ _ _ Hk). simpl. split; [|split].
    + now apply own_set_NoDup.
    + intros k' st. destruct (String.eqb_spec k' k) as [->|Hne].
      * rewrite own_get_set_same. intros [= <-].
        rewrite (runs_of_snoc_same k tests t eq_refl).
        apply describes_next_run. now apply Hown.
      * rewrite (own_get_set_other _ _ _ _ Hne). intros H.
        rewrite runs_of_snoc_other by (intros E; apply Hne; now rewrite <- E).
        now apply Hown.
    + intros k' H. destruct (String.eqb_spec k' k) as [->|Hne].
      * now rewrite own_get_set_same in H.
      * rewrite (own_get_set_other _ _ _ _ Hne) in H.
        rewrite runs_of_snoc_other by (intros E; apply Hne; now rewrite <- E).
        now apply Hnone.
  - rewrite (js_get_inherited realm _ _ Hk).
    pose proof (@inherited_shadowed TestStat realm k) as Hsh.
    assert (Hcreate :
      shadowed realm k = false ->
      stats_invariant (tests ++ [t])
        (own_set k (count_run t {| stat_testName := run_testName t;
                                   stat_jobName := run_jobName t;
                                   stat_totalRuns := 0;
                                   stat_failures := 0;
                                   stat_lastFailure := None |}) acc) realm).
    { intros Hfalse. split; [|split].
      - now apply own_set_NoDup.
      - intros k' st. destruct (String.eqb_spec k' k) as [->|Hne].
        + rewrite own_get_set_same. intros [= <-].
          rewrite (runs_of_snoc_same k tests t eq_refl).
          destruct (Hnone k Hk) as [-> | Htrue]; [|congruence].
          apply describes_first_run.
        + rewrite (own_get_set_other _ _ _ _ Hne). intros H.
          rewrite runs_of_snoc_other by (intros E; apply Hne; now rewrite <- E).
          now apply Hown.
      - intros k' H. destruct (String.eqb_spec k' k) as [->|Hne].
        + now rewrite own_get_set_same in H.
        + rewrite (own_get_set_other _ _ _ _ Hne) in H.
          rewrite runs_of_snoc_other by (intros E; apply Hne; now rewrite <- E).
          now apply Hnone. }
    assert (Hskip :
      forall realm',
        shadowed realm k = true ->
        (forall k', shadowed realm k' = true -> shadowed realm' k' = true) ->
        stats_invariant (tests ++ [t]) acc realm').
    { intros realm' Htrue Hmono. split; [exact Hnd|]. split.
      - intros k' st H. destruct (String.eqb_spec k' k) as [->|Hne]; [congruence|].
        rewrite runs_of_snoc_other by (intros E; apply Hne; now rewrite <- E).
        now apply Hown.
      - intros k' H. destruct (String.eqb_spec k' k) as [->|Hne].
        + right. now apply Hmono.
        + rewrite runs_of_snoc_other by (intros E; apply Hne; now rewrite <- E).
          destruct (Hnone k' H) as [E|E]; [now left | right; now apply Hmono]. }
    destruct (inherited realm k); simpl; try contradiction.
    + apply Hskip; [exact Hsh|]. intros k'. apply shadowed_count_run_on_prototype.
    + apply Hskip; auto.
    + apply Hskip; auto.
    + now apply Hcreate.
    + now apply Hcreate.
Qed.

Lemma fold_testStats_step_invariant ts :
  forall tests acc realm,
    stats_invariant tests acc realm ->
    stats_invariant (tests ++ ts)
      (fst (fold_left testStats_step ts (acc, realm)))
      (snd (fold_left testStats_step ts (acc, realm))).
Proof.
  induction ts as [|t ts IH]; intros tests acc realm H; cbn [fold_left].
  - now rewrite app_nil_r.
  - replace (tests ++ t :: ts)%list with ((tests ++ [t]) ++ ts)%list
      by (now rewrite <- app_assoc).
    pose proof (testStats_step_invariant _ _ _ t H) as H'.
    destruct (testStats_step (acc, realm) t) as [acc' realm'].
    exact (IH _ _ _ H').
Qed.

Lemma testStats_invariant realm allureReports :
  stats_invariant (testResults allureReports)
    (fst (testStats realm allureReports)) (snd (testStats realm allureReports)).
Proof.
  unfold testStats.
  apply (fold_testStats_step_invariant (testResults allureReports) [] [] realm).
  split; [constructor|]. split; [discriminate | now left].
Qed.

(** ** The flakiness deriver *)

Lemma generateFlakyTestsData_eq realm now allureReports :
  generateFlakyTestsData realm now allureReports
  = (slice0 10 (flaky_ranked
                  (flaky_candidates now (fst (testStats realm allureReports)))),
     snd (testStats realm allureReports)).
Proof.
  unfold generateFlakyTestsData. destruct allureReports as [|r rs].
  - reflexivity.
  - cbn [List.length Nat.eqb]. now destruct (testStats realm (r :: rs)).
Qed.

Lemma In_firstn {A : Type} (x : A) n xs : In x (firstn n xs) -> In x xs.
Proof.
  revert xs. induction n as [|n IH]; intros [|y ys]; simpl; try tauto.
  intros [H|H]; [now left | right; now apply IH].
Qed.

Lemma StronglySorted_firstn {A : Type} (R : A -> A -> Prop) n xs :
  StronglySorted R xs -> StronglySorted R (firstn n xs).
Proof.
  revert xs. induction n as [|n IH]; intros xs Hs; [constructor|].
  destruct Hs as [|y ys Hs Hall]; simpl; [constructor|].
  constructor; [now apply IH|].
  rewrite Forall_forall in *. intros z Hz. apply Hall. now apply In_firstn in Hz.
Qed.

Lemma NoDup_firstn {A : Type} n (xs : list A) : NoDup xs -> NoDup (firstn n xs).
Proof.
  revert xs. induction n as [|n IH]; intros xs Hs; [constructor|].
  destruct Hs as [|y ys Hy Hs]; simpl; [constructor|].
  constructor; [|now apply IH]. intros Hin. apply Hy. now apply In_firstn in Hin.
Qed.

(** Every candidate comes from an entry of [testStats] that sums up all the
    runs of its test, and the test has a failing run. *)
Lemma flaky_candidate_origin realm now allureReports e :
  In e (flaky_candidates now (fst (testStats realm allureReports))) ->
  exists st,
    e = toFlakyTest now st
    /\ own_get (testName e) (fst (testStats realm allureReports)) = Some st
    /\ describes (testName e)
         (runs_of (testName e) (testResults allureReports)) st
    /\ 0 < stat_failures st.
Proof.
  destruct (testStats_invariant realm allureReports) as (Hnd & Hown & _).
  unfold flaky_candidates. rewrite in_map_iff.
  intros (st & <- & Hin). apply filter_In in Hin. destruct Hin as [Hin Hpos].
  unfold Object_values in Hin. apply in_map_iff in Hin.
  destruct Hin as ([k st'] & Hst & Hin). simpl in Hst. subst st'.
  apply (proj1 (Object_entries_In _ _)) in Hin.
  pose proof (In_own_get _ _ _ Hnd Hin) as Hget.
  pose proof (Hown _ _ Hget) as Hd.
  assert (Hk : stat_testName st = k) by apply Hd.
  exists st. simpl. rewrite Hk. repeat split; try assumption; try apply Hd.
  now apply Z.gtb_lt in Hpos.
Qed.

Lemma flaky_entry_origin realm now allureReports e :
  In e (fst (generateFlakyTestsData realm now allureReports)) ->
  In e (flaky_candidates now (fst (testStats realm allureReports))).
Proof.
  rewrite generateFlakyTestsData_eq. cbn [fst]. unfold slice0, flaky_ranked.
  intros H. apply In_firstn in H. now apply (proj1 (Array_sort_In _ _ _)) in H.
Qed.


Lemma first_job_with_hd k allureReports :
  first_job_with k allureReports
  = option_map run_jobName (hd_error (runs_of k (testResults allureReports))).
Proof.
  unfold first_job_with.
  induction allureReports as [|r rs IH]; simpl; [reflexivity|].
  unfold runs_of in *. rewrite filter_app.
  induction (results r) as [|x xs IHx]; simpl.
  - exact IH.
  - destruct (String.eqb (res_name x) k); simpl; [reflexivity | exact IHx].
Qed.

(** C10.  An entry of the flakiness list stands for all the runs of its test
    name, whatever job they belong to: it is the only entry with that name,
    its [totalRuns] counts the outcomes of that name over all the records
    and its failure rate counts the failing ones among them, and the job it
    reports is the job of the first record, in input order, that holds an
    outcome of that name. *)
Theorem generateFlakyTestsData_merges_jobs :
  forall realm now allureReports e,
    In e (fst (generateFlakyTestsData realm now allureReports)) ->
    first_job_with (testName e) allureReports = Some (flaky_jobName e)
    /\ totalRuns e = count (runs_of (testName e) (testResults allureReports))
    /\ failureRate e
       = ((inject_Z (count (failing (runs_of (testName e)
                                       (testResults allureReports))))
           / inject_Z (totalRuns e)) * 100)%Q
    /\ forall e',
         In e' (fst (generateFlakyTestsData realm now allureReports)) ->
         testName e' = testName e -> e' = e.
Proof.
  intros realm now allureReports e He.
  apply flaky_entry_origin in He.
  destruct (flaky_candidate_origin _ _ _ _ He) as (st & -> & Hget & Hd & Hpos).
  destruct Hd as (Hn & Ht & Hf & Hj & Hl). simpl in *.
  rewrite first_job_with_hd. repeat split.
  - exact Hj.
  - exact Ht.
  - now rewrite Hf.
  - intros e' He' Hname. apply flaky_entry_origin in He'.
    destruct (flaky_candidate_origin _ _ _ _ He') as (st' & -> & Hget' & _).
    simpl in *. rewrite Hname, Hget in Hget'. congruence.
Qed.













(** The two jobs of [abc_reports] share the tests [A] and [B]. *)
Lemma generateFlakyTestsData_merges_jobs_witness :
  In {| testName := "B"; flaky_jobName := "ui-tests";
        failureRate := ((inject_Z 3 / inject_Z 5) * 100)%Q;
        totalRuns := 5; lastFailure := 2000 |}
     (fst (generateFlakyTestsData pristine 0 abc_reports))
  /\ first_job_with "B" abc_reports = Some "ui-tests"
  /\ count (runs_of "B" (testResults abc_reports)) = 5.
Proof.
  assert (Hin : In {| testName := "B"; flaky_jobName := "ui-tests";
                      failureRate := ((inject_Z 3 / inject_Z 5) * 100)%Q;
                      totalRuns := 5; lastFailure := 2000 |}
                   (fst (generateFlakyTestsData pristine 0 abc_reports))).
  { vm_compute. left. reflexivity. }
  split; [exact Hin|].
  destruct (generateFlakyTestsData_merges_jobs pristine 0 abc_reports _ Hin)
    as (Hjob & Hruns & _).
  split; [exact Hjob | symmetry; exact Hruns].
Defined.

(** ** Idempotence *)

Lemma toFlakyTest_now_irrelevant now now' st :
  stat_lastFailure st <> None -> toFlakyTest now st = toFlakyTest now' st.
Proof. unfold toFlakyTest. now destruct (stat_lastFailure st). Qed.

(** The [new Date()] of line 199 is never evaluated: the list does not
    depend on the time of the call. *)
Lemma generateFlakyTestsData_now_irrelevant realm now now' allureReports :
  generateFlakyTestsData realm now allureReports
  = generateFlakyTestsData realm now' allureReports.
Proof.
  rewrite !generateFlakyTestsData_eq. f_equal. f_equal. f_equal.
  destruct (testStats_invariant realm allureReports) as (Hnd & Hown & _).
  unfold flaky_candidates. apply map_ext_in. intros st Hin.
  apply filter_In in Hin. destruct Hin as [Hin Hpos].
  unfold Object_values in Hin. apply in_map_iff in Hin.
  destruct Hin as ([k st'] & Hst & Hin). simpl in Hst. subst st'.
  apply (proj1 (Object_entries_In _ _)) in Hin.
  destruct (Hown _ _ (In_own_get _ _ _ Hnd Hin)) as (_ & _ & Hf & _ & Hl).
  apply toFlakyTest_now_irrelevant. intros Hnone. apply Hl in Hnone.
  rewrite Hnone in Hf. apply Z.gtb_lt in Hpos. unfold count in Hf. simpl in Hf. lia.
Qed.

(** Only a test named [__proto__] makes the deriver write to
    [Object.prototype]. *)
Lemma testStats_realm_unchanged realm allureReports :
  Forall (fun t => run_testName t <> "__proto__") (testResults allureReports) ->
  snd (testStats realm allureReports) = realm.
Proof.
  unfold testStats. intros H. generalize (@nil (string * TestStat)).
  induction H as [|t ts Ht _ IH]; intros acc; [reflexivity|].
  cbn [fold_left].
  assert (E : snd (testStats_step (acc, realm) t) = realm).
  { unfold testStats_step, js_get.
    destruct (own_get (run_testName t) acc); [reflexivity|].
    unfold inherited.
    destruct (String.eqb_spec (run_testName t) "__proto__"); [contradiction|].
    destruct (existsb _ _); [reflexivity|].
    destruct (String.eqb _ "lastFailure");
      [now destruct (proto_lastFailure realm)|].
    destruct (_ && _); [reflexivity|]. now destruct (_ && _). }
  destruct (testStats_step (acc, realm) t) as [acc' realm']. simpl in E. subst realm'.
  apply IH.
Qed.

(** On well-behaved input the derivers are idempotent.  When no test is
    named [__proto__], running any of the three derivers leaves
    [Object.prototype] as it was, and running it again, at any later time,
    yields the same view. *)
Lemma run_deriver_idempotent_without_proto
    (format_yyyy_MM_dd : Z -> string) (localeCompare : string -> string -> Z)
    d realm now now' allureReports :
  Forall (fun t => run_testName t <> "__proto__") (testResults allureReports) ->
  snd (run_deriver format_yyyy_MM_dd localeCompare d realm now allureReports) = realm
  /\ fst (run_deriver format_yyyy_MM_dd localeCompare d
            (snd (run_deriver format_yyyy_MM_dd localeCompare d realm now allureReports))
            now' allureReports)
     = fst (run_deriver format_yyyy_MM_dd localeCompare d realm now allureReports).
Proof.
  intros H. destruct d; try (split; reflexivity).
  assert (E : generateFlakyTestsData realm now allureReports
              = (fst (generateFlakyTestsData realm now allureReports), realm)).
  { rewrite generateFlakyTestsData_eq. cbn [fst].
    now rewrite (testStats_realm_unchanged realm _ H). }
  unfold run_deriver. rewrite E. cbn [fst snd].
  rewrite (generateFlakyTestsData_now_irrelevant realm now' now), E.
  split; reflexivity.
Qed.

(** C8 at the failing input.  On a freshly loaded page the flakiness deriver
    lists the test [lastFailure]; counting the failed run of the test
    [__proto__] stores a date under [Object.prototype.lastFailure]; the
    second run on the same records finds that date under
    [acc["lastFailure"]], creates no entry and returns the empty list. *)
Theorem flakiness_deriver_not_idempotent :
  run_deriver utc_yyyy_MM_dd bytewise_localeCompare Flakiness pristine 0
    pollution_reports
  = (FlakinessView
       [ {| testName := "lastFailure"; flaky_jobName := "ui-tests";
            failureRate := ((inject_Z 1 / inject_Z 1) * 100)%Q;
            totalRuns := 1; lastFailure := 1000 |} ],
     {| proto_totalRuns := true; proto_failures := true;
        proto_lastFailure := Some 1000 |})
  /\ run_deriver utc_yyyy_MM_dd bytewise_localeCompare Flakiness
       {| proto_totalRuns := true; proto_failures := true;
          proto_lastFailure := Some 1000 |} 0 pollution_reports
     = (FlakinessView [],
        {| proto_totalRuns := true; proto_failures := true;
           proto_lastFailure := Some 1000 |})
  /\ fst (run_deriver utc_yyyy_MM_dd bytewise_localeCompare Flakiness pristine 0
            pollution_reports)
     <> fst (run_deriver utc_yyyy_MM_dd bytewise_localeCompare Flakiness
               (snd (run_deriver utc_yyyy_MM_dd bytewise_localeCompare Flakiness
                       pristine 0 pollution_reports))
               0 pollution_reports).
Proof.
  split; [vm_compute; reflexivity|]. split; [vm_compute; reflexivity|].
  vm_compute. discriminate.
Qed.

(** ** The trend deriver *)

Lemma aggregate_from acc allureReports :
  let step acc report :=
    match summary report with
    | Some s =>
        {| agg_total := agg_total acc + total s;
           agg_passed := agg_passed acc + passed_count s;
           agg_failed := agg_failed acc + failed_count s |}
    | None => acc
    end in
  agg_total (fold_left step allureReports acc)
  = agg_total acc + sum_summaries total allureReports
  /\ agg_passed (fold_left step allureReports acc)
     = agg_passed acc + sum_summaries passed_count allureReports
  /\ agg_failed (fold_left step allureReports acc)
     = agg_failed acc + sum_summaries failed_count allureReports.
Proof.
  intros step. revert acc.
  induction allureReports as [|r rs IH]; intros acc; cbn [fold_left].
  - unfold sum_summaries. simpl. lia.
  - destruct (IH (step acc r)) as (E1 & E2 & E3). rewrite E1, E2, E3.
    unfold sum_summaries, step. simpl.
    destruct (summary r); simpl; lia.
Qed.

Lemma aggregate_sums allureReports :
  agg_total (aggregate allureReports) = sum_summaries total allureReports
  /\ agg_passed (aggregate allureReports) = sum_summaries passed_count allureReports
  /\ agg_failed (aggregate allureReports) = sum_summaries failed_count allureReports.
Proof.
  unfold aggregate.
  destruct (aggregate_from {| agg_total := 0; agg_passed := 0; agg_failed := 0 |}
              allureReports) as (E1 & E2 & E3).
  now rewrite E1, E2, E3.
Qed.

(** ** Binary64 rounding *)

Lemma round_half_even_near (y : Q) :
  (y - (1 # 2) <= inject_Z (round_half_even y)
   /\ inject_Z (round_half_even y) <= y + (1 # 2))%Q.
Proof.
  unfold round_half_even.
  pose proof (Qfloor_le y) as Hle.
  pose proof (Qlt_floor y) as Hlt.
  rewrite inject_Z_plus in Hlt. change (inject_Z 1) with 1%Q in Hlt.
  set (f := Qfloor y) in *.
  destruct (Qcompare (y - inject_Z f) (1 # 2)) eqn:E.
  - apply Qeq_alt in E.
    destruct (Z.even f); [|rewrite inject_Z_plus; change (inject_Z 1) with 1%Q];
      set (n := inject_Z f) in *; clearbody n; split; lra.
  - apply Qlt_alt in E. set (n := inject_Z f) in *. clearbody n. split; lra.
  - apply Qgt_alt in E. rewrite inject_Z_plus. change (inject_Z 1) with 1%Q.
    set (n := inject_Z f) in *. clearbody n. split; lra.
Qed.

Lemma two_power_pos (k : Z) : (0 < 2 ^ k)%Q.
Proof. apply Qpower_0_lt. reflexivity. Qed.

Lemma two_power_Z (k : Z) : 0 <= k -> (inject_Z (2 ^ k) == 2 ^ k)%Q.
Proof. intros H. now rewrite (Zpower_Qpower 2 k H). Qed.

(** [2 ^ Qlog2 x] is not above [x]. *)
Lemma Qlog2_le (x : Q) : (0 < x)%Q -> (2 ^ Qlog2 x <= x)%Q.
Proof.
  intros Hx. unfold Qlog2.
  set (k := Z.log2 (Qnum x) - Z.log2 (Z.pos (Qden x))).
  destruct (Qle_bool (2 ^ k) x) eqn:E; [now apply Qle_bool_iff|].
  destruct x as [n d]. cbn [Qnum Qden] in k.
  assert (Hn : 0 < n) by (unfold Qlt in Hx; simpl in Hx; lia).
  destruct (Z.log2_spec n Hn) as [Hn1 _].
  destruct (Z.log2_spec (Z.pos d) (Pos2Z.is_pos d)) as [_ Hd2].
  pose proof (Z.log2_nonneg n) as Hln.
  pose proof (Z.log2_nonneg (Z.pos d)) as Hld.
  replace (k - 1) with (Z.log2 n - Z.succ (Z.log2 (Z.pos d))) by (unfold k; lia).
  rewrite Qpower_minus by discriminate.
  rewrite <- (two_power_Z (Z.log2 n)) by lia.
  rewrite <- (two_power_Z (Z.succ (Z.log2 (Z.pos d)))) by lia.
  set (A := 2 ^ Z.log2 n) in *. set (B := 2 ^ Z.succ (Z.log2 (Z.pos d))) in *.
  assert (HA : 0 < A) by (unfold A; apply Z.pow_pos_nonneg; lia).
  assert (HB : 0 < B) by lia.
  apply Qle_shift_div_r.
  - change 0%Q with (inject_Z 0). now rewrite <- Zlt_Qlt.
  - unfold Qle, Qmult, inject_Z; simpl. nia.
Qed.

Lemma Qlog2_lt (x : Q) : (0 < x)%Q -> (x < 2 ^ (Qlog2 x + 1))%Q.
Proof.
  intros Hx. unfold Qlog2.
  set (k := Z.log2 (Qnum x) - Z.log2 (Z.pos (Qden x))).
  destruct (Qle_bool (2 ^ k) x) eqn:E.
  - destruct x as [n d]. cbn [Qnum Qden] in k.
    assert (Hn : 0 < n) by (unfold Qlt in Hx; simpl in Hx; lia).
    destruct (Z.log2_spec n Hn) as [_ Hn2].
    destruct (Z.log2_spec (Z.pos d) (Pos2Z.is_pos d)) as [Hd1 _].
    pose proof (Z.log2_nonneg n) as Hln.
    pose proof (Z.log2_nonneg (Z.pos d)) as Hld.
    replace (k + 1) with (Z.succ (Z.log2 n) - Z.log2 (Z.pos d)) by (unfold k; lia).
    rewrite Qpower_minus by discriminate.
    rewrite <- (two_power_Z (Z.succ (Z.log2 n))) by lia.
    rewrite <- (two_power_Z (Z.log2 (Z.pos d))) by lia.
    set (A := 2 ^ Z.succ (Z.log2 n)) in *. set (B := 2 ^ Z.log2 (Z.pos d)) in *.
    assert (HB : 0 < B) by (unfold B; apply Z.pow_pos_nonneg; lia).
    apply Qlt_shift_div_l.
    + change 0%Q with (inject_Z 0). now rewrite <- Zlt_Qlt.
    + unfold Qlt, Qmult, inject_Z; simpl. nia.
  - replace (k - 1 + 1) with k by lia.
    apply Qnot_le_lt. intros H. apply Qle_bool_iff in H. congruence.
Qed.

Lemma binary64_positive_near (x : Q) :
  (0 < x)%Q ->
  (x - x * unit_roundoff <= binary64_positive x
   /\ binary64_positive x <= x + x * unit_roundoff)%Q.
Proof.
  intros Hx. unfold binary64_positive. rewrite Qred_correct.
  set (e := Qlog2 x - 52).
  pose proof (two_power_pos e) as HP.
  pose proof (Qlog2_le x Hx) as HL.
  replace (Qlog2 x) with (e + 52) in HL by (unfold e; lia).
  rewrite Qpower_plus in HL by discriminate.
  change ((2:Q) ^ 52)%Q with (4503599627370496%Q) in HL.
  destruct (round_half_even_near (x / 2 ^ e)) as [Hlo Hhi].
  set (m := inject_Z (round_half_even (x / 2 ^ e))) in *. clearbody m.
  assert (Hy : (x / 2 ^ e * 2 ^ e == x)%Q).
  { field. intros H. rewrite H in HP. now apply Qlt_irrefl in HP. }
  set (P := (2 ^ e)%Q) in *. clearbody P.
  set (y := (x / P)%Q) in *. clearbody y.
  assert (H1 : ((y - (1 # 2)) * P <= m * P)%Q) by (apply Qmult_le_compat_r; lra).
  assert (H2 : (m * P <= (y + (1 # 2)) * P)%Q) by (apply Qmult_le_compat_r; lra).
  unfold unit_roundoff.
  set (mP := (m * P)%Q) in *. clearbody mP.
  assert (E1 : ((y - (1 # 2)) * P == x - (1 # 2) * P)%Q) by (rewrite <- Hy; ring).
  assert (E2 : ((y + (1 # 2)) * P == x + (1 # 2) * P)%Q) by (rewrite <- Hy; ring).
  rewrite E1 in H1. rewrite E2 in H2.
  split; lra.
Qed.

Lemma binary64_near (x : Q) :
  (0 <= x)%Q ->
  (x - x * unit_roundoff <= binary64 x /\ binary64 x <= x + x * unit_roundoff)%Q.
Proof.
  intros Hx. unfold binary64.
  destruct (Qcompare x 0) eqn:E.
  - apply Qeq_alt in E. rewrite E. split; lra.
  - apply Qlt_alt in E. lra.
  - apply Qgt_alt in E. now apply binary64_positive_near.
Qed.

(** ** The rounded rate *)

(** [Math.round(x)] is within one half of [x], halves going up. *)
Lemma Math_round_near (x : Q) :
  (x - (1 # 2) < inject_Z (Math_round x) /\ inject_Z (Math_round x) <= x + (1 # 2))%Q.
Proof.
  unfold Math_round.
  pose proof (Qfloor_le (x + (1 # 2))) as Hle.
  pose proof (Qlt_floor (x + (1 # 2))) as Hlt.
  rewrite inject_Z_plus in Hlt. change (inject_Z 1) with 1%Q in Hlt.
  set (n := inject_Z (Qfloor (x + (1 # 2)))) in *.
  split; lra.
Qed.

Lemma Math_round_bounds (x : Q) (lo hi : Z) :
  (inject_Z lo <= x)%Q -> (x < inject_Z hi + (1 # 2))%Q ->
  lo <= Math_round x /\ Math_round x <= hi.
Proof.
  intros Hlo Hhi. unfold Math_round. split.
  - rewrite <- (Qfloor_Z lo). apply Qfloor_resp_le. lra.
  - assert (H : (inject_Z (Qfloor (x + (1 # 2))) < inject_Z (hi + 1))%Q).
    { eapply Qle_lt_trans; [apply Qfloor_le|].
      rewrite inject_Z_plus. change (inject_Z 1) with 1%Q. lra. }
    rewrite <- Zlt_Qlt in H. lia.
Qed.

Lemma roundedSuccessRate_nonpositive agg :
  agg_total agg <= 0 -> roundedSuccessRate agg = 0%Q.
Proof.
  intros H. unfold roundedSuccessRate.
  destruct (agg_total agg >? 0) eqn:E; [apply Z.gtb_lt in E; lia|].
  reflexivity.
Qed.

Lemma roundedSuccessRate_positive agg :
  0 < agg_total agg ->
  roundedSuccessRate agg
  = binary64
      (inject_Z
         (Math_round
            (binary64
               (binary64
                  (binary64 (inject_Z (agg_passed agg) / inject_Z (agg_total agg))
                   * 100) * 100)))
       / 100)%Q.
Proof.
  intros H. unfold roundedSuccessRate.
  destruct (agg_total agg >? 0) eqn:E; [reflexivity|].
  apply Z.gtb_lt in H. congruence.
Qed.

(** The steps of the computation for consistent counts: the rounded ratio,
    the rate, the rate in hundredths and the rounded number of hundredths. *)
Lemma rate_steps (p t : Z) :
  0 <= p -> p <= t -> 0 < t ->
  let exact := (inject_Z p / inject_Z t * 100)%Q in
  let hundredths :=
    Math_round (binary64 (binary64 (binary64 (inject_Z p / inject_Z t) * 100) * 100)) in
  0 <= hundredths <= 10000
  /\ (exact * 100 - (1 # 2) - (1 # 100000000000) <= inject_Z hundredths)%Q
  /\ (inject_Z hundredths <= exact * 100 + (1 # 2) + (1 # 100000000000))%Q.
Proof.
  intros H0 Hle Hpos exact hundredths.
  assert (Ht : (0 < inject_Z t)%Q).
  { change 0%Q with (inject_Z 0). now rewrite <- Zlt_Qlt. }
  assert (Hp : (0 <= inject_Z p)%Q).
  { change 0%Q with (inject_Z 0). now rewrite <- Zle_Qle. }
  assert (Hpt : (inject_Z p <= inject_Z t)%Q) by now rewrite <- Zle_Qle.
  assert (Hq : (0 <= inject_Z p / inject_Z t /\ inject_Z p / inject_Z t <= 1)%Q).
  { split.
    - apply Qle_shift_div_l; [exact Ht|]. now rewrite Qmult_0_l.
    - apply Qle_shift_div_r; [exact Ht|]. now rewrite Qmult_1_l. }
  unfold hundredths, exact.
  set (q := (inject_Z p / inject_Z t)%Q) in *. clearbody q.
  destruct Hq as [Hq0 Hq1].
  destruct (binary64_near q Hq0) as [A1 A2].
  set (q1 := binary64 q) in *. clearbody q1.
  unfold unit_roundoff in *.
  assert (Hq1' : (0 <= q1 * 100)%Q) by lra.
  destruct (binary64_near (q1 * 100) Hq1') as [B1 B2].
  set (q2 := binary64 (q1 * 100)) in *. clearbody q2.
  unfold unit_roundoff in *.
  assert (Hq2' : (0 <= q2 * 100)%Q) by lra.
  destruct (binary64_near (q2 * 100) Hq2') as [C1 C2].
  set (q3 := binary64 (q2 * 100)) in *. clearbody q3.
  unfold unit_roundoff in *.
  destruct (Math_round_near q3) as [D1 D2].
  destruct (Math_round_bounds q3 0 10000) as [E1 E2].
  { change (inject_Z 0) with 0%Q. lra. }
  { change (inject_Z 10000) with 10000%Q. lra. }
  split; [lia|]. split; lra.
Qed.

(** The rounded rate of consistent counts is a percentage. *)
Lemma roundedSuccessRate_bounds agg :
  0 <= agg_passed agg -> agg_passed agg <= agg_total agg ->
  (0 <= roundedSuccessRate agg /\ roundedSuccessRate agg <= 100)%Q.
Proof.
  intros H0 Hle.
  destruct (Z.lt_ge_cases 0 (agg_total agg)) as [Hpos|Hnon].
  - rewrite (roundedSuccessRate_positive _ Hpos).
    destruct (rate_steps _ _ H0 Hle Hpos) as ([Hn0 Hn1] & _).
    cbv zeta in Hn0, Hn1.
    set (n := Math_round _) in *. clearbody n.
    destruct (Z.eq_dec n 10000) as [->|Hne].
    + vm_compute. split; discriminate.
    + assert (Hq0 : (0 <= inject_Z n)%Q).
      { change 0%Q with (inject_Z 0). now rewrite <- Zle_Qle. }
      assert (Hq1 : (inject_Z n <= 9999)%Q).
      { change 9999%Q with (inject_Z 9999). rewrite <- Zle_Qle. lia. }
      assert (E : (inject_Z n / 100 == inject_Z n * (1 # 100))%Q)
        by (unfold Qdiv; reflexivity).
      assert (Hx : (0 <= inject_Z n / 100)%Q) by (rewrite E; lra).
      destruct (binary64_near _ Hx) as [A1 A2].
      set (r := binary64 (inject_Z n / 100)) in *. clearbody r.
      rewrite E in A1, A2. unfold unit_roundoff in *.
      set (x := inject_Z n) in *. clearbody x. split; lra.
  - rewrite (roundedSuccessRate_nonpositive _ Hnon). split; lra.
Qed.

(** The rounded rate of consistent counts lies within half a hundredth, and
    one part in [10^12], of the exact percentage. *)
Lemma roundedSuccessRate_near agg :
  0 <= agg_passed agg -> agg_passed agg <= agg_total agg -> 0 < agg_total agg ->
  let exact := ((inject_Z (agg_passed agg) / inject_Z (agg_total agg)) * 100)%Q in
  (exact - (1 # 200) - (1 # 1000000000000) <= roundedSuccessRate agg
   /\ roundedSuccessRate agg <= exact + (1 # 200) + (1 # 1000000000000))%Q.
Proof.
  intros H0 Hle Hpos exact.
  rewrite (roundedSuccessRate_positive _ Hpos).
  destruct (rate_steps _ _ H0 Hle Hpos) as ([Hn0 Hn1] & Hlo & Hhi).
  cbv zeta in Hn0, Hn1, Hlo, Hhi. fold exact in Hlo, Hhi.
  set (n := Math_round _) in *. clearbody n. clearbody exact.
  assert (Hq0 : (0 <= inject_Z n)%Q).
  { change 0%Q with (inject_Z 0). now rewrite <- Zle_Qle. }
  assert (Hq1 : (inject_Z n <= 10000)%Q).
  { change 10000%Q with (inject_Z 10000). rewrite <- Zle_Qle. lia. }
  assert (E : (inject_Z n / 100 == inject_Z n * (1 # 100))%Q)
    by (unfold Qdiv; reflexivity).
  assert (Hx : (0 <= inject_Z n / 100)%Q) by (rewrite E; lra).
  destruct (binary64_near _ Hx) as [A1 A2].
  set (r := binary64 (inject_Z n / 100)) in *. clearbody r.
  rewrite E in A1, A2. unfold unit_roundoff in *.
  set (x := inject_Z n) in *. clearbody x. split; lra.
Qed.


(** On the primitive numbers the day with 7 tests of which 5 passed gets the
    number that [71.43] denotes, the binary64 nearest to 7143 / 100
    (truncation would give the one nearest to 7142 / 100); a day with 20000
    tests of which 1 passed, whose exact rate in hundredths is one half, gets
    [0.01]; a day without tests gets 0. *)
Lemma roundedSuccessRate_binary64_examples :
  roundedSuccessRate_binary64 {| agg_total := 7; agg_passed := 5; agg_failed := 2 |}
  = Some (PrimFloat.div (Number_of_Z 7143) (Number_of_Z 100))
  /\ roundedSuccessRate_binary64
       {| agg_total := 20000; agg_passed := 1; agg_failed := 0 |}
     = Some (PrimFloat.div (Number_of_Z 1) (Number_of_Z 100))
  /\ roundedSuccessRate_binary64 {| agg_total := 0; agg_passed := 0; agg_failed := 0 |}
     = Some (Number_of_Z 0).
Proof. repeat split; vm_compute; reflexivity. Qed.

(** [roundedSuccessRate] and the evaluation on the primitive numbers agree
    on every day with at most 64 tests, and on every day with 160, with 200
    and with 1000 tests. *)
Lemma roundedSuccessRate_agrees_with_primitive :
  rates_agree_upto 64 = true
  /\ forallb rates_agree_on [160%nat; 200%nat; 1000%nat] = true.
Proof. split; vm_compute; reflexivity. Qed.

Section TrendProperties.

Variable format_yyyy_MM_dd : Z -> string.
Variable localeCompare : string -> string -> Z.

Lemma generateHistoricalTrendData_eq realm allureReports :
  generateHistoricalTrendData format_yyyy_MM_dd localeCompare realm allureReports
  = (reportsByDate <-
       reduce (reportsByDate_step format_yyyy_MM_dd realm) allureReports [] ;;
     Returns
       (map trend_point
          (Array_sort (fun a b => inject_Z (localeCompare (fst a) (fst b)))
             (Object_entries reportsByDate)))).
Proof.
  unfold generateHistoricalTrendData. now destruct allureReports.
Qed.

(** Every trend point is computed from one group of records. *)
Lemma trend_point_origin realm allureReports out p :
  generateHistoricalTrendData format_yyyy_MM_dd localeCompare realm allureReports
  = Returns out ->
  In p out ->
  exists reportsByDate reports,
    reduce (reportsByDate_step format_yyyy_MM_dd realm) allureReports []
    = Returns reportsByDate
    /\ In (date p, reports) reportsByDate
    /\ totalTests p = agg_total (aggregate reports)
    /\ passedTests p = agg_passed (aggregate reports)
    /\ failedTests p = agg_failed (aggregate reports)
    /\ successRate p = roundedSuccessRate (aggregate reports).
Proof.
  rewrite generateHistoricalTrendData_eq.
  destruct (reduce (reportsByDate_step format_yyyy_MM_dd realm) allureReports [])
    as [reportsByDate|e]; simpl; [|discriminate].
  intros [= <-] Hin. apply in_map_iff in Hin.
  destruct Hin as ([d reports] & <- & Hin).
  apply (proj1 (Array_sort_In _ _ _)) in Hin.
  apply (proj1 (Object_entries_In _ _)) in Hin.
  exists reportsByDate, reports. simpl. repeat split; auto.
Qed.

(** C7, as the code has it.  The success rate of a trend point is 0 when the
    day has no tests; otherwise it is [Math.round(rate * 100) / 100] with
    every operation rounded to binary64.  For consistent counts it lies
    within half a hundredth, and one part in [10^12], of the exact
    percentage.  For a day with 7 tests of which 5 passed it is the number
    71.43.  For a day with 160 tests of which 23 passed the exact percentage
    is 14.375, which rounds to 14.38; the product [rate * 100] comes out
    below 1437.5 and the code returns the number 14.37, the value that
    truncation would give. *)
Theorem trend_successRate_binary64 :
  forall realm allureReports out p,
    generateHistoricalTrendData format_yyyy_MM_dd localeCompare realm allureReports
    = Returns out ->
    In p out ->
    let ratio := (inject_Z (passedTests p) / inject_Z (totalTests p))%Q in
    (totalTests p <= 0 -> successRate p = 0%Q)
    /\ (0 < totalTests p ->
        successRate p
        = binary64
            (inject_Z
               (Math_round (binary64 (binary64 (binary64 ratio * 100) * 100)))
             / 100))
    /\ (0 < totalTests p -> 0 <= passedTests p -> passedTests p <= totalTests p ->
        (ratio * 100 - (1 # 200) - (1 # 1000000000000) <= successRate p)%Q
        /\ (successRate p <= ratio * 100 + (1 # 200) + (1 # 1000000000000))%Q)
    /\ (totalTests p = 7 -> passedTests p = 5 ->
        successRate p = binary64 (7143 # 100))
    /\ (totalTests p = 160 -> passedTests p = 23 ->
        successRate p = binary64 (1437 # 100)
        /\ (ratio * 100 == 14375 # 1000)%Q
        /\ (binary64 (binary64 (binary64 ratio * 100) * 100) < 14375 # 10)%Q
        /\ (spec_successRatePercent (passedTests p) (totalTests p) == 1438 # 100)%Q
        /\ (successRate p
            < spec_successRatePercent (passedTests p) (totalTests p) - (1 # 200))%Q).
Proof.
  intros realm allureReports out p Hout Hin ratio.
  destruct (trend_point_origin _ _ _ _ Hout Hin)
    as (_ & reports & _ & _ & Ht & Hp & _ & Hs).
  unfold ratio. rewrite Hs, Ht, Hp. split; [|split; [|split; [|split]]].
  - intros H0. now apply roundedSuccessRate_nonpositive.
  - intros Hpos. now apply roundedSuccessRate_positive.
  - intros Hpos H0 Hle. now apply roundedSuccessRate_near.
  - intros H7 H5. rewrite roundedSuccessRate_positive by lia.
    rewrite H7, H5. vm_compute. reflexivity.
  - intros H160 H23. rewrite roundedSuccessRate_positive by lia.
    rewrite H160, H23. repeat split; vm_compute; reflexivity.
Qed.

End TrendProperties.

(** The day of [half_hundredth_reports] has 160 tests of which 23 passed:
    the trend shows the number 14.37 where rounding 14.375 gives 14.38. *)
Lemma trend_successRate_binary64_witness :
  generateHistoricalTrendData utc_yyyy_MM_dd bytewise_localeCompare pristine
    half_hundredth_reports
  = Returns
      [ {| date := "1970-01-01"; totalTests := 160; passedTests := 23;
           failedTests := 137; successRate := binary64 (1437 # 100) |} ]
  /\ (spec_successRatePercent 23 160 == 1438 # 100)%Q
  /\ (binary64 (1437 # 100) < spec_successRatePercent 23 160 - (1 # 200))%Q.
Proof.
  assert (Hout :
    generateHistoricalTrendData utc_yyyy_MM_dd bytewise_localeCompare pristine
      half_hundredth_reports
    = Returns
        [ {| date := "1970-01-01"; totalTests := 160; passedTests := 23;
             failedTests := 137; successRate := binary64 (1437 # 100) |} ]).
  { vm_compute. reflexivity. }
  split; [exact Hout|].
  destruct (trend_successRate_binary64 utc_yyyy_MM_dd bytewise_localeCompare
              pristine half_hundredth_reports _
              {| date := "1970-01-01"; totalTests := 160; passedTests := 23;
                 failedTests := 137; successRate := binary64 (1437 # 100) |}
              Hout (or_introl eq_refl))
    as (_ & _ & _ & _ & H160).
  destruct (H160 eq_refl eq_refl) as (_ & _ & _ & Hspec & Hbelow).
  split; [exact Hspec | exact Hbelow].
Defined.

Lemma summarised_on_snoc format_yyyy_MM_dd d seen r :
  summarised_on format_yyyy_MM_dd d (seen ++ [r])
  = (summarised_on format_yyyy_MM_dd d seen
     ++ if has_summary r && String.eqb (format_yyyy_MM_dd (lastUpdated r)) d
        then [r] else [])%list.
Proof.
  unfold summarised_on. rewrite filter_app. simpl.
  now destruct (has_summary r && String.eqb (format_yyyy_MM_dd (lastUpdated r)) d).
Qed.

Lemma Qle_bool_inject_Z z : Qle_bool (inject_Z z) 0 = true <-> z <= 0.
Proof.
  rewrite Qle_bool_iff. unfold Qle. simpl. lia.
Qed.

Lemma StronglySorted_map {A B : Type} (R : A -> A -> Prop) (S : B -> B -> Prop)
    (f : A -> B) xs :
  (forall a b, R a b -> S (f a) (f b)) ->
  StronglySorted R xs -> StronglySorted S (map f xs).
Proof.
  intros H. induction 1 as [|x xs Hs IH Hall]; simpl; constructor; [exact IH|].
  rewrite Forall_forall in *. intros y Hy. apply in_map_iff in Hy.
  destruct Hy as (a & <- & Ha). now apply H, Hall.
Qed.

Section TrendGrouping.

Variable format_yyyy_MM_dd : Z -> string.
Variable localeCompare : string -> string -> Z.

(** A formatted day is never a key under which an object literal finds
    something inherited. *)
Hypothesis format_not_shadowable :
  forall millis, shadowable (format_yyyy_MM_dd millis) = false.

(** The collation is a total preorder. *)
Hypothesis localeCompare_total :
  forall a b, 0 < localeCompare a b -> localeCompare b a <= 0.
Hypothesis localeCompare_trans :
  forall a b c,
    localeCompare a b <= 0 -> localeCompare b c <= 0 -> localeCompare a c <= 0.

Lemma reportsByDate_step_invariant realm seen acc r :
  groups_invariant format_yyyy_MM_dd seen acc ->
  exists acc',
    reportsByDate_step format_yyyy_MM_dd realm acc r = Returns acc'
    /\ groups_invariant format_yyyy_MM_dd (seen ++ [r]) acc'.
Proof.
  intros [Hnd Hget]. unfold reportsByDate_step.
  destruct (summary r) as [s|] eqn:Hs.
  - set (k := format_yyyy_MM_dd (lastUpdated r)).
    assert (Hinv : forall group,
      summarised_on format_yyyy_MM_dd k (seen ++ [r]) = group ->
      group <> [] ->
      groups_invariant format_yyyy_MM_dd (seen ++ [r]) (own_set k group acc)).
    { intros group Hgroup Hne. split; [now apply own_set_NoDup|].
      intros k'. destruct (String.eqb_spec k' k) as [->|Hk].
      - rewrite own_get_set_same, Hgroup. now destruct group.
      - rewrite (own_get_set_other _ _ _ _ Hk), Hget, summarised_on_snoc.
        fold k. destruct (String.eqb_spec k k') as [E|_]; [now elim Hk|].
        now rewrite andb_false_r, app_nil_r. }
    assert (Hk : summarised_on format_yyyy_MM_dd k (seen ++ [r])
                 = (summarised_on format_yyyy_MM_dd k seen ++ [r])%list).
    { rewrite summarised_on_snoc. fold k. unfold has_summary.
      now rewrite Hs, String.eqb_refl. }
    unfold push_under, js_get. rewrite (Hget k).
    destruct (summarised_on format_yyyy_MM_dd k seen) as [|r0 group] eqn:Hseen.
    + pose proof (@inherited_shadowed (list AllureReportData) realm k) as Hsh.
      assert (Hno : shadowed realm k = false).
      { destruct (shadowed realm k) eqn:E; [|reflexivity].
        apply shadowed_shadowable in E. unfold k in E.
        now rewrite format_not_shadowable in E. }
      destruct (inherited realm k); try congruence; try contradiction;
        (eexists; split; [reflexivity|]; apply Hinv; [exact Hk | discriminate]).
    + eexists. split; [reflexivity|]. apply Hinv; [exact Hk | discriminate].
  - exists acc. split; [reflexivity|]. split; [exact Hnd|].
    intros k. rewrite Hget, summarised_on_snoc. unfold has_summary. rewrite Hs.
    simpl. now rewrite app_nil_r.
Qed.

Lemma reduce_reportsByDate_invariant realm allureReports :
  forall seen acc,
    groups_invariant format_yyyy_MM_dd seen acc ->
    exists acc',
      reduce (reportsByDate_step format_yyyy_MM_dd realm) allureReports acc
      = Returns acc'
      /\ groups_invariant format_yyyy_MM_dd (seen ++ allureReports) acc'.
Proof.
  induction allureReports as [|r rs IH]; intros seen acc Hinv.
  - exists acc. now rewrite app_nil_r.
  - destruct (reportsByDate_step_invariant realm seen acc r Hinv)
      as (acc1 & Hstep & Hinv1).
    destruct (IH _ _ Hinv1) as (acc' & Hred & Hinv').
    exists acc'. cbn [reduce]. rewrite Hstep. simpl. split; [exact Hred|].
    now rewrite <- app_assoc in Hinv'.
Qed.



End TrendGrouping.

(** ** The reference instances satisfy the assumptions *)

Lemma contains_char_app c a b :
  contains_char c (a ++ b) = contains_char c a || contains_char c b.
Proof.
  induction a as [|c' a IH]; simpl; [reflexivity|].
  rewrite IH. now rewrite orb_assoc.
Qed.

Lemma shadowable_no_dash s : shadowable s = true -> contains_char "-" s = false.
Proof.
  unfold shadowable. intros H. apply orb_true_iff in H. destruct H as [H|H].
  - apply existsb_exists in H. destruct H as (n & Hin & E).
    apply String.eqb_eq in E. subst n. simpl in Hin.
    repeat (destruct Hin as [<-|Hin]; [reflexivity|]). contradiction.
  - apply String.eqb_eq in H. now subst s.
Qed.

Lemma utc_yyyy_MM_dd_not_shadowable millis :
  shadowable (utc_yyyy_MM_dd millis) = false.
Proof.
  destruct (shadowable (utc_yyyy_MM_dd millis)) eqn:E; [|reflexivity].
  apply shadowable_no_dash in E. unfold utc_yyyy_MM_dd in E.
  destruct (civil_from_days (millis / 86400000)) as [[y m] d].
  rewrite contains_char_app in E. simpl in E.
  now rewrite orb_true_r in E.
Qed.

Lemma String_compare_not_Gt_trans a :
  forall b c,
    String.compare a b <> Gt -> String.compare b c <> Gt ->
    String.compare a c <> Gt.
Proof.
  induction a as [|x a IH]; intros [|y b] [|z c]; simpl; try congruence.
  unfold Ascii.compare.
  destruct (N.compare_spec (N_of_ascii x) (N_of_ascii y)) as [Exy|Lxy|Gxy];
    destruct (N.compare_spec (N_of_ascii y) (N_of_ascii z)) as [Eyz|Lyz|Gyz];
    destruct (N.compare_spec (N_of_ascii x) (N_of_ascii z)) as [Exz|Lxz|Gxz];
    try congruence; try lia.
  apply IH.
Qed.

Lemma bytewise_localeCompare_le a b :
  bytewise_localeCompare a b <= 0 <-> String.compare a b <> Gt.
Proof.
  unfold bytewise_localeCompare.
  destruct (String.compare a b); split; intros H; try lia; congruence.
Qed.

Lemma bytewise_localeCompare_total a b :
  0 < bytewise_localeCompare a b -> bytewise_localeCompare b a <= 0.
Proof.
  unfold bytewise_localeCompare. rewrite (String.compare_antisym b a).
  destruct (String.compare a b); simpl; lia.
Qed.

Lemma bytewise_localeCompare_trans a b c :
  bytewise_localeCompare a b <= 0 -> bytewise_localeCompare b c <= 0 ->
  bytewise_localeCompare a c <= 0.
Proof.
  rewrite !bytewise_localeCompare_le. apply String_compare_not_Gt_trans.
Qed.



(** * Further properties *)

(** ** The two reads of a fetch are independent *)

(** X1.  For a build whose URL resolves, the summary of the record depends
    on the HTTP client only through its answer at the summary end point of
    that build, and the results only through its answer at the detail end
    point: two clients that agree on one end point give the same value for
    that field, whatever they do on the other. *)
Theorem getAllureReportData_reads_independent :
  forall URL_pathname this this' now config bi,
    parseBuildUrl URL_pathname (buildUrl config) = Some bi ->
    exists r r',
      getAllureReportData URL_pathname this now config = Fulfilled r
      /\ getAllureReportData URL_pathname this' now config = Fulfilled r'
      /\ (get_summary_json (axiosInstance this) (summary_json_path bi)
          = get_summary_json (axiosInstance this') (summary_json_path bi) ->
          summary r = summary r')
      /\ (get_testresult_json (axiosInstance this) (testresult_json_path bi)
          = get_testresult_json (axiosInstance this') (testresult_json_path bi) ->
          results r = results r').
Proof.
  intros URL_pathname this this' now config bi Hp.
  destruct (getAllureReportData_try_branch URL_pathname this now config)
    as (s & rs & Hs & Hr & E).
  destruct (getAllureReportData_try_branch URL_pathname this' now config)
    as (s' & rs' & Hs' & Hr' & E').
  rewrite (getAllureSummary_resolved _ this _ _ Hp) in Hs.
  rewrite (getAllureSummary_resolved _ this' _ _ Hp) in Hs'.
  rewrite (getAllureResults_resolved _ this _ _ Hp) in Hr.
  rewrite (getAllureResults_resolved _ this' _ _ Hp) in Hr'.
  eexists. eexists. split; [exact E|]. split; [exact E'|]. simpl. split.
  - intros H. rewrite H in Hs. congruence.
  - intros H. rewrite H in Hr. congruence.
Qed.

(** A client that serves only the summary and one that serves both give the
    same summary for the build [ui-tests] 42. *)
Lemma getAllureReportData_reads_independent_witness :
  parseBuildUrl simple_URL_pathname
    (buildUrl (config_of_url "http://jenkins/job/ui-tests/42/"))
  = Some {| bi_jobName := "ui-tests"; bi_buildNumber := 42 |}
  /\ exists r r',
       getAllureReportData simple_URL_pathname summary_only_service 0
         (config_of_url "http://jenkins/job/ui-tests/42/") = Fulfilled r
       /\ getAllureReportData simple_URL_pathname full_service 0
            (config_of_url "http://jenkins/job/ui-tests/42/") = Fulfilled r'
       /\ summary r = summary r'.
Proof.
  split; [reflexivity|].
  destruct (getAllureReportData_reads_independent simple_URL_pathname
              summary_only_service full_service 0
              (config_of_url "http://jenkins/job/ui-tests/42/")
              {| bi_jobName := "ui-tests"; bi_buildNumber := 42 |} eq_refl)
    as (r & r' & Hr & Hr' & Hsum & _).
  exists r, r'. split; [exact Hr|]. split; [exact Hr'|]. now apply Hsum.
Defined.

(** ** The links of a build *)

Lemma string_app_assoc (a b c : string) : (a ++ b) ++ c = a ++ (b ++ c).
Proof. induction a as [|x a IH]; simpl; [reflexivity | now rewrite IH]. Qed.

(** X2.  The report link, the console link and the workspace link of a
    build URL that resolves lie under one and the same build path
    [{base}/job/{encodeURIComponent(job)}/{n}/]; for a build URL that does
    not resolve, all three links are the build URL itself. *)
Theorem build_links_share_build_path :
  forall URL_pathname this url,
    match parseBuildUrl URL_pathname url with
    | Some bi =>
        let build_path :=
          baseURL this ++ "/job/" ++ encodeURIComponent (bi_jobName bi) ++ "/"
            ++ Number_toString (bi_buildNumber bi) ++ "/" in
        getAllureReportUrl URL_pathname this url = build_path ++ "allure/"
        /\ getBuildConsoleUrl URL_pathname this url = build_path ++ "console"
        /\ getBuildWorkspaceUrl URL_pathname this url = build_path ++ "ws/"
    | None =>
        getAllureReportUrl URL_pathname this url = url
        /\ getBuildConsoleUrl URL_pathname this url = url
        /\ getBuildWorkspaceUrl URL_pathname this url = url
    end.
Proof.
  intros URL_pathname this url.
  unfold getAllureReportUrl, getBuildConsoleUrl, getBuildWorkspaceUrl.
  destruct (parseBuildUrl URL_pathname url) as [bi|]; [|auto].
  cbv zeta. rewrite !string_app_assoc. repeat split.
Qed.

(** ** Printing and reading a build number *)

Lemma decimal_value_positive d :
  forall acc, decimal_value d (Zpos acc) = Zpos (Pos.of_uint_acc d acc).
Proof.
  induction d as [|d IH|d IH|d IH|d IH|d IH|d IH|d IH|d IH|d IH|d IH];
    intros acc; cbn [decimal_value Pos.of_uint_acc]; [reflexivity|..];
    rewrite <- IH; f_equal; lia.
Qed.

Lemma decimal_value_of_uint d : decimal_value d 0 = Z.of_N (Pos.of_uint d).
Proof.
  induction d as [|d IH|d IH|d IH|d IH|d IH|d IH|d IH|d IH|d IH|d IH];
    simpl; [reflexivity | exact IH |..];
    apply (decimal_value_positive d).
Qed.

Lemma parse_digits_decimal d :
  forall acc,
    parse_digits 10 (Some acc) (NilEmpty.string_of_uint d)
    = Some (decimal_value d acc).
Proof.
  induction d as [|d IH|d IH|d IH|d IH|d IH|d IH|d IH|d IH|d IH|d IH];
    intros acc; [reflexivity|..];
    cbn [NilEmpty.string_of_uint parse_digits decimal_value];
    match goal with
    | |- context [digit_value 10 ?c] =>
        let v := eval vm_compute in (digit_value 10 c) in
        change (digit_value 10 c) with v
    end; cbv iota; apply IH.
Qed.

Lemma parse_digits_decimal_start d :
  d <> Decimal.Nil ->
  parse_digits 10 None (NilEmpty.string_of_uint d) = Some (decimal_value d 0).
Proof.
  intros Hd. rewrite <- parse_digits_decimal.
  destruct d; [contradiction|..]; reflexivity.
Qed.

Lemma parseInt_decimal d :
  d <> Decimal.Nil ->
  parseInt (NilEmpty.string_of_uint d) = Some (decimal_value d 0).
Proof.
  intros Hd.
  assert (E : parseInt (NilEmpty.string_of_uint d)
              = option_map (Z.mul 1)
                  (parse_digits 10 None (NilEmpty.string_of_uint d))).
  { destruct d as [|d|d|d|d|d|d|d|d|d|d]; [contradiction|..];
      destruct d; reflexivity. }
  rewrite E, (parse_digits_decimal_start _ Hd). cbn [option_map].
  apply f_equal. lia.
Qed.

Lemma parseInt_minus_decimal d :
  d <> Decimal.Nil ->
  parseInt (String "-" (NilEmpty.string_of_uint d)) = Some (- decimal_value d 0).
Proof.
  intros Hd.
  assert (E : parseInt (String "-" (NilEmpty.string_of_uint d))
              = option_map (Z.mul (-1))
                  (parse_digits 10 None (NilEmpty.string_of_uint d))).
  { destruct d as [|d|d|d|d|d|d|d|d|d|d]; [contradiction|..];
      destruct d; reflexivity. }
  rewrite E, (parse_digits_decimal_start _ Hd). cbn [option_map].
  apply f_equal. lia.
Qed.

Lemma string_of_uint_nonnil d :
  d <> Decimal.Nil -> NilZero.string_of_uint d = NilEmpty.string_of_uint d.
Proof. now destruct d. Qed.

(** Reading what was printed gives the number back (in the source for the
    safe integers, where printing and reading are exact). *)
Lemma parseInt_Number_toString n : parseInt (Number_toString n) = Some n.
Proof.
  unfold Number_toString. destruct n as [|p|p]; [reflexivity|..]; simpl.
  - rewrite (string_of_uint_nonnil _ (DecimalPos.Unsigned.to_uint_nonnil p)).
    rewrite (parseInt_decimal _ (DecimalPos.Unsigned.to_uint_nonnil p)).
    now rewrite decimal_value_of_uint, DecimalPos.Unsigned.of_to.
  - rewrite (string_of_uint_nonnil _ (DecimalPos.Unsigned.to_uint_nonnil p)).
    rewrite (parseInt_minus_decimal _ (DecimalPos.Unsigned.to_uint_nonnil p)).
    now rewrite decimal_value_of_uint, DecimalPos.Unsigned.of_to.
Qed.

(** ** Path segments *)

Lemma split_not_nil sep s : split sep s <> [].
Proof.
  destruct s as [|c s]; simpl; [discriminate|].
  destruct (Ascii.eqb c sep); [discriminate|].
  destruct (split sep s); discriminate.
Qed.

Lemma split_piece sep a b :
  contains_char sep a = false ->
  split sep (a ++ String sep b) = a :: split sep b.
Proof.
  induction a as [|c a IH]; simpl; intros H.
  - now rewrite Ascii.eqb_refl.
  - apply orb_false_iff in H. destruct H as [Hc Ha].
    rewrite Hc, (IH Ha). reflexivity.
Qed.

Lemma split_pieces_no_separator sep s piece :
  In piece (split sep s) -> contains_char sep piece = false.
Proof.
  revert piece. induction s as [|c s IH]; simpl; intros piece.
  - intros [<-|[]]. reflexivity.
  - destruct (Ascii.eqb c sep) eqn:Hc.
    + intros [<-|Hin]; [reflexivity | now apply IH].
    + destruct (split sep s) as [|p ps] eqn:Hs.
      * now destruct (split_not_nil sep s).
      * intros [<-|Hin]; simpl.
        -- rewrite Hc. apply IH. now left.
        -- apply IH. now right.
Qed.

Lemma encodeURIComponent_no_slash s :
  contains_char "/" (encodeURIComponent s) = false.
Proof.
  induction s as [|c s IH]; simpl; [reflexivity|].
  destruct (uri_unreserved c) eqn:Hc; cbn [contains_char].
  - rewrite IH, orb_false_r.
    destruct c as [[] [] [] [] [] [] [] []]; try reflexivity; discriminate Hc.
  - rewrite IH, orb_false_r.
    destruct c as [[] [] [] [] [] [] [] []]; reflexivity.
Qed.

Lemma encodeURIComponent_nonempty s :
  Boolean s = true -> Boolean (encodeURIComponent s) = true.
Proof.
  destruct s as [|c s]; simpl; [discriminate|].
  now destruct (uri_unreserved c).
Qed.

Lemma string_of_uint_no_slash d :
  contains_char "/" (NilEmpty.string_of_uint d) = false.
Proof. induction d; simpl; auto. Qed.

Lemma Number_toString_no_slash n :
  contains_char "/" (Number_toString n) = false.
Proof.
  unfold Number_toString.
  destruct n as [|p|p]; [reflexivity|..]; simpl;
    rewrite (string_of_uint_nonnil _ (DecimalPos.Unsigned.to_uint_nonnil p));
    apply string_of_uint_no_slash.
Qed.

Lemma Number_toString_nonempty n : Boolean (Number_toString n) = true.
Proof.
  unfold Number_toString.
  destruct n as [|p|p]; [reflexivity| |reflexivity]; simpl.
  pose proof (DecimalPos.Unsigned.to_uint_nonnil p) as H.
  now destruct (Pos.to_uint p).
Qed.

(** The segments of the path of a derived link. *)
Lemma derived_path_segments job number tail :
  Boolean job = true ->
  contains_char "/" job = false ->
  Boolean tail = true ->
  contains_char "/" tail = false ->
  filter Boolean
    (split "/" ("/job/" ++ job ++ "/" ++ Number_toString number ++ "/"
                  ++ tail ++ "/"))
  = ["job"; job; Number_toString number; tail].
Proof.
  intros Hj Hjs Ht Hts.
  change ("/job/" ++ job ++ "/" ++ Number_toString number ++ "/" ++ tail ++ "/")
    with ("" ++ String "/" ("job" ++ String "/" (job ++ String "/"
            (Number_toString number ++ String "/" (tail ++ String "/" ""))))).
  rewrite (split_piece "/" "") by reflexivity.
  rewrite (split_piece "/" "job") by reflexivity.
  rewrite (split_piece "/" job) by exact Hjs.
  rewrite (split_piece "/" _ _ (Number_toString_no_slash number)).
  rewrite (split_piece "/" tail) by exact Hts.
  cbn [split filter Boolean].
  now rewrite Hj, (Number_toString_nonempty number), Ht.
Qed.

Section LinkRoundTrip.

Variable URL_pathname : string -> option string.

(** What the resolver returns is a path segment: not empty and without a
    slash. *)
Lemma parseBuildUrl_jobName_segment url bi :
  parseBuildUrl URL_pathname url = Some bi ->
  Boolean (bi_jobName bi) = true /\ contains_char "/" (bi_jobName bi) = false.
Proof.
  unfold parseBuildUrl, new_URL_pathname.
  destruct (URL_pathname url) as [p|]; cbn [bind try_catch]; [|discriminate].
  set (pathParts := filter Boolean (split "/" p)).
  destruct (indexOf "job" pathParts) as [i|]; [|discriminate].
  destruct (Nat.ltb_spec (i + 2) (List.length pathParts)) as [Hlt|]; [|discriminate].
  destruct (parseInt _); [|discriminate].
  intros [= <-]. cbn [bi_jobName].
  assert (Hin : In (nth (i + 1) pathParts "") pathParts) by (apply nth_In; lia).
  apply filter_In in Hin. destruct Hin as [Hin Hb].
  split; [exact Hb|]. exact (split_pieces_no_separator _ _ _ Hin).
Qed.

(** Resolution of a path of the shape that the service writes. *)
Lemma parseBuildUrl_derived url job number tail :
  Boolean job = true ->
  contains_char "/" job = false ->
  Boolean tail = true ->
  contains_char "/" tail = false ->
  URL_pathname url
  = Some ("/job/" ++ job ++ "/" ++ Number_toString number ++ "/" ++ tail ++ "/") ->
  parseBuildUrl URL_pathname url
  = Some {| bi_jobName := job; bi_buildNumber := number |}.
Proof.
  intros Hj Hjs Ht Hts Hp.
  unfold parseBuildUrl, new_URL_pathname. rewrite Hp. cbn [bind try_catch].
  rewrite (derived_path_segments _ _ _ Hj Hjs Ht Hts).
  cbn [indexOf String.eqb Ascii.eqb Bool.eqb Nat.add List.length Nat.ltb Nat.leb nth].
  now rewrite parseInt_Number_toString.
Qed.

End LinkRoundTrip.

(** X3.  The report link that the service derives from a resolved build
    address is itself a build address.  For a build number that is a safe
    integer (below 2^53 in magnitude, where the number is printed with all
    its digits and read back exactly), whenever the URL parser gives back
    the path that was written into the link, the resolver reads from it the
    same build number and the percent-encoded job name. *)
Theorem report_link_resolves_to_same_build :
  forall (URL_pathname : string -> option string) (this : JenkinsApiService)
         (url : string) (bi : BuildInfo),
    parseBuildUrl URL_pathname url = Some bi ->
    Z.abs (bi_buildNumber bi) < 2 ^ 53 ->
    URL_pathname (getAllureReportUrl URL_pathname this url)
    = Some ("/job/" ++ encodeURIComponent (bi_jobName bi) ++ "/"
              ++ Number_toString (bi_buildNumber bi) ++ "/allure/") ->
    parseBuildUrl URL_pathname (getAllureReportUrl URL_pathname this url)
    = Some {| bi_jobName := encodeURIComponent (bi_jobName bi);
              bi_buildNumber := bi_buildNumber bi |}.
Proof.
  intros URL_pathname this url bi Hp Hsafe Hpath.
  destruct (parseBuildUrl_jobName_segment URL_pathname url bi Hp) as [Hb _].
  apply (parseBuildUrl_derived URL_pathname _ _ _ "allure");
    [ now apply encodeURIComponent_nonempty
    | apply encodeURIComponent_no_slash
    | reflexivity
    | reflexivity
    | exact Hpath ].
Qed.

Lemma report_link_resolves_to_same_build_witness :
  parseBuildUrl simple_URL_pathname
    (getAllureReportUrl simple_URL_pathname full_service
       "http://old-host/view/all/job/ui+tests/42/console")
  = Some {| bi_jobName := "ui%2Btests"; bi_buildNumber := 42 |}.
Proof.
  exact (report_link_resolves_to_same_build simple_URL_pathname full_service
           "http://old-host/view/all/job/ui+tests/42/console"
           {| bi_jobName := "ui+tests"; bi_buildNumber := 42 |}
           eq_refl eq_refl eq_refl).
Defined.

(** ** The process-wide service instance *)

Section SingletonProperties.

Variable URL_pathname : string -> option string.
Variable axios_create : AuthenticationConfig -> AxiosInstance.
Variable get_api_json : AxiosInstance -> Exc unit.
Variable Json : Type.
Variable json_null : Json.
Variable get_build_json : AxiosInstance -> string -> Exc Json.

Lemma getAllureReportsForBuilds_fulfilled this clock configs :
  exists records,
    getAllureReportsForBuilds URL_pathname this clock configs = Fulfilled records
    /\ List.length records = List.length configs
    /\ forall r, In r records -> status r = success.
Proof.
  unfold getAllureReportsForBuilds.
  set (ps := mapi _ O configs).
  destruct (Promise_all_of_fulfilled ps) as (records & E & Hps).
  { intros p Hp. apply In_mapi in Hp. destruct Hp as (i & c & ->).
    destruct (getAllureReportData_fulfilled URL_pathname this (clock i) c)
      as (r & Hr & _).
    now exists r. }
  exists records. split; [exact E|]. split.
  - rewrite <- (length_map Fulfilled records), <- Hps. apply length_mapi.
  - intros r Hr. apply (in_map Fulfilled) in Hr. rewrite <- Hps in Hr.
    apply In_mapi in Hr. destruct Hr as (i & c & Hr).
    destruct (getAllureReportData_fulfilled URL_pathname this (clock i) c)
      as (r' & Hr' & Hs & _).
    congruence.
Qed.

(** X4.  Before [initialize] has been called every one of the nine methods
    through which the shared service is used fails with the same error, the
    six asynchronous ones by rejecting and the three link builders by
    throwing, whatever the arguments; once it has been called none of them
    fails: the asynchronous ones are fulfilled, the batch with one record for
    each configuration, and the link builders return the links of the
    instance. *)
Theorem jenkinsService_needs_initialize :
  forall (instance : ServiceInstance) clock configs now config url,
    match instance with
    | None =>
        let e := ErrorObject "Jenkins service not initialized. Call initialize() first." in
        jenkinsService_getAllureSummary URL_pathname None url = Rejected e
        /\ jenkinsService_getAllureResults URL_pathname None url = Rejected e
        /\ jenkinsService_getAllureReportData URL_pathname None now config
           = Rejected e
        /\ jenkinsService_getAllureReportsForBuilds URL_pathname None clock configs
           = Rejected e
        /\ jenkinsService_testAuthentication get_api_json None = Rejected e
        /\ jenkinsService_getBuildInfo URL_pathname Json json_null get_build_json
             None url = Rejected e
        /\ jenkinsService_getAllureReportUrl URL_pathname None url = Throws e
        /\ jenkinsService_getBuildConsoleUrl URL_pathname None url = Throws e
        /\ jenkinsService_getBuildWorkspaceUrl URL_pathname None url = Throws e
    | Some service =>
        (exists s,
           jenkinsService_getAllureSummary URL_pathname (Some service) url
           = Fulfilled s)
        /\ (exists rs,
              jenkinsService_getAllureResults URL_pathname (Some service) url
              = Fulfilled rs)
        /\ (exists r,
              jenkinsService_getAllureReportData URL_pathname (Some service)
                now config = Fulfilled r)
        /\ (exists records,
              jenkinsService_getAllureReportsForBuilds URL_pathname (Some service)
                clock configs = Fulfilled records
              /\ List.length records = List.length configs)
        /\ (exists ok,
              jenkinsService_testAuthentication get_api_json (Some service)
              = Fulfilled ok)
        /\ (exists data,
              jenkinsService_getBuildInfo URL_pathname Json json_null get_build_json
                (Some service) url = Fulfilled data)
        /\ jenkinsService_getAllureReportUrl URL_pathname (Some service) url
           = Returns (getAllureReportUrl URL_pathname service url)
        /\ jenkinsService_getBuildConsoleUrl URL_pathname (Some service) url
           = Returns (getBuildConsoleUrl URL_pathname service url)
        /\ jenkinsService_getBuildWorkspaceUrl URL_pathname (Some service) url
           = Returns (getBuildWorkspaceUrl URL_pathname service url)
    end.
Proof.
  intros [service|] clock configs now config url.
  - split; [eexists; reflexivity|]. split; [eexists; reflexivity|].
    split.
    { destruct (getAllureReportData_fulfilled URL_pathname service now config)
        as (r & Hr & _).
      now exists r. }
    split.
    { destruct (getAllureReportsForBuilds_fulfilled service clock configs)
        as (records & E & Hlen & _).
      exists records. split; [exact E | exact Hlen]. }
    split; [eexists; reflexivity|]. split; [eexists; reflexivity|].
    repeat split.
  - repeat split.
Qed.

(** X5.  [updateAuth] does nothing while the service has not been
    initialised, and on an initialised service it leaves an instance with the
    base URL and the HTTP client that [initialize] with the same
    configuration creates: the links built afterwards start with the new base
    URL. *)
Theorem jenkinsService_updateAuth_as_initialize :
  forall (config config0 : AuthenticationConfig) (instance : ServiceInstance)
         (url : string),
    jenkinsService_updateAuth axios_create config None = None
    /\ jenkinsService_updateAuth axios_create config
         (snd (initialize axios_create config0 instance))
       = snd (initialize axios_create config instance)
    /\ jenkinsService_getAllureReportUrl URL_pathname
         (jenkinsService_updateAuth axios_create config
            (snd (initialize axios_create config0 instance))) url
       = Returns
           match parseBuildUrl URL_pathname url with
           | Some bi =>
               jenkinsBaseUrl config ++ "/job/" ++ encodeURIComponent (bi_jobName bi)
                 ++ "/" ++ Number_toString (bi_buildNumber bi) ++ "/allure/"
           | None => url
           end.
Proof.
  intros config config0 instance url. split; [reflexivity|]. split; [reflexivity|].
  cbn. unfold getAllureReportUrl. now destruct (parseBuildUrl URL_pathname url).
Qed.

(** X6.  The connection test of the configuration page.  With a session id
    and a base URL it replaces the shared service by one for the
    configuration under test whether or not the probe request succeeds, it
    reports success exactly when the probe is answered, and it never shows
    the connection-error message of its [catch] branch; without one of the
    two it shows the request for both and leaves the service and the
    progress flag as they were. *)
Theorem handleTestConnection_outcomes :
  forall (authConfig : AuthenticationConfig) (shown : ConnectionTest)
         (instance : ServiceInstance),
    let after := handleTestConnection axios_create get_api_json authConfig
                   shown instance in
    if Boolean (jsessionId authConfig) && Boolean (jenkinsBaseUrl authConfig)
    then
      snd after = Some (new_JenkinsApiService axios_create authConfig)
      /\ isTesting (fst after) = false
      /\ match get_api_json (axios_create authConfig) with
         | Returns _ =>
             testResult (fst after) = Some test_success
             /\ testMessage (fst after)
                = "Authentication successful! You can now add build configurations."
         | Throws _ =>
             testResult (fst after) = Some test_error
             /\ testMessage (fst after)
                = "Authentication failed. Please check your JSESSION ID and Jenkins URL."
         end
    else
      snd after = instance
      /\ isTesting (fst after) = isTesting shown
      /\ testResult (fst after) = Some test_error
      /\ testMessage (fst after)
         = "Please provide both JSESSION ID and Jenkins base URL".
Proof.
  intros authConfig shown instance. unfold handleTestConnection.
  destruct (Boolean (jsessionId authConfig)), (Boolean (jenkinsBaseUrl authConfig));
    cbn -[append]; try (repeat split; reflexivity).
  destruct (get_api_json (axios_create authConfig)); cbn -[append];
    repeat split; reflexivity.
Qed.

End SingletonProperties.

(** ** The environment rollup *)




Lemma generateEnvironmentMatrixData_eq realm allureReports :
  generateEnvironmentMatrixData realm allureReports
  = (reportsByEnvironment <-
       reduce
         (fun acc report =>
            push_under realm acc (environment_or_default report) report)
         allureReports [] ;;
     Returns
       (map
          (fun '(environment, reports) =>
             let aggregatedResults := aggregate reports in
             {| env_environment := environment;
                env_totalTests := agg_total aggregatedResults;
                env_passedTests := agg_passed aggregatedResults;
                env_failedTests := agg_failed aggregatedResults;
                env_successRate := roundedSuccessRate aggregatedResults |})
          (Object_entries reportsByEnvironment))).
Proof.
  unfold generateEnvironmentMatrixData. now destruct allureReports.
Qed.



Lemma In_own_set_keys {V : Type} k (v : V) o k' :
  In k' (map fst (own_set k v o)) -> k' = k \/ In k' (map fst o).
Proof.
  destruct (own_get k o) as [v0|] eqn:E.
  - rewrite (own_set_present _ _ _ _ E). now right.
  - rewrite (own_set_absent _ _ _ E), map_app, in_app_iff. simpl.
    intros [H|[<-|[]]]; [now right | now left].
Qed.

(** A successful grouping step was made under a key that finds nothing
    truthy on the prototype chain. *)
Lemma push_under_returns realm acc k report acc' :
  (forall k', In k' (map fst acc) -> shadowed realm k' = false) ->
  push_under realm acc k report = Returns acc' ->
  shadowed realm k = false
  /\ forall k', In k' (map fst acc') -> shadowed realm k' = false.
Proof.
  intros Hkeys. unfold push_under, js_get.
  assert (Hset : forall group,
    shadowed realm k = false ->
    forall k', In k' (map fst (own_set k group acc)) -> shadowed realm k' = false).
  { intros group Hk k' Hin. apply In_own_set_keys in Hin.
    destruct Hin as [->|Hin]; [exact Hk | now apply Hkeys]. }
  destruct (own_get k acc) as [reports|] eqn:Hown.
  - assert (Hk : shadowed realm k = false).
    { apply Hkeys. apply own_get_Some_In in Hown. now apply (in_map fst) in Hown. }
    intros [= <-]. split; [exact Hk | now apply Hset].
  - pose proof (@inherited_shadowed (list AllureReportData) realm k) as Hsh.
    destruct (inherited realm k); try discriminate; try contradiction;
      intros [= <-]; (split; [exact Hsh | now apply Hset]).
Qed.

Lemma reduce_push_under_throws realm (key : AllureReportData -> string)
    allureReports :
  forall acc r,
    (forall k, In k (map fst acc) -> shadowed realm k = false) ->
    In r allureReports ->
    shadowed realm (key r) = true ->
    exists e,
      reduce (fun acc report => push_under realm acc (key report) report)
             allureReports acc
      = Throws e.
Proof.
  induction allureReports as [|x rest IH]; intros acc r Hkeys Hin Hr; [easy|].
  cbn [reduce].
  destruct (push_under realm acc (key x) x) as [acc'|e] eqn:Hstep;
    [|now exists e].
  destruct (push_under_returns _ _ _ _ _ Hkeys Hstep) as [Hx Hkeys'].
  cbn [bind]. destruct Hin as [->|Hin]; [congruence|].
  exact (IH acc' r Hkeys' Hin Hr).
Qed.

(** X8.  The environment rollup throws as soon as one record has an
    environment under which an object literal inherits something truthy,
    such as [constructor] or [toString]: no row is produced for any
    environment. *)
Theorem generateEnvironmentMatrixData_throws_on_inherited_name :
  forall realm allureReports r,
    In r allureReports ->
    shadowed realm (environment_or_default r) = true ->
    exists e, generateEnvironmentMatrixData realm allureReports = Throws e.
Proof.
  intros realm allureReports r Hin Hr.
  rewrite generateEnvironmentMatrixData_eq.
  destruct (reduce_push_under_throws realm environment_or_default
              allureReports [] r) as (e & He); [intros k [] | exact Hin | exact Hr |].
  exists e. now rewrite He.
Qed.

Lemma generateEnvironmentMatrixData_throws_on_inherited_name_witness :
  exists e, generateEnvironmentMatrixData pristine constructor_reports = Throws e.
Proof.
  apply (generateEnvironmentMatrixData_throws_on_inherited_name pristine
           constructor_reports
           (in_env (Some "constructor")
              (example_report "ui-tests" 1000 (Some (example_summary 3 2 1)) []))).
  - right. left. reflexivity.
  - reflexivity.
Defined.

(** ** The last failure and the rate of a flaky test *)

Lemma latest_failure_next_run rs st t :
  latest_failure_is rs (stat_lastFailure st) ->
  latest_failure_is (rs ++ [t]) (stat_lastFailure (count_run t st)).
Proof.
  unfold latest_failure_is, count_run. rewrite failing_snoc.
  destruct (is_failure (run_status t)); cbn [stat_lastFailure];
    [|now rewrite app_nil_r].
  destruct (stat_lastFailure st) as [d|].
  - intros [(t0 & Hin & Ht0) Hall].
    destruct (Z.gtb_spec (run_timestamp t) d) as [Hgt|Hle].
    + split.
      * exists t. split; [|reflexivity]. apply in_or_app. right. now left.
      * intros t' Hin'. apply in_app_or in Hin'.
        destruct Hin' as [Hin'|[<-|[]]]; [|lia].
        specialize (Hall _ Hin'). lia.
    + split.
      * exists t0. split; [|exact Ht0]. apply in_or_app. now left.
      * intros t' Hin'. apply in_app_or in Hin'.
        destruct Hin' as [Hin'|[<-|[]]]; [now apply Hall | exact Hle].
  - intros ->. split.
    + exists t. split; [now left | reflexivity].
    + intros t' [<-|[]]. lia.
Qed.

Lemma testStats_step_latest tests acc realm t :
  stats_invariant tests acc realm ->
  latest_invariant tests acc ->
  latest_invariant (tests ++ [t]) (fst (testStats_step (acc, realm) t)).
Proof.
  intros (Hnd & Hown & Hnone) Hlatest. unfold testStats_step.
  set (k := run_testName t).
  assert (Hother : forall k' st,
    k' <> k -> own_get k' acc = Some st ->
    latest_failure_is (runs_of k' (tests ++ [t])) (stat_lastFailure st)).
  { intros k' st Hne Hget.
    rewrite runs_of_snoc_other by (intros E; apply Hne; now rewrite <- E).
    now apply Hlatest. }
  assert (Hset : forall entry,
    latest_failure_is (runs_of k (tests ++ [t])) (stat_lastFailure entry) ->
    latest_invariant (tests ++ [t]) (own_set k entry acc)).
  { intros entry Hentry k' st.
    destruct (String.eqb_spec k' k) as [->|Hne].
    - rewrite own_get_set_same. now intros [= <-].
    - rewrite (own_get_set_other _ _ _ _ Hne). now apply Hother. }
  assert (Hkeep : own_get k acc = None -> latest_invariant (tests ++ [t]) acc).
  { intros Hk k' st Hget. apply Hother; [|exact Hget]. congruence. }
  destruct (own_get k acc) as [entry|] eqn:Hk.
  - rewrite (js_get_own realm _ _ _ Hk). cbn [fst]. apply Hset.
    fold k. rewrite (runs_of_snoc_same k tests t eq_refl).
    apply latest_failure_next_run. now apply Hlatest.
  - rewrite (js_get_inherited realm _ _ Hk).
    pose proof (@inherited_shadowed TestStat realm k) as Hsh.
    assert (Hfresh : shadowed realm k = false ->
      latest_invariant (tests ++ [t])
        (own_set k
           (count_run t {| stat_testName := run_testName t;
                           stat_jobName := run_jobName t;
                           stat_totalRuns := 0;
                           stat_failures := 0;
                           stat_lastFailure := None |}) acc)).
    { intros Hno. apply Hset.
      rewrite (runs_of_snoc_same k tests t eq_refl).
      destruct (Hnone k Hk) as [Hruns|Hs]; [|congruence].
      rewrite Hruns. apply latest_failure_next_run. reflexivity. }
    destruct (inherited realm k); cbn [fst];
      try contradiction; try (now apply Hkeep); now apply Hfresh.
Qed.

Lemma fold_testStats_step_latest ts :
  forall tests acc realm,
    stats_invariant tests acc realm ->
    latest_invariant tests acc ->
    latest_invariant (tests ++ ts) (fst (fold_left testStats_step ts (acc, realm))).
Proof.
  induction ts as [|t ts IH]; intros tests acc realm H Hl; cbn [fold_left].
  - now rewrite app_nil_r.
  - replace (tests ++ t :: ts)%list with ((tests ++ [t]) ++ ts)%list
      by (now rewrite <- app_assoc).
    pose proof (testStats_step_invariant _ _ _ t H) as H'.
    pose proof (testStats_step_latest _ _ _ t H Hl) as Hl'.
    destruct (testStats_step (acc, realm) t) as [acc' realm'].
    exact (IH _ _ _ H' Hl').
Qed.

Lemma testStats_latest realm allureReports :
  latest_invariant (testResults allureReports) (fst (testStats realm allureReports)).
Proof.
  unfold testStats.
  apply (fold_testStats_step_latest (testResults allureReports) [] [] realm).
  - split; [constructor|]. split; [discriminate | now left].
  - intros k st. discriminate.
Qed.

Lemma count_failing_le rs : count (failing rs) <= count rs.
Proof.
  unfold count, failing. apply Nat2Z.inj_le. apply filter_length_le.
Qed.

Lemma failure_rate_bounds (failures runs : Z) :
  0 < failures -> failures <= runs ->
  (0 < (inject_Z failures / inject_Z runs) * 100
   /\ (inject_Z failures / inject_Z runs) * 100 <= 100)%Q.
Proof.
  intros Hpos Hle.
  assert (Hruns : (0 < inject_Z runs)%Q).
  { change 0%Q with (inject_Z 0). rewrite <- Zlt_Qlt. lia. }
  assert (Hf : (0 < inject_Z failures)%Q).
  { change 0%Q with (inject_Z 0). now rewrite <- Zlt_Qlt. }
  assert (Hfr : (inject_Z failures <= inject_Z runs)%Q) by now rewrite <- Zle_Qle.
  assert (Hq : (0 < inject_Z failures / inject_Z runs
                /\ inject_Z failures / inject_Z runs <= 1)%Q).
  { split.
    - apply Qlt_shift_div_l; [exact Hruns|]. now rewrite Qmult_0_l.
    - apply Qle_shift_div_r; [exact Hruns|]. now rewrite Qmult_1_l. }
  set (q := (inject_Z failures / inject_Z runs)%Q) in *. clearbody q.
  destruct Hq. split; lra.
Qed.

(** X9.  Every entry of the flakiness list has failed at least once: its
    [lastFailure] is the fetch time of one of the failing runs of its test
    and no failing run of that test is later (the fall-back to the current
    time is never taken), and its failure rate lies above 0 and at most at
    100. *)
Theorem generateFlakyTestsData_last_failure :
  forall realm now allureReports e,
    In e (fst (generateFlakyTestsData realm now allureReports)) ->
    let failures :=
      failing (runs_of (testName e) (testResults allureReports)) in
    (exists t, In t failures /\ run_timestamp t = lastFailure e)
    /\ (forall t, In t failures -> run_timestamp t <= lastFailure e)
    /\ (0 < failureRate e /\ failureRate e <= 100)%Q.
Proof.
  intros realm now allureReports e He.
  apply flaky_entry_origin in He.
  destruct (flaky_candidate_origin _ _ _ _ He) as (st & -> & Hget & Hd & Hpos).
  pose proof (testStats_latest realm allureReports _ _ Hget) as Hlatest.
  destruct Hd as (Hn & Ht & Hf & Hj & Hl). cbn [testName toFlakyTest] in *.
  cbv zeta. cbn [lastFailure failureRate toFlakyTest].
  unfold latest_failure_is in Hlatest.
  destruct (stat_lastFailure st) as [d|].
  - destruct Hlatest as [Hex Hall]. split; [exact Hex|]. split; [exact Hall|].
    apply failure_rate_bounds; [exact Hpos|].
    rewrite Hf, Ht. apply count_failing_le.
  - exfalso. rewrite Hlatest in Hf. cbn in Hf. lia.
Qed.

Lemma generateFlakyTestsData_last_failure_witness :
  exists t,
    In t (failing (runs_of "B" (testResults abc_reports)))
    /\ run_timestamp t = 2000.
Proof.
  destruct (generateFlakyTestsData_last_failure pristine 0 abc_reports
              {| testName := "B"; flaky_jobName := "ui-tests";
                 failureRate := ((inject_Z 3 / inject_Z 5) * 100)%Q;
                 totalRuns := 5; lastFailure := 2000 |})
    as (Hex & _).
  - vm_compute. left. reflexivity.
  - exact Hex.
Defined.

(** ** Conservation of the counts and bounds of the rate *)









Lemma In_own_set {V : Type} k (v : V) o k' v' :
  In (k', v') (own_set k v o) -> (k' = k /\ v' = v) \/ In (k', v') o.
Proof.
  induction o as [|[k0 v0] o IH]; simpl.
  - intros [[= <- <-]|[]]. now left.
  - destruct (String.eqb_spec k0 k) as [->|Hne]; simpl.
    + intros [[= <- <-]|H]; [now left | right; now right].
    + intros [H|H]; [right; now left|].
      destruct (IH H) as [E|E]; [now left | right; now right].
Qed.

Lemma push_under_members realm acc k r acc' (seen : list AllureReportData) :
  (forall k' group x, In (k', group) acc -> In x group -> In x seen) ->
  push_under realm acc k r = Returns acc' ->
  forall k' group x, In (k', group) acc' -> In x group -> In x (seen ++ [r]).
Proof.
  intros Hacc. unfold push_under, js_get.
  assert (Hold : forall k' group x,
    In (k', group) acc -> In x group -> In x (seen ++ [r])).
  { intros k' group x H1 H2. apply in_or_app. left. eauto. }
  destruct (own_get k acc) as [reports|] eqn:Hk.
  - intros [= <-] k' group x Hin Hx. apply In_own_set in Hin.
    destruct Hin as [[_ ->]|Hin]; [|eauto].
    apply in_app_or in Hx. apply in_or_app.
    destruct Hx as [Hx|Hx]; [left | now right].
    apply own_get_Some_In in Hk. eauto.
  - pose proof (@inherited_shadowed (list AllureReportData) realm k) as Hsh.
    destruct (inherited realm k); try discriminate; try contradiction;
      intros [= <-] k' group x Hin Hx; apply In_own_set in Hin;
      (destruct Hin as [[_ ->]|Hin]; [apply in_or_app; now right | eauto]).
Qed.

Lemma reduce_reportsByDate_members format_yyyy_MM_dd realm allureReports :
  forall seen acc acc',
    (forall k group x, In (k, group) acc -> In x group -> In x seen) ->
    reduce (reportsByDate_step format_yyyy_MM_dd realm) allureReports acc
    = Returns acc' ->
    forall k group x,
      In (k, group) acc' -> In x group -> In x (seen ++ allureReports).
Proof.
  induction allureReports as [|r rs IH]; intros seen acc acc' Hacc; cbn [reduce].
  - intros [= <-]. rewrite app_nil_r. exact Hacc.
  - destruct (reportsByDate_step format_yyyy_MM_dd realm acc r) as [acc1|e] eqn:Hstep;
      cbn [bind]; [|discriminate].
    intros Hred k group x Hin Hx.
    replace (seen ++ r :: rs)%list with ((seen ++ [r]) ++ rs)%list
      by (now rewrite <- app_assoc).
    assert (Hacc1 : forall k' g' x',
      In (k', g') acc1 -> In x' g' -> In x' (seen ++ [r])).
    { unfold reportsByDate_step in Hstep. destruct (summary r).
      - exact (push_under_members _ _ _ _ _ _ Hacc Hstep).
      - injection Hstep as <-. intros k' g' x' H1 H2.
        apply in_or_app. left. exact (Hacc _ _ _ H1 H2). }
    exact (IH _ _ _ Hacc1 Hred k group x Hin Hx).
Qed.

Lemma sum_summaries_sane reports :
  (forall r s, In r reports -> summary r = Some s -> sane_summary s) ->
  0 <= sum_summaries passed_count reports
  /\ sum_summaries passed_count reports <= sum_summaries total reports.
Proof.
  unfold sum_summaries. induction reports as [|r rs IH]; intros H; simpl; [lia|].
  destruct IH as [IH1 IH2]; [intros r' s Hin; apply H; now right|].
  destruct (summary r) as [s|] eqn:Hs; [|lia].
  destruct (H r s (or_introl eq_refl) Hs). lia.
Qed.

(** X11.  When every summary of the input is consistent (the passed tests
    are not negative and not more than the total), the success rate of every
    trend point is a percentage between 0 and 100. *)
Theorem trend_successRate_percentage :
  forall format_yyyy_MM_dd localeCompare realm allureReports out p,
    (forall r s, In r allureReports -> summary r = Some s -> sane_summary s) ->
    generateHistoricalTrendData format_yyyy_MM_dd localeCompare realm allureReports
    = Returns out ->
    In p out ->
    (0 <= successRate p /\ successRate p <= 100)%Q.
Proof.
  intros format_yyyy_MM_dd localeCompare realm allureReports out p Hsane Hout Hin.
  destruct (trend_point_origin _ _ _ _ _ _ Hout Hin)
    as (acc & reports & Hred & Hgroup & _ & _ & _ & Hs).
  rewrite Hs.
  destruct (aggregate_sums reports) as (Ht & Hp & _).
  destruct (sum_summaries_sane reports) as [H0 Hle].
  { intros r s Hr. apply Hsane.
    exact (reduce_reportsByDate_members _ _ _ [] [] acc
             (fun _ _ _ H => match H with end) Hred _ _ _ Hgroup Hr). }
  apply roundedSuccessRate_bounds; lia.
Qed.

Lemma trend_successRate_percentage_witness :
  (0 <= binary64 (7143 # 100) /\ binary64 (7143 # 100) <= 100)%Q.
Proof.
  apply (trend_successRate_percentage utc_yyyy_MM_dd bytewise_localeCompare
           pristine rounding_reports
           [ {| date := "1970-01-01"; totalTests := 4; passedTests := 3;
                failedTests := 1; successRate := binary64 (7500 # 100) |};
             {| date := "1970-01-02"; totalTests := 7; passedTests := 5;
                failedTests := 2; successRate := binary64 (7143 # 100) |} ]
           {| date := "1970-01-02"; totalTests := 7; passedTests := 5;
              failedTests := 2; successRate := binary64 (7143 # 100) |}).
  - intros r s [<-|[<-|[<-|[<-|[]]]]] [= <-]; split; vm_compute; discriminate.
  - vm_compute. reflexivity.
  - right. left. reflexivity.
Defined.

(** ** The report filter of the dashboard *)

Section FilterProperties.

Variable toLowerCase : string -> string.

Lemma is_set_false_inactive (value : option string) :
  is_set value = false ->
  match value with Some f => Boolean f | None => false end = false.
Proof. now destruct value. Qed.

Lemma passes_filters_inactive filters report :
  hasActiveFilters filters = false ->
  passes_filters toLowerCase filters report = true.
Proof.
  unfold hasActiveFilters, passes_filters. cbn [existsb].
  rewrite !orb_false_iff. intros (Hj & Hs & He & _).
  destruct (filter_jobName filters) as [f|]; cbn [is_set] in Hj;
    [rewrite Hj|]; cbn [andb];
    (destruct (filter_status filters) as [g|]; cbn [is_set] in Hs;
       [rewrite Hs|]; cbn [andb];
       (destruct (filter_environment filters) as [h|]; cbn [is_set] in He;
          [rewrite He|]; reflexivity)).
Qed.

Lemma filter_all {A : Type} (p : A -> bool) (xs : list A) :
  (forall x, In x xs -> p x = true) -> filter p xs = xs.
Proof.
  induction xs as [|x xs IH]; intros H; simpl; [reflexivity|].
  rewrite (H x (or_introl eq_refl)), IH; [reflexivity|].
  intros y Hy. apply H. now right.
Qed.

Lemma filter_none {A : Type} (p : A -> bool) (xs : list A) :
  (forall x, In x xs -> p x = false) -> filter p xs = [].
Proof.
  induction xs as [|x xs IH]; intros H; simpl; [reflexivity|].
  rewrite (H x (or_introl eq_refl)). apply IH.
  intros y Hy. apply H. now right.
Qed.

(** X12.  While the filter panel reports no active filter (every field
    unset or set to the empty string, as after removing a chip), the
    dashboard lists every report, in the order of the input; the same holds
    after [Clear All]. *)
Theorem filteredReports_without_active_filter :
  forall filters allureReports,
    hasActiveFilters filters = false ->
    filteredReports toLowerCase filters allureReports = allureReports
    /\ filteredReports toLowerCase (handleClearFilters filters) allureReports
       = allureReports.
Proof.
  intros filters allureReports H. unfold filteredReports. split.
  - apply filter_all. intros r _. now apply passes_filters_inactive.
  - apply filter_all. intros r _. reflexivity.
Qed.

(** X13.  The tag field of the filter panel filters nothing: whatever tag
    is entered, the dashboard lists the same reports as before, although a
    non-empty tag counts as an active filter. *)
Theorem filteredReports_ignores_tag :
  forall value filters allureReports,
    filteredReports toLowerCase (handleFilterChange field_tag value filters)
      allureReports
    = filteredReports toLowerCase filters allureReports
    /\ hasActiveFilters (handleFilterChange field_tag value filters)
       = (is_set (filter_jobName filters) || is_set (filter_status filters)
          || is_set (filter_environment filters) || Boolean value).
Proof.
  intros value filters allureReports. split; [reflexivity|].
  unfold hasActiveFilters. cbn. now rewrite orb_false_r, !orb_assoc.
Qed.

End FilterProperties.

Lemma filteredReports_without_active_filter_witness :
  filteredReports (fun s => s)
    (handleFilterChange field_status ""
       (handleFilterChange field_jobName "" no_filters))
    abc_reports
  = abc_reports.
Proof.
  exact (proj1 (filteredReports_without_active_filter (fun s => s)
                  (handleFilterChange field_status ""
                     (handleFilterChange field_jobName "" no_filters))
                  abc_reports eq_refl)).
Defined.

(** X14.  No record that the service returns is in the error state, so for
    every batch the list of failed reports of the dashboard is empty, and
    choosing the status [error] or [loading] in the filter panel leaves no
    report at all, whatever the HTTP client did. *)
Theorem dashboard_never_lists_errors :
  forall URL_pathname this clock configs toLowerCase filters,
    exists records,
      getAllureReportsForBuilds URL_pathname this clock configs = Fulfilled records
      /\ errorReports records = []
      /\ filteredReports toLowerCase
           (handleFilterChange field_status "error" filters) records = []
      /\ filteredReports toLowerCase
           (handleFilterChange field_status "loading" filters) records = [].
Proof.
  intros URL_pathname this clock configs toLowerCase filters.
  destruct (getAllureReportsForBuilds_fulfilled URL_pathname this clock configs)
    as (records & E & _ & Hs).
  exists records. split; [exact E|].
  split; [|split]; apply filter_none; intros r Hr.
  - now rewrite (Hs r Hr).
  - unfold passes_filters. cbn [handleFilterChange filter_status filter_jobName].
    rewrite (Hs r Hr). cbn.
    now destruct (match filter_jobName filters with Some _ => _ | None => _ end).
  - unfold passes_filters. cbn [handleFilterChange filter_status filter_jobName].
    rewrite (Hs r Hr). cbn.
    now destruct (match filter_jobName filters with Some _ => _ | None => _ end).
Qed.

(** ** The date cards of the dashboard *)

Lemma card_counts_from acc dateReports :
  let step acc report :=
    match summary report with
    | Some s =>
        {| card_total := card_total acc + total s;
           card_passed := card_passed acc + passed_count s;
           card_failed := card_failed acc + failed_count s;
           card_broken := card_broken acc + broken_count s;
           card_skipped := card_skipped acc + skipped_count s |}
    | None => acc
    end in
  card_passed (fold_left step dateReports acc)
  = card_passed acc + sum_summaries passed_count dateReports
  /\ card_failed (fold_left step dateReports acc)
     = card_failed acc + sum_summaries failed_count dateReports
  /\ card_broken (fold_left step dateReports acc)
     = card_broken acc + sum_summaries broken_count dateReports
  /\ card_skipped (fold_left step dateReports acc)
     = card_skipped acc + sum_summaries skipped_count dateReports.
Proof.
  intros step. revert acc.
  induction dateReports as [|r rs IH]; intros acc; cbn [fold_left].
  - unfold sum_summaries. simpl. lia.
  - destruct (IH (step acc r)) as (E1 & E2 & E3 & E4). rewrite E1, E2, E3, E4.
    unfold sum_summaries, step. simpl.
    destruct (summary r); simpl; lia.
Qed.

(** The slices of a card: the positive ones among the four sums, in the
    order passed, failed, broken, skipped. *)
Lemma chartData_slices dateReports :
  chartData (card_counts dateReports)
  = filter (fun item => snd item >? 0)
      [ ("Passed", sum_summaries passed_count dateReports);
        ("Failed", sum_summaries failed_count dateReports);
        ("Broken", sum_summaries broken_count dateReports);
        ("Skipped", sum_summaries skipped_count dateReports) ].
Proof.
  unfold chartData, card_counts.
  destruct (card_counts_from
              {| card_total := 0; card_passed := 0; card_failed := 0;
                 card_broken := 0; card_skipped := 0 |} dateReports)
    as (E1 & E2 & E3 & E4).
  cbv zeta in E1, E2, E3, E4. rewrite E1, E2, E3, E4. reflexivity.
Qed.

Section DateCards.

Variable format_yyyy_MM_dd : Z -> string.
Variable localeCompare : string -> string -> Z.
Variable toLowerCase : string -> string.

Hypothesis format_not_shadowable :
  forall millis, shadowable (format_yyyy_MM_dd millis) = false.
Hypothesis localeCompare_total :
  forall a b, 0 < localeCompare a b -> localeCompare b a <= 0.
Hypothesis localeCompare_trans :
  forall a b c,
    localeCompare a b <= 0 -> localeCompare b c <= 0 -> localeCompare a c <= 0.

(** X15.  The dashboard shows one card for every day on which a report
    that passes the filters has a summary, and none for any other day, the
    latest day first; a card holds the filtered reports with a summary of its
    day, in input order, and its chart has a slice for each of passed,
    failed, broken and skipped whose sum over those reports is positive, in
    that order. *)
Theorem date_cards_of_filtered_reports :
  forall realm filters allureReports,
    let shown := filteredReports toLowerCase filters allureReports in
    exists cards,
      date_cards format_yyyy_MM_dd localeCompare toLowerCase realm filters
        allureReports = Returns cards
      /\ NoDup (map card_date cards)
      /\ StronglySorted
           (fun c c' => localeCompare (card_date c') (card_date c) <= 0) cards
      /\ (forall d,
            In d (map card_date cards)
            <-> exists r, In r shown /\ has_summary r = true
                          /\ format_yyyy_MM_dd (lastUpdated r) = d)
      /\ (forall c, In c cards ->
            card_reports c = summarised_on format_yyyy_MM_dd (card_date c) shown
            /\ card_chartData c
               = filter (fun item => snd item >? 0)
                   [ ("Passed", sum_summaries passed_count (card_reports c));
                     ("Failed", sum_summaries failed_count (card_reports c));
                     ("Broken", sum_summaries broken_count (card_reports c));
                     ("Skipped", sum_summaries skipped_count (card_reports c)) ]).
Proof.
  intros realm filters allureReports shown.
  destruct (reduce_reportsByDate_invariant format_yyyy_MM_dd format_not_shadowable
              realm shown [] [])
    as (acc & Hred & Hnd & Hget).
  { split; [constructor | reflexivity]. }
  simpl in Hnd, Hget.
  unfold date_cards. fold shown. rewrite Hred. cbn [bind].
  set (card_of := fun entry : string * list AllureReportData => _).
  set (entries := Array_sort _ (Object_entries acc)).
  assert (Hperm : Permutation entries acc).
  { unfold entries. rewrite Array_sort_perm. apply Object_entries_perm. }
  assert (Hdates : map card_date (map card_of entries) = map fst entries).
  { rewrite map_map. reflexivity. }
  eexists. split; [reflexivity|]. split; [|split; [|split]].
  - rewrite Hdates. eapply Permutation_NoDup; [|exact Hnd].
    symmetry. now apply Permutation_map.
  - apply (StronglySorted_map
             (comes_first (fun a b : string * list AllureReportData =>
                             inject_Z (localeCompare (fst b) (fst a))))).
    + intros a b Hab. cbn. now apply Qle_bool_inject_Z.
    + apply Array_sort_sorted.
      * intros a b Hab. apply Qle_bool_inject_Z. apply localeCompare_total.
        destruct (Z.lt_ge_cases 0 (localeCompare (fst b) (fst a))) as [H|H];
          [exact H|].
        apply Qle_bool_inject_Z in H. congruence.
      * intros a b c Hab Hbc. apply Qle_bool_inject_Z.
        apply Qle_bool_inject_Z in Hab, Hbc. eauto.
  - intros d. rewrite Hdates.
    assert (Hin : In d (map fst entries) <-> In d (map fst acc)).
    { split; apply Permutation_in; [|symmetry]; now apply Permutation_map. }
    rewrite Hin. specialize (Hget d).
    destruct (summarised_on format_yyyy_MM_dd d shown) as [|r group] eqn:Hgroup.
    + apply own_get_None in Hget. split; [contradiction|].
      intros (r & Hr & Hs & Hd). exfalso.
      assert (Hf : In r (summarised_on format_yyyy_MM_dd d shown)).
      { apply filter_In. split; [exact Hr|]. rewrite Hs. now apply String.eqb_eq. }
      now rewrite Hgroup in Hf.
    + split.
      * intros _. exists r.
        assert (Hf : In r (summarised_on format_yyyy_MM_dd d shown))
          by (rewrite Hgroup; now left).
        apply filter_In in Hf. destruct Hf as [Hr Hk].
        apply andb_true_iff in Hk. destruct Hk as [Hs Hd].
        split; [exact Hr|]. split; [exact Hs | now apply String.eqb_eq].
      * intros _. apply own_get_Some_In in Hget. now apply (in_map fst) in Hget.
  - intros c Hc. apply in_map_iff in Hc. destruct Hc as ([d reports] & <- & Hin).
    apply (Permutation_in _ Hperm) in Hin. apply (In_own_get _ _ _ Hnd) in Hin.
    rewrite Hget in Hin. cbn [card_of card_date card_reports card_chartData fst snd].
    split; [|apply chartData_slices].
    destruct (summarised_on format_yyyy_MM_dd d shown) as [|r group];
      [discriminate | congruence].
Qed.

End DateCards.

Lemma date_cards_of_filtered_reports_witness :
  exists cards,
    date_cards utc_yyyy_MM_dd bytewise_localeCompare (fun s => s) pristine
      (handleFilterChange field_jobName "tests" no_filters) rounding_reports
    = Returns cards
    /\ map card_date cards = ["1970-01-02"; "1970-01-01"]
    /\ map card_chartData cards
       = [ [("Passed", 5); ("Failed", 2)]; [("Passed", 3); ("Failed", 1)] ].
Proof.
  destruct (date_cards_of_filtered_reports utc_yyyy_MM_dd bytewise_localeCompare
              (fun s => s) utc_yyyy_MM_dd_not_shadowable
              bytewise_localeCompare_total bytewise_localeCompare_trans
              pristine (handleFilterChange field_jobName "tests" no_filters)
              rounding_reports)
    as (cards & Hcards & _).
  exists cards. split; [exact Hcards|].
  assert (E : option_map (map (fun c => (card_date c, card_chartData c)))
                match date_cards utc_yyyy_MM_dd bytewise_localeCompare (fun s => s)
                        pristine
                        (handleFilterChange field_jobName "tests" no_filters)
                        rounding_reports with
                | Returns cards => Some cards
                | Throws _ => None
                end
              = Some [ ("1970-01-02", [("Passed", 5); ("Failed", 2)]);
                       ("1970-01-01", [("Passed", 3); ("Failed", 1)]) ])
    by (vm_compute; reflexivity).
  rewrite Hcards in E. cbn [option_map] in E. injection E as E.
  split.
  - apply (f_equal (map fst)) in E. rewrite map_map in E. exact E.
  - apply (f_equal (map snd)) in E. rewrite map_map in E. exact E.
Defined.

(** ** The build configurations of the configuration page *)

Section ConfigurationProperties.

Variable URL_pathname : string -> option string.

(** The dialog resolves a URL exactly as the service does. *)
Lemma config_from_dialog_parseBuildUrl dialog n u :
  match parseBuildUrl URL_pathname u with
  | Some bi =>
      config_from_dialog URL_pathname dialog n u
      = inl {| name := n;
               buildUrl := u;
               jobName := bi_jobName bi;
               buildNumber := bi_buildNumber bi;
               description := Some (string_or (partial_description dialog) "");
               environment :=
                 Some (string_or (partial_environment dialog) "default");
               tags := Some match partial_tags dialog with
                            | Some ts => ts
                            | None => []
                            end |}
  | None =>
      exists message,
        config_from_dialog URL_pathname dialog n u = inr message
        /\ In message [alert_no_build_number; alert_no_pattern; alert_no_url]
  end.
Proof.
  unfold parseBuildUrl, config_from_dialog, new_URL_pathname.
  destruct (URL_pathname u) as [p|]; cbn [bind try_catch].
  - destruct (indexOf "job" (filter Boolean (split "/" p))) as [i|].
    + destruct (Nat.ltb (i + 2) (List.length (filter Boolean (split "/" p)))).
      * destruct (parseInt (nth (i + 2) (filter Boolean (split "/" p)) "")).
        -- reflexivity.
        -- eexists. split; [reflexivity|]. now left.
      * eexists. split; [reflexivity|]. right. now left.
    + eexists. split; [reflexivity|]. right. now left.
  - eexists. split; [reflexivity|]. right. right. now left.
Qed.

Lemma string_or_default_nonempty s : Boolean (string_or s "default") = true.
Proof.
  unfold string_or. destruct s as [v|]; [|reflexivity].
  now destruct (Boolean v) eqn:E.
Qed.

Lemma dialog_name_and_url_nonempty dialog n u :
  dialog_name_and_url dialog = Some (n, u) ->
  Boolean n = true /\ Boolean u = true.
Proof.
  unfold dialog_name_and_url.
  destruct (partial_name dialog) as [n'|]; [|discriminate].
  destruct (partial_buildUrl dialog) as [u'|]; [|discriminate].
  destruct (Boolean n') eqn:En, (Boolean u') eqn:Eu; try discriminate.
  intros [= <- <-]. now split.
Qed.

(** X16.  Adding a build configuration whose name and URL are filled in
    succeeds exactly when the service resolves the URL: the new entry goes to
    the end of the list with the job and the build number that the service
    resolves, an environment that is not empty, and the dialog is closed;
    otherwise the state is left as it is and one of the three messages is
    raised. *)
Theorem handleAddBuildConfig_as_service_resolves :
  forall st n u,
    dialog_name_and_url (newBuildConfig st) = Some (n, u) ->
    match parseBuildUrl URL_pathname u with
    | Some bi =>
        exists config,
          handleAddBuildConfig URL_pathname st
          = ({| buildConfigs := (buildConfigs st ++ [config])%list;
                newBuildConfig := empty_partial;
                isAddDialogOpen := false;
                editingIndex := editingIndex st |}, [])
          /\ name config = n /\ buildUrl config = u
          /\ jobName config = bi_jobName bi
          /\ buildNumber config = bi_buildNumber bi
          /\ stored_by_dialog URL_pathname config
    | None =>
        exists message,
          handleAddBuildConfig URL_pathname st = (st, [message])
          /\ In message [alert_no_build_number; alert_no_pattern; alert_no_url]
    end.
Proof.
  intros st n u Hd. unfold handleAddBuildConfig. rewrite Hd.
  destruct (dialog_name_and_url_nonempty _ _ _ Hd) as [Hn Hu].
  pose proof (config_from_dialog_parseBuildUrl (newBuildConfig st) n u) as H.
  destruct (parseBuildUrl URL_pathname u) as [bi|] eqn:Hp.
  - rewrite H. eexists. split; [reflexivity|].
    unfold stored_by_dialog.
    cbn [name buildUrl jobName buildNumber description environment tags].
    repeat split; try assumption.
    + rewrite Hp. now destruct bi.
    + now eexists.
    + eexists. split; [reflexivity | apply string_or_default_nonempty].
    + now eexists.
  - destruct H as (message & -> & Hin). now exists message.
Qed.

Lemma replace_at_from index (updated : JenkinsBuildConfig) prev :
  forall k,
    List.length
      (mapi (fun i config => if Nat.eqb i index then updated else config) k prev)
    = List.length prev
    /\ forall i,
         nth_error
           (mapi (fun i config => if Nat.eqb i index then updated else config)
                 k prev) i
         = option_map
             (fun config => if Nat.eqb (k + i) index then updated else config)
             (nth_error prev i).
Proof.
  intros k. split; [apply length_mapi|]. intros i. apply nth_error_mapi.
Qed.

Lemma nth_error_ext {A : Type} (xs ys : list A) :
  (forall i, nth_error xs i = nth_error ys i) -> xs = ys.
Proof.
  revert ys. induction xs as [|x xs IH]; intros [|y ys] H.
  - reflexivity.
  - specialize (H O). discriminate.
  - specialize (H O). discriminate.
  - pose proof (H O) as H0. injection H0 as <-. f_equal.
    apply IH. intros i. exact (H (S i)).
Qed.

Lemma replace_at_same index (config : JenkinsBuildConfig) prev :
  nth_error prev index = Some config -> replace_at index config prev = prev.
Proof.
  intros H. apply nth_error_ext. intros i. unfold replace_at.
  rewrite (proj2 (replace_at_from index config prev O) i). simpl.
  destruct (Nat.eqb_spec i index) as [->|_].
  - rewrite H. reflexivity.
  - now destruct (nth_error prev i).
Qed.

(** X17.  Opening a stored configuration for editing and saving it
    unchanged leaves the list as it was and closes the dialog, for every
    configuration of the kind that the dialog stores. *)
Theorem edit_then_update_unchanged :
  forall st index config,
    nth_error (buildConfigs st) index = Some config ->
    stored_by_dialog URL_pathname config ->
    exists opened,
      handleEditBuildConfig index st = Some opened
      /\ isAddDialogOpen opened = true
      /\ handleUpdateBuildConfig URL_pathname opened = (handleCancel st, []).
Proof.
  intros st index config Hnth (Hn & Hu & Hp & (d & Hd) & (e & He & Hne) & (ts & Hts)).
  unfold handleEditBuildConfig. rewrite Hnth. eexists. split; [reflexivity|].
  split; [reflexivity|].
  unfold handleUpdateBuildConfig, dialog_name_and_url.
  cbn [editingIndex newBuildConfig partial_of partial_name partial_buildUrl buildConfigs].
  rewrite Hn, Hu. cbn [andb].
  pose proof (config_from_dialog_parseBuildUrl (partial_of config) (name config)
                (buildUrl config)) as H.
  rewrite Hp in H. rewrite H.
  cbn [partial_of partial_description partial_environment partial_tags
       bi_jobName bi_buildNumber].
  rewrite Hd, He, Hts. unfold string_or. rewrite Hne.
  assert (Ed : (if Boolean d then d else "") = d) by now destruct d.
  rewrite Ed.
  assert (Ec : {| name := name config; buildUrl := buildUrl config;
                  jobName := jobName config; buildNumber := buildNumber config;
                  description := Some d; environment := Some e;
                  tags := Some ts |} = config).
  { destruct config. cbn in *. congruence. }
  rewrite Ec, (replace_at_same _ _ _ Hnth). reflexivity.
Qed.

Lemma remove_at_length {A : Type} (prev : list A) :
  forall index,
    List.length (remove_at index prev)
    = if Nat.ltb index (List.length prev) then (List.length prev - 1)%nat
      else List.length prev.
Proof.
  induction prev as [|x prev IH]; intros [|index]; simpl; try reflexivity.
  - lia.
  - rewrite IH. change (Nat.ltb (S index) (S (List.length prev)))
      with (Nat.ltb index (List.length prev)).
    destruct (Nat.ltb_spec index (List.length prev)); lia.
Qed.

Lemma remove_at_nth_error {A : Type} (prev : list A) :
  forall index i,
    nth_error (remove_at index prev) i
    = if Nat.ltb i index then nth_error prev i else nth_error prev (S i).
Proof.
  induction prev as [|x prev IH]; intros [|index] [|i]; simpl; try reflexivity.
  - now destruct (Nat.ltb (S i) (S index)).
  - rewrite IH. reflexivity.
Qed.

Lemma remove_at_last {A : Type} (prev : list A) (x : A) :
  remove_at (List.length prev) (prev ++ [x]) = prev.
Proof. induction prev as [|y prev IH]; simpl; [reflexivity | now rewrite IH]. Qed.

(** X18.  Deleting removes exactly the entry at the given position: the
    entries before it stay where they are, the entries behind it move up by
    one, and nothing changes when the position is outside the list; the
    dialog is not touched.  Deleting the entry that was just added gives the
    list back. *)
Theorem handleDeleteBuildConfig_removes_one :
  forall st index,
    let st' := handleDeleteBuildConfig index st in
    List.length (buildConfigs st')
    = (if Nat.ltb index (List.length (buildConfigs st))
       then (List.length (buildConfigs st) - 1)%nat
       else List.length (buildConfigs st))
    /\ (forall i,
          nth_error (buildConfigs st') i
          = if Nat.ltb i index then nth_error (buildConfigs st) i
            else nth_error (buildConfigs st) (S i))
    /\ newBuildConfig st' = newBuildConfig st
    /\ isAddDialogOpen st' = isAddDialogOpen st
    /\ editingIndex st' = editingIndex st
    /\ forall config,
         remove_at (List.length (buildConfigs st)) (buildConfigs st ++ [config])
         = buildConfigs st.
Proof.
  intros st index. cbn.
  split; [apply remove_at_length|]. split; [apply remove_at_nth_error|].
  repeat split. intros config. apply remove_at_last.
Qed.

(** X19.  Saving an edit replaces the entry at the edited position and no
    other: the list keeps its length and every other position keeps its
    entry; the new entry carries the job and build number that the service
    resolves from its URL.  When the URL does not resolve nothing is
    stored. *)
Theorem handleUpdateBuildConfig_replaces_one :
  forall st index n u,
    editingIndex st = Some index ->
    dialog_name_and_url (newBuildConfig st) = Some (n, u) ->
    let st' := fst (handleUpdateBuildConfig URL_pathname st) in
    match parseBuildUrl URL_pathname u with
    | Some bi =>
        List.length (buildConfigs st') = List.length (buildConfigs st)
        /\ (forall i, i <> index ->
              nth_error (buildConfigs st') i = nth_error (buildConfigs st) i)
        /\ (forall old, nth_error (buildConfigs st) index = Some old ->
              exists config,
                nth_error (buildConfigs st') index = Some config
                /\ name config = n /\ buildUrl config = u
                /\ jobName config = bi_jobName bi
                /\ buildNumber config = bi_buildNumber bi)
        /\ editingIndex st' = None /\ isAddDialogOpen st' = false
    | None => st' = st
    end.
Proof.
  intros st index n u Hi Hd. unfold handleUpdateBuildConfig. rewrite Hi, Hd.
  pose proof (config_from_dialog_parseBuildUrl (newBuildConfig st) n u) as H.
  destruct (parseBuildUrl URL_pathname u) as [bi|].
  - rewrite H. cbn [fst buildConfigs editingIndex isAddDialogOpen].
    unfold replace_at.
    split; [apply length_mapi|]. split; [|split; [|split; reflexivity]].
    + intros i Hne. rewrite nth_error_mapi. simpl.
      destruct (Nat.eqb_spec i index); [contradiction|].
      now destruct (nth_error (buildConfigs st) i).
    + intros old Hold. rewrite nth_error_mapi, Hold. simpl.
      rewrite Nat.eqb_refl. eexists. split; [reflexivity|]. cbn. auto.
  - destruct H as (message & -> & _). reflexivity.
Qed.

End ConfigurationProperties.

Lemma handleAddBuildConfig_as_service_resolves_witness :
  exists config,
    handleAddBuildConfig simple_URL_pathname
      (dialog_state "nightly" "http://jenkins/job/ui-tests/42/")
    = ({| buildConfigs := [config]; newBuildConfig := empty_partial;
          isAddDialogOpen := false; editingIndex := None |}, [])
    /\ jobName config = "ui-tests" /\ buildNumber config = 42.
Proof.
  destruct (handleAddBuildConfig_as_service_resolves simple_URL_pathname
              (dialog_state "nightly" "http://jenkins/job/ui-tests/42/")
              "nightly" "http://jenkins/job/ui-tests/42/" eq_refl)
    as (config & Hadd & _ & _ & Hj & Hb & _).
  exists config. split; [exact Hadd|]. split; [exact Hj | exact Hb].
Defined.

Lemma nightly_config_stored_by_dialog :
  stored_by_dialog simple_URL_pathname nightly_config.
Proof.
  unfold stored_by_dialog. repeat split; try reflexivity.
  - now exists "".
  - now exists "default".
  - now exists [].
Qed.

Lemma edit_then_update_unchanged_witness :
  exists opened,
    handleEditBuildConfig 0
      {| buildConfigs := [nightly_config]; newBuildConfig := empty_partial;
         isAddDialogOpen := false; editingIndex := None |}
    = Some opened
    /\ isAddDialogOpen opened = true
    /\ handleUpdateBuildConfig simple_URL_pathname opened
       = ({| buildConfigs := [nightly_config]; newBuildConfig := empty_partial;
             isAddDialogOpen := false; editingIndex := None |}, []).
Proof.
  exact (edit_then_update_unchanged simple_URL_pathname
           {| buildConfigs := [nightly_config]; newBuildConfig := empty_partial;
              isAddDialogOpen := false; editingIndex := None |}
           0%nat nightly_config eq_refl nightly_config_stored_by_dialog).
Defined.

Lemma handleUpdateBuildConfig_replaces_one_witness :
  List.length
    (buildConfigs
       (fst (handleUpdateBuildConfig simple_URL_pathname
               {| buildConfigs := [nightly_config; nightly_config];
                  newBuildConfig := partial_of nightly_config;
                  isAddDialogOpen := true; editingIndex := Some 1%nat |})))
  = 2%nat.
Proof.
  pose proof (handleUpdateBuildConfig_replaces_one simple_URL_pathname
                {| buildConfigs := [nightly_config; nightly_config];
                   newBuildConfig := partial_of nightly_config;
                   isAddDialogOpen := true; editingIndex := Some 1%nat |}
                1%nat "nightly" "http://jenkins/job/ui-tests/42/"
                eq_refl eq_refl) as H.
  assert (Hp : parseBuildUrl simple_URL_pathname "http://jenkins/job/ui-tests/42/"
               = Some {| bi_jobName := "ui-tests"; bi_buildNumber := 42 |})
    by reflexivity.
  rewrite Hp in H. exact (proj1 H).
Defined.

(** ** The links page *)

Lemma StronglySorted_app_inv {A : Type} (R : A -> A -> Prop) (xs ys : list A) :
  StronglySorted R (xs ++ ys) ->
  forall x y, In x xs -> In y ys -> R x y.
Proof.
  induction xs as [|a xs IH]; intros H x y Hx Hy; [destruct Hx|].
  simpl in H. inversion H as [|? ? Hs Hall]; subst.
  destruct Hx as [<-|Hx].
  - rewrite Forall_forall in Hall. apply Hall. apply in_or_app. now right.
  - now apply IH.
Qed.

Lemma by_lastUpdated_first (a b : RecentBuild) :
  comes_first
    (fun a b => inject_Z (recent_lastUpdated b - recent_lastUpdated a)) a b
  <-> recent_lastUpdated b <= recent_lastUpdated a.
Proof.
  unfold comes_first. rewrite Qle_bool_inject_Z. lia.
Qed.

(** X20.  The recent builds of the links page are the 20 most recently
    fetched reports, or all of them when there are fewer: every row is made
    from one report of the input, the rows are in descending order of fetch
    time, and no report that is left out was fetched later than a report
    that is shown. *)
Theorem recentBuilds_newest_first :
  forall allureReports,
    let rows := recentBuilds allureReports in
    List.length rows = Nat.min 20 (List.length allureReports)
    /\ (forall row, In row rows ->
          In (recent_reportData row) allureReports
          /\ recent_buildConfig row = buildConfig (recent_reportData row)
          /\ recent_lastUpdated row = lastUpdated (recent_reportData row)
          /\ recent_status row = status (recent_reportData row))
    /\ StronglySorted
         (fun a b => recent_lastUpdated b <= recent_lastUpdated a) rows
    /\ forall report,
         In report allureReports ->
         (exists row, In row rows /\ recent_reportData row = report)
         \/ (forall row, In row rows ->
               lastUpdated report <= recent_lastUpdated row).
Proof.
  intros allureReports. cbv zeta. unfold recentBuilds, slice0.
  set (to_row := fun report : AllureReportData => _).
  set (by_time := fun a b : RecentBuild => _).
  set (sorted := Array_sort by_time (map to_row allureReports)).
  assert (Hsorted : StronglySorted (comes_first by_time) sorted).
  { apply Array_sort_sorted.
    - intros a b Hab. apply by_lastUpdated_first.
      destruct (Z.le_gt_cases (recent_lastUpdated a) (recent_lastUpdated b))
        as [H|H]; [exact H|].
      assert (Hc : comes_first by_time a b) by (apply by_lastUpdated_first; lia).
      unfold comes_first in Hc. congruence.
    - intros a b c Hab Hbc. apply by_lastUpdated_first.
      apply by_lastUpdated_first in Hab, Hbc. lia. }
  assert (Horigin : forall row, In row sorted ->
            exists report, In report allureReports /\ row = to_row report).
  { intros row Hrow. apply (proj1 (Array_sort_In _ _ _)) in Hrow.
    apply in_map_iff in Hrow. destruct Hrow as (report & <- & Hin). eauto. }
  split; [|split; [|split]].
  - rewrite length_firstn. unfold sorted.
    now rewrite Array_sort_length, length_map.
  - intros row Hrow. apply In_firstn in Hrow.
    destruct (Horigin row Hrow) as (report & Hin & ->). cbn. auto.
  - assert (H20 : StronglySorted (comes_first by_time) (firstn 20 sorted))
      by now apply StronglySorted_firstn.
    apply (StronglySorted_map (comes_first by_time)
             (fun a b => recent_lastUpdated b <= recent_lastUpdated a)
             (fun row => row) (firstn 20 sorted)
             (fun a b H => proj1 (by_lastUpdated_first a b) H)) in H20.
    now rewrite map_id in H20.
  - intros report Hin.
    assert (Hrow : In (to_row report) sorted).
    { apply Array_sort_In. now apply in_map. }
    rewrite <- (firstn_skipn 20 sorted) in Hrow, Hsorted.
    apply in_app_or in Hrow. destruct Hrow as [Hrow|Hrow].
    + left. exists (to_row report). now split.
    + right. intros row Hshown.
      pose proof (StronglySorted_app_inv _ _ _ Hsorted _ _ Hshown Hrow) as H.
      apply by_lastUpdated_first in H. exact H.
Qed.

Lemma find_snoc {A : Type} (p : A -> bool) (xs : list A) (x : A) :
  find p (xs ++ [x])
  = match find p xs with
    | Some y => Some y
    | None => if p x then Some x else None
    end.
Proof.
  induction xs as [|y xs IH]; simpl; [reflexivity|].
  now destruct (p y).
Qed.

(** X21.  Claiming a build.  With a name that is not blank the claim is
    appended and the dialog is closed and cleared: the build is claimed
    afterwards, by the earlier claim when it had one and otherwise by the new
    claim, which carries the trimmed name and the time of the call; the
    claims of every other build are what they were.  With a blank name
    nothing changes and the request for a name is shown. *)
Theorem handleClaimBuild_claims :
  forall (trim : string -> string) now job number st,
    let after := handleClaimBuild trim now job number st in
    if Boolean (trim (claimedBy st)) then
      match isBuildClaimed (claimedBuilds st) job number with
      | Some earlier =>
          isBuildClaimed (claimedBuilds (fst after)) job number = Some earlier
      | None =>
          exists claim,
            isBuildClaimed (claimedBuilds (fst after)) job number = Some claim
            /\ claim_jobName claim = job
            /\ claim_buildNumber claim = number
            /\ claim_claimedBy claim = trim (claimedBy st)
            /\ claim_claimedAt claim = now
      end
      /\ (forall job' number',
            String.eqb job job' && (number =? number') = false ->
            isBuildClaimed (claimedBuilds (fst after)) job' number'
            = isBuildClaimed (claimedBuilds st) job' number')
      /\ claimDialogOpen (fst after) = false
      /\ claimedBy (fst after) = ""
      /\ claimNotes (fst after) = ""
    else
      after = (st, [toast_error "Please enter your name"]).
Proof.
  intros trim now job number st. cbv zeta. unfold handleClaimBuild.
  destruct (Boolean (trim (claimedBy st))); cbn [negb fst]; [|reflexivity].
  cbn [claimedBuilds claimDialogOpen claimedBy claimNotes].
  unfold isBuildClaimed. split; [|split; [|repeat split]].
  - rewrite find_snoc.
    destruct (find _ (claimedBuilds st)) as [earlier|]; [reflexivity|].
    cbn [claim_jobName claim_buildNumber].
    rewrite String.eqb_refl, Z.eqb_refl. cbn [andb].
    eexists. split; [reflexivity|]. cbn. auto.
  - intros job' number' Hne. rewrite find_snoc.
    destruct (find _ (claimedBuilds st)) as [earlier|]; [reflexivity|].
    cbn [claim_jobName claim_buildNumber]. now rewrite Hne.
Qed.

(** ** The objects that the flakiness deriver writes to *)








(** A failed run of a test named [constructor] is counted on the function
    [Object.prototype.constructor]; [Object.prototype] stays as it was. *)
Lemma constructor_test_written_on_function :
  assignment_targets (testResults constructor_test_reports) ([], pristine)
  = [OwnEntry; InheritedFunction "constructor"]
  /\ generateFlakyTestsData pristine 0 constructor_test_reports = ([], pristine).
Proof. split; vm_compute; reflexivity. Qed.

(** ** The paths that the service requests *)

Lemma request_path_segments job number tail :
  contains_char "/" job = false ->
  split "/" ("/job/" ++ job ++ "/" ++ Number_toString number ++ String "/" tail)
  = "" :: "job" :: job :: Number_toString number :: split "/" tail.
Proof.
  intros Hjob.
  change ("/job/" ++ job ++ "/" ++ Number_toString number ++ String "/" tail)
    with ("" ++ String "/" ("job" ++ String "/" (job ++ String "/"
            (Number_toString number ++ String "/" tail)))).
  rewrite (split_piece "/" "") by reflexivity.
  rewrite (split_piece "/" "job") by reflexivity.
  rewrite (split_piece "/" job) by exact Hjob.
  now rewrite (split_piece "/" _ _ (Number_toString_no_slash number)).
Qed.

(** X23.  Whatever characters the job name holds, it takes exactly one
    segment of the paths that the two reads request: both paths have the ten
    segments [job], the encoded name, the build number and the seven of the
    export end point, behind the leading slash. *)
Theorem request_paths_have_fixed_shape :
  forall buildInfo,
    split "/" (summary_json_path buildInfo)
    = [ ""; "job"; encodeURIComponent (bi_jobName buildInfo);
        Number_toString (bi_buildNumber buildInfo);
        "allure-results"; "api"; "rs"; "allure2"; "export"; "summary.json" ]
    /\ split "/" (testresult_json_path buildInfo)
       = [ ""; "job"; encodeURIComponent (bi_jobName buildInfo);
           Number_toString (bi_buildNumber buildInfo);
           "allure-results"; "api"; "rs"; "allure2"; "export"; "testresult.json" ].
Proof.
  intros buildInfo. unfold summary_json_path, testresult_json_path. split.
  - change "/allure-results/api/rs/allure2/export/summary.json"
      with (String "/" "allure-results/api/rs/allure2/export/summary.json").
    rewrite request_path_segments by apply encodeURIComponent_no_slash.
    reflexivity.
  - change "/allure-results/api/rs/allure2/export/testresult.json"
      with (String "/" "allure-results/api/rs/allure2/export/testresult.json").
    rewrite request_path_segments by apply encodeURIComponent_no_slash.
    reflexivity.
Qed.

(** ** An invariant of the list of build configurations *)

Section ConfigurationInvariant.

Variable URL_pathname : string -> option string.

Lemma config_from_dialog_stored dialog n u config :
  Boolean n = true -> Boolean u = true ->
  config_from_dialog URL_pathname dialog n u = inl config ->
  stored_by_dialog URL_pathname config.
Proof.
  intros Hn Hu Hc.
  pose proof (config_from_dialog_parseBuildUrl URL_pathname dialog n u) as H.
  destruct (parseBuildUrl URL_pathname u) as [bi|] eqn:Hp.
  - rewrite H in Hc. injection Hc as <-. unfold stored_by_dialog.
    cbn [name buildUrl jobName buildNumber description environment tags].
    repeat split; try assumption.
    + rewrite Hp. now destruct bi.
    + now eexists.
    + eexists. split; [reflexivity | apply string_or_default_nonempty].
    + now eexists.
  - destruct H as (message & H & _). congruence.
Qed.

Lemma Forall_mapi_replace {A : Type} (P : A -> Prop) index (updated : A) prev :
  P updated -> Forall P prev ->
  forall k,
    Forall P (mapi (fun i x => if Nat.eqb i index then updated else x) k prev).
Proof.
  intros Hu H. induction H as [|x prev Hx _ IH]; intros k; simpl; constructor.
  - now destruct (Nat.eqb k index).
  - apply IH.
Qed.

Lemma Forall_remove_at {A : Type} (P : A -> Prop) prev :
  Forall P prev -> forall index, Forall P (remove_at index prev).
Proof.
  induction 1 as [|x prev Hx H IH]; intros [|index]; simpl; auto.
Qed.

(** X24.  No handler of the configuration page breaks the list: when every
    stored configuration has a name and a URL, caches the job name and the
    build number that the service resolves from its URL and has its optional
    fields filled, the same holds after adding, after saving an edit, after
    deleting, after cancelling and after opening an entry for editing. *)
Theorem configuration_list_stays_resolved :
  forall st index,
    Forall (stored_by_dialog URL_pathname) (buildConfigs st) ->
    Forall (stored_by_dialog URL_pathname)
      (buildConfigs (fst (handleAddBuildConfig URL_pathname st)))
    /\ Forall (stored_by_dialog URL_pathname)
         (buildConfigs (fst (handleUpdateBuildConfig URL_pathname st)))
    /\ Forall (stored_by_dialog URL_pathname)
         (buildConfigs (handleDeleteBuildConfig index st))
    /\ Forall (stored_by_dialog URL_pathname) (buildConfigs (handleCancel st))
    /\ match handleEditBuildConfig index st with
       | Some opened =>
           Forall (stored_by_dialog URL_pathname) (buildConfigs opened)
       | None => True
       end.
Proof.
  intros st index H. split; [|split; [|split; [|split]]].
  - unfold handleAddBuildConfig.
    destruct (dialog_name_and_url (newBuildConfig st)) as [[n u]|] eqn:Hd;
      [|exact H].
    destruct (dialog_name_and_url_nonempty _ _ _ Hd) as [Hn Hu].
    destruct (config_from_dialog URL_pathname (newBuildConfig st) n u)
      as [config|message] eqn:Hc; [|exact H].
    cbn [fst buildConfigs]. apply Forall_app. split; [exact H|].
    constructor; [|constructor].
    exact (config_from_dialog_stored _ _ _ _ Hn Hu Hc).
  - unfold handleUpdateBuildConfig.
    destruct (editingIndex st) as [i|]; [|exact H].
    destruct (dialog_name_and_url (newBuildConfig st)) as [[n u]|] eqn:Hd;
      [|exact H].
    destruct (dialog_name_and_url_nonempty _ _ _ Hd) as [Hn Hu].
    destruct (config_from_dialog URL_pathname (newBuildConfig st) n u)
      as [config|message] eqn:Hc; [|exact H].
    cbn [fst buildConfigs]. unfold replace_at.
    apply Forall_mapi_replace; [|exact H].
    exact (config_from_dialog_stored _ _ _ _ Hn Hu Hc).
  - cbn [handleDeleteBuildConfig buildConfigs]. now apply Forall_remove_at.
  - exact H.
  - unfold handleEditBuildConfig.
    now destruct (nth_error (buildConfigs st) index).
Qed.

End ConfigurationInvariant.

Lemma configuration_list_stays_resolved_witness :
  Forall (stored_by_dialog simple_URL_pathname)
    (buildConfigs
       (fst (handleAddBuildConfig simple_URL_pathname
               {| buildConfigs := [nightly_config];
                  newBuildConfig :=
                    newBuildConfig
                      (dialog_state "weekly" "http://jenkins/job/api-tests/7/");
                  isAddDialogOpen := true;
                  editingIndex := None |}))).
Proof.
  apply (configuration_list_stays_resolved simple_URL_pathname
           {| buildConfigs := [nightly_config];
              newBuildConfig :=
                newBuildConfig
                  (dialog_state "weekly" "http://jenkins/job/api-tests/7/");
              isAddDialogOpen := true;
              editingIndex := None |} 0%nat).
  constructor; [exact nightly_config_stored_by_dialog | constructor].
Defined.
